(** * PsiTabs: duplicate detection, clustering strategies and LLM reply parsing

    A shallow embedding of the tab-organizer's core logic
    ([duplicate-detector.ts], [group-manager.ts], [llm-service.ts]) together
    with the properties its specification states about it.

    Conventions of the embedding:
    - a JavaScript string is a [string] whose characters are code units below
      256; every literal, regular expression and separator of the sources is
      ASCII;
    - a tab identifier is a [Z]; an optional field ([id?], [url?]) is an
      [option];
    - host calls ([chrome.tabs.*], [chrome.tabGroups.*]) act on an explicit
      browser state, and a rejected promise / thrown exception is the [Err]
      branch of a result. *)

From Stdlib Require Import ZArith List String Ascii Bool Lia Permutation QArith DecimalString.
From stdpp Require Import gmap strings list sorting.

Import ListNotations.
Local Open Scope Z_scope.
Local Open Scope string_scope.

(** ** JavaScript built-ins used by the sources *)

Module JS.

(** [!s] for a string: only the empty string is falsy. *)
Definition truthy (s : string) : bool := negb (String.eqb s "").

(** [s.startsWith(p)] *)
Definition startsWith (s p : string) : bool := String.prefix p s.

(** [s.includes(sub)] *)
Fixpoint includes (s sub : string) : bool :=
  if String.prefix sub s then true
  else match s with
       | EmptyString => false
       | String _ s' => includes s' sub
       end.

Definition is_upper (c : ascii) : bool :=
  let n := nat_of_ascii c in ((65 <=? n) && (n <=? 90))%nat.
Definition is_lower (c : ascii) : bool :=
  let n := nat_of_ascii c in ((97 <=? n) && (n <=? 122))%nat.
Definition is_digit (c : ascii) : bool :=
  let n := nat_of_ascii c in ((48 <=? n) && (n <=? 57))%nat.
Definition is_alpha (c : ascii) : bool := is_upper c || is_lower c.

Definition lower_char (c : ascii) : ascii :=
  if is_upper c then ascii_of_nat (nat_of_ascii c + 32) else c.

(** [s.toLowerCase()]; the sources apply it to host names and to LLM
    replies, and only ASCII letters are mapped here. *)
Fixpoint toLowerCase (s : string) : string :=
  match s with
  | EmptyString => EmptyString
  | String c s' => String (lower_char c) (toLowerCase s')
  end.

(** [Array.prototype.sort]: the sort is stable (ECMAScript 2019), so an
    insertion sort that keeps an element in front of the later elements that
    do not have to come before it gives the same array.  [before y x] says
    that [y] has to come before [x]. *)
Section Sort.
Context {A : Type} (before : A -> A -> bool).

Fixpoint sort_insert (x : A) (l : list A) : list A :=
  match l with
  | [] => [x]
  | y :: ys => if before y x then y :: sort_insert x ys else x :: y :: ys
  end.

Definition sort_with (l : list A) : list A := fold_right sort_insert [] l.
End Sort.

(** [array.sort()]: the elements are converted to strings and compared by
    code units. *)
Definition sort {A : Type} (toString : A -> string) : list A -> list A :=
  sort_with (fun y x => String.ltb (toString y) (toString x)).

(** [array.sort(compareFn)] for a comparison function into the integers. *)
Definition sort_compare {A : Type} (compareFn : A -> A -> Z) : list A -> list A :=
  sort_with (fun y x => Z.ltb (compareFn y x) 0).

(** Longest prefix of characters that satisfy [p], and the rest. *)
Fixpoint span (p : ascii -> bool) (s : string) : string * string :=
  match s with
  | String c rest =>
      if p c then let r := span p rest in (String c (fst r), snd r) else ("", s)
  | EmptyString => ("", "")
  end.

Fixpoint all_chars (p : ascii -> bool) (s : string) : bool :=
  match s with
  | String c rest => p c && all_chars p rest
  | EmptyString => true
  end.

(** The rest of [s] after the literal [lit], when [s] starts with it. *)
Fixpoint strip_prefix (lit s : string) : option string :=
  match lit with
  | EmptyString => Some s
  | String a lit' =>
      match s with
      | String b s' => if Ascii.eqb a b then strip_prefix lit' s' else None
      | EmptyString => None
      end
  end.

(** White space and line terminators ([\s], [trim]) among the code units
    below 256. *)
Definition is_space (c : ascii) : bool :=
  let n := nat_of_ascii c in
  ((9 <=? n) && (n <=? 13) || (n =? 32) || (n =? 160))%nat.

Definition is_newline (c : ascii) : bool := Ascii.eqb c "010".

(** Line terminators, for [^] under the [m] flag. *)
Definition is_line_terminator (c : ascii) : bool :=
  Ascii.eqb c "010" || Ascii.eqb c "013".

Fixpoint trim_start (s : string) : string :=
  match s with
  | String c rest => if is_space c then trim_start rest else s
  | EmptyString => EmptyString
  end.

Fixpoint trim_end (s : string) : string :=
  match s with
  | String c rest =>
      let rest' := trim_end rest in
      if is_space c && negb (truthy rest') then EmptyString else String c rest'
  | EmptyString => EmptyString
  end.

(** [s.trim()] *)
Definition trim (s : string) : string := trim_end (trim_start s).

(** Value of a string of decimal digits. *)
Fixpoint digits_value (s : string) (acc : Z) : Z :=
  match s with
  | String c rest => digits_value rest (10 * acc + (Z.of_nat (nat_of_ascii c) - 48))
  | EmptyString => acc
  end.

(** [parseInt(s, 10)]; [None] is [NaN].  Identifiers are exact integers
    here, as they are in the sources below 2^53. *)
Definition parseInt (s : string) : option Z :=
  let s := trim_start s in
  let signed := match s with
                | String "-" rest => (true, rest)
                | String "+" rest => (false, rest)
                | _ => (false, s)
                end in
  let digits := fst (span is_digit (snd signed)) in
  if truthy digits
  then Some (if fst signed then - digits_value digits 0 else digits_value digits 0)
  else None.

(** [s.match(/\d+/g)]: the maximal runs of digits, in order ([[]] stands
    for [null]). *)
Fixpoint digit_runs (s : string) (cur : string) : list string :=
  match s with
  | String c rest =>
      if is_digit c then digit_runs rest (cur ++ String c "")
      else if truthy cur then cur :: digit_runs rest ""
           else digit_runs rest ""
  | EmptyString => if truthy cur then [cur] else []
  end.

(** [s.split(/[,\s]+/)]: the pieces between maximal runs of commas and
    white space; a run at either end leaves an empty piece there. *)
Definition is_list_separator (c : ascii) : bool := Ascii.eqb c "," || is_space c.

Fixpoint split_list (s : string) (cur : string) (in_separator : bool) : list string :=
  match s with
  | String c rest =>
      if is_list_separator c
      then if in_separator then split_list rest "" true
           else cur :: split_list rest "" true
      else split_list rest (cur ++ String c "") false
  | EmptyString => [cur]
  end.

(** [array.join(sep)] *)
Fixpoint join (sep : string) (l : list string) : string :=
  match l with
  | [] => ""
  | [x] => x
  | x :: rest => x ++ sep ++ join sep rest
  end.

(** [s.slice(0, n)] *)
Definition slice_to (n : nat) (s : string) : string := String.substring 0 n s.

(** [Array.prototype.toString] of a two-element array of strings. *)
Definition pair_toString (e : string * string) : string :=
  fst e ++ "," ++ snd e.

End JS.

(** ** Host data: tabs as [chrome.tabs.Tab] *)

Record Tab : Type := mkTab {
  tab_id : option Z;          (* id?: number *)
  tab_index : Z;
  tab_windowId : option Z;
  tab_url : option string;
  tab_title : option string;
  tab_groupId : Z             (* TAB_GROUP_ID_NONE when ungrouped *)
}.

Definition TAB_GROUP_ID_NONE : Z := -1.

(** [!tab.id] is false exactly for a present, non-zero identifier. *)
Definition has_id (t : Tab) : bool :=
  match tab_id t with
  | Some i => negb (Z.eqb i 0)
  | None => false
  end.

(** The parts of a parsed [URL] object that the sources read. *)
Record URL : Type := mkURL {
  protocol : string;   (* scheme followed by ":" *)
  hostname : string;
  port : string;       (* empty when absent *)
  pathname : string;
  search : string      (* empty, or "?" followed by the query *)
}.

(** ** [URLSearchParams] (WHATWG URL, application/x-www-form-urlencoded) *)

Module URLSearchParams.

Definition hex_value (c : ascii) : option nat :=
  let n := nat_of_ascii c in
  if JS.is_digit c then Some (n - 48)%nat
  else if ((65 <=? n) && (n <=? 70))%nat then Some (n - 55)%nat
  else if ((97 <=? n) && (n <=? 102))%nat then Some (n - 87)%nat
  else None.

Definition hex_digit (n : nat) : ascii :=
  if (n <? 10)%nat then ascii_of_nat (48 + n) else ascii_of_nat (55 + n).

(** Percent-decoding; ["+"] has been replaced by a space before. *)
Fixpoint percent_decode (s : string) : string :=
  match s with
  | String "%" (String h (String l rest as t) as t') =>
      match hex_value h, hex_value l with
      | Some a, Some b => String (ascii_of_nat (16 * a + b)) (percent_decode rest)
      | _, _ => String "%" (percent_decode t')
      end
  | String c rest => String c (percent_decode rest)
  | EmptyString => EmptyString
  end.

Fixpoint plus_to_space (s : string) : string :=
  match s with
  | EmptyString => EmptyString
  | String c rest => String (if Ascii.eqb c "+" then " "%char else c) (plus_to_space rest)
  end.

(** Split at every occurrence of the separator character. *)
Fixpoint split_on (sep : ascii) (s : string) (cur : string) : list string :=
  match s with
  | EmptyString => [cur]
  | String c rest =>
      if Ascii.eqb c sep then cur :: split_on sep rest ""
      else split_on sep rest (cur ++ String c "")
  end.

(** Name and value of one sequence: split at the first ["="]. *)
Fixpoint name_value (s : string) (name : string) : string * string :=
  match s with
  | EmptyString => (name, "")
  | String c rest =>
      if Ascii.eqb c "=" then (name, rest)
      else name_value rest (name ++ String c "")
  end.

Definition decode (s : string) : string := percent_decode (plus_to_space s).

(** [new URLSearchParams(init)] for a string: one leading "?" is dropped,
    empty sequences are skipped. *)
Definition parse (init : string) : list (string * string) :=
  let q := match init with
           | String "?" rest => rest
           | _ => init
           end in
  map (fun sq => let nv := name_value sq "" in (decode (fst nv), decode (snd nv)))
      (List.filter JS.truthy (split_on "&" q "")).

Definition unreserved (c : ascii) : bool :=
  JS.is_alpha c || JS.is_digit c ||
  Ascii.eqb c "*" || Ascii.eqb c "-" || Ascii.eqb c "." || Ascii.eqb c "_".

Fixpoint encode (s : string) : string :=
  match s with
  | EmptyString => EmptyString
  | String c rest =>
      if Ascii.eqb c " " then String "+" (encode rest)
      else if unreserved c then String c (encode rest)
      else let n := nat_of_ascii c in
           String "%" (String (hex_digit (n / 16)) (String (hex_digit (n mod 16)) (encode rest)))
  end.

(** [params.toString()] *)
Definition toString (entries : list (string * string)) : string :=
  JS.join "&" (map (fun e => encode (fst e) ++ "=" ++ encode (snd e)) entries).

End URLSearchParams.

(** ** A log of calls, for functions whose calls to a helper matter *)

Module Logged.
(** A value together with the arguments passed to the logged helper, in call
    order. *)
Definition t (A : Type) : Type := (A * list string)%type.
Definition ret {A} (a : A) : t A := (a, []).
Definition bind {A B} (m : t A) (k : A -> t B) : t B :=
  let r := k (fst m) in (fst r, (snd m ++ snd r)%list).
(** Call [f] on [arg] and record the call. *)
Definition call {A} (f : string -> A) (arg : string) : t A := (f arg, [arg]).
Definition value {A} (m : t A) : A := fst m.
Definition calls {A} (m : t A) : list string := snd m.
End Logged.

Notation "x <-- m ;; k" := (Logged.bind m (fun x => k))
  (at level 100, m at next level, right associativity).

(** ** duplicate-detector.ts *)

Record DuplicateGroup : Type := mkDuplicateGroup {
  original : Tab;
  duplicates : list Tab
}.

Module DuplicateDetector.

(** The body of the [try] block of [normalizeUrl], once the URL is parsed:
    protocol, lower-cased host, port unless it is the protocol's default,
    path, and the query with its parameters sorted; the fragment is left
    out. *)
Definition normalizeParsed (urlObj : URL) : string :=
  let normalized := protocol urlObj ++ "//" ++ JS.toLowerCase (hostname urlObj) in
  let normalized :=
    if JS.truthy (port urlObj) &&
       negb (String.eqb (protocol urlObj) "http:" && String.eqb (port urlObj) "80") &&
       negb (String.eqb (protocol urlObj) "https:" && String.eqb (port urlObj) "443")
    then normalized ++ ":" ++ port urlObj
    else normalized in
  let normalized := normalized ++ pathname urlObj in
  if JS.truthy (search urlObj) then
    let searchParams := URLSearchParams.parse (search urlObj) in
    let sortedParams := JS.sort JS.pair_toString searchParams in
    (* appending the sorted entries one by one to an empty
       URLSearchParams gives the sorted entries *)
    normalized ++ "?" ++ URLSearchParams.toString sortedParams
  else normalized.

Section WithURLParser.

(** [new URL(url)]: the parsed URL, or [None] when the constructor throws. *)
Variable new_URL : string -> option URL.

(** [normalizeUrl]: the input is returned unchanged when the URL
    constructor throws. *)
Definition normalizeUrl (url : string) : string :=
  match new_URL url with
  | Some urlObj => normalizeParsed urlObj
  | None => url
  end.

(** [areTabsDuplicate], with every call of [normalizeUrl] recorded. *)
Definition areTabsDuplicate_logged (tab1 tab2 : Tab) : Logged.t bool :=
  match tab_url tab1, tab_url tab2 with
  | Some url1, Some url2 =>
      (* Skip tabs without URLs *)
      if negb (JS.truthy url1) || negb (JS.truthy url2) then Logged.ret false
      (* Skip chrome:// and edge:// URLs as they are system pages *)
      else if JS.startsWith url1 "chrome://" || JS.startsWith url1 "edge://" ||
              JS.startsWith url2 "chrome://" || JS.startsWith url2 "edge://"
      then Logged.ret false
      (* Skip new tab pages *)
      else if String.eqb url1 "about:blank" || String.eqb url2 "about:blank" ||
              String.eqb url1 "chrome://newtab/" || String.eqb url2 "chrome://newtab/" ||
              String.eqb url1 "edge://newtab/" || String.eqb url2 "edge://newtab/"
      then Logged.ret false
      (* Compare the normalized URLs *)
      else
        n1 <-- Logged.call normalizeUrl url1 ;;
        n2 <-- Logged.call normalizeUrl url2 ;;
        Logged.ret (String.eqb n1 n2)
  | _, _ => Logged.ret false
  end.

Definition areTabsDuplicate (tab1 tab2 : Tab) : bool :=
  Logged.value (areTabsDuplicate_logged tab1 tab2).

(** Body of the inner loop of [identifyDuplicateGroups] for the current
    tab (identifier [cur]); the state is the [duplicates] array and the
    [assignedTabs] set. *)
Definition scan_step (tab : Tab) (cur : Z) (st : list Tab * gset Z) (otherTab : Tab)
  : list Tab * gset Z :=
  match tab_id otherTab with
  | Some oid =>
      if Z.eqb oid 0 || Z.eqb oid cur || bool_decide (oid ∈ st.2) then st
      else if areTabsDuplicate tab otherTab
           then ((st.1 ++ [otherTab])%list, {[oid]} ∪ st.2)
           else st
  | None => st
  end.

(** Body of the outer loop; the state is [duplicateGroups] and
    [assignedTabs]. *)
Definition group_step (tabs : list Tab) (st : list DuplicateGroup * gset Z) (tab : Tab)
  : list DuplicateGroup * gset Z :=
  match tab_id tab with
  | Some cur =>
      if Z.eqb cur 0 || bool_decide (cur ∈ st.2) then st
      else
        let found := fold_left (scan_step tab cur) tabs ([], st.2) in
        if (0 <? length found.1)%nat
        then ((st.1 ++ [mkDuplicateGroup tab found.1])%list, {[cur]} ∪ found.2)
        else (st.1, found.2)
  | None => st
  end.

Definition identifyDuplicateGroups (tabs : list Tab) : list DuplicateGroup :=
  (fold_left (group_step tabs) tabs ([], ∅)).1.

End WithURLParser.
End DuplicateDetector.

(** ** A model of the URL constructor on plain http(s) URLs

    The WHATWG parser restricted to inputs of the shape
    [scheme://host[:port][/path][?query][#fragment]] with scheme [http] or
    [https], a host made of letters, digits and dots whose last label starts
    with a letter, a decimal port up to 65535, a path of letters, digits and
    [/ - _ ~], and a query of printable ASCII without space, double quote,
    quote, [#], [<] and [>].  On these inputs the constructor lower-cases
    scheme and host, drops a default port, and defaults the path to [/].
    [None] is returned for every other input, whether the real constructor
    throws on it or not: the model is only meant for inputs of this shape. *)

Module URLModel.

(** Decimal digits without leading zeros ("0" for zero). *)
Fixpoint strip_zeros (s : string) : string :=
  match s with
  | String "0" (String _ _ as rest) => strip_zeros rest
  | _ => s
  end.

Definition host_char (c : ascii) : bool := JS.is_alpha c || JS.is_digit c || Ascii.eqb c ".".
Definition path_char (c : ascii) : bool :=
  JS.is_alpha c || JS.is_digit c ||
  Ascii.eqb c "/" || Ascii.eqb c "-" || Ascii.eqb c "_" || Ascii.eqb c "~".
Definition printable (c : ascii) : bool :=
  let n := nat_of_ascii c in ((33 <=? n) && (n <=? 126))%nat.
Definition query_char (c : ascii) : bool :=
  printable c &&
  negb (Ascii.eqb c (ascii_of_nat 34) || Ascii.eqb c "'" || Ascii.eqb c "#" || Ascii.eqb c "<" || Ascii.eqb c ">").

(** The last label of a host starts with a letter, and no label is empty. *)
Fixpoint labels_ok (s : string) (at_label_start : bool) (last_starts_alpha : bool) : bool :=
  match s with
  | EmptyString => negb at_label_start && last_starts_alpha
  | String c rest =>
      if Ascii.eqb c "." then negb at_label_start && labels_ok rest true false
      else labels_ok rest false (if at_label_start then JS.is_alpha c else last_starts_alpha)
  end.

Definition default_port (scheme : string) : string :=
  if String.eqb scheme "http" then "80" else "443".

Definition parse (input : string) : option URL :=
  let (scheme, r1) := JS.span (fun c => JS.is_alpha c || JS.is_digit c) input in
  let scheme := JS.toLowerCase scheme in
  if negb (String.eqb scheme "http" || String.eqb scheme "https") then None else
  match r1 with
  | String ":" (String "/" (String "/" r2)) =>
      let (host, r3) := JS.span host_char r2 in
      if negb (labels_ok host true false) then None else
      let port_rest :=
        match r3 with
        | String ":" r4 =>
            let (digits, r5) := JS.span JS.is_digit r4 in
            if JS.truthy digits && Z.leb (JS.digits_value digits 0) 65535
            then Some (strip_zeros digits, r5) else None
        | _ => Some ("", r3)
        end in
      match port_rest with
      | None => None
      | Some (port, r5) =>
          let (path, r6) := JS.span path_char r5 in
          let path_ok := match path with
                         | EmptyString => true
                         | String c _ => Ascii.eqb c "/"
                         end in
          let query_rest :=
            match r6 with
            | String "?" r7 => let (q, r8) := JS.span query_char r7 in Some (q, r8)
            | _ => Some ("", r6)
            end in
          match query_rest with
          | None => None
          | Some (query, r8) =>
              let fragment_ok :=
                match r8 with
                | EmptyString => true
                | String c frag => Ascii.eqb c "#" && JS.all_chars printable frag
                end in
              if path_ok && fragment_ok then
                Some {| protocol := scheme ++ ":";
                        hostname := JS.toLowerCase host;
                        port := if String.eqb port (default_port scheme) then "" else port;
                        pathname := if JS.truthy path then path else "/";
                        search := if JS.truthy query then "?" ++ query else "" |}
              else None
          end
      end
  | _ => None
  end.

End URLModel.

(** ** Results, and the browser as explicit state *)

Inductive Result (A : Type) : Type :=
| Ok (a : A)
| Err (message : string).
Arguments Ok {A} a.
Arguments Err {A} message.

Inductive Color : Type :=
| grey | blue | red | yellow | green | pink | purple | cyan | orange.

(** [chrome.tabGroups.TabGroup] *)
Record TabGroup : Type := mkTabGroup {
  group_id : Z;
  group_windowId : Z;
  group_title : option string;
  group_color : Color;
  group_collapsed : bool
}.

(** [chrome.tabGroups.UpdateProperties], as far as the sources set them. *)
Record UpdateProperties : Type := mkUpdateProperties {
  update_title : option string;
  update_color : option Color
}.

(** The part of the host that the sources observe: the open tabs (in the
    order in which queries list them), the native tab groups, the window that
    receives new groups, the identifier for the next group, and the number of
    random draws made so far. *)
Record Browser : Type := mkBrowser {
  tabs : list Tab;
  groups : list TabGroup;
  current_window : Z;
  next_group_id : Z;
  random_draws : nat
}.

(** An asynchronous operation of the sources: it reads and changes the
    browser and either resolves to a value or rejects with a message. *)
Definition Async (A : Type) : Type := Browser -> Result A * Browser.

Definition resolve {A} (a : A) : Async A := fun b => (Ok a, b).
Definition reject {A} (message : string) : Async A := fun b => (Err message, b).
Definition await {A B} (m : Async A) (k : A -> Async B) : Async B :=
  fun b => match m b with
           | (Ok a, b') => k a b'
           | (Err e, b') => (Err e, b')
           end.
(** [try { m } catch (error) { handler }]; effects made before the
    failure stay. *)
Definition try_catch {A} (m : Async A) (handler : string -> Async A) : Async A :=
  fun b => match m b with
           | (Ok a, b') => (Ok a, b')
           | (Err e, b') => handler e b'
           end.
(** A value that is already a result (an external service's answer). *)
Definition of_result {A} (r : Result A) : Async A := fun b => (r, b).

Notation "x <- m ;; k" := (await m (fun x => k))
  (at level 100, m at next level, right associativity).
Notation "m ;;; k" := (await m (fun _ => k))
  (at level 100, right associativity).

(** Sequential iteration with an accumulator: a [for] loop whose body
    awaits. *)
Fixpoint for_each {X S : Type} (body : S -> X -> Async S) (l : list X) (s : S) : Async S :=
  match l with
  | [] => resolve s
  | x :: rest => s' <- body s x ;; for_each body rest s'
  end.

(** [Promise.all] of one asynchronous call per element. *)
Fixpoint await_all {X Y : Type} (f : X -> Async Y) (l : list X) : Async (list Y) :=
  match l with
  | [] => resolve []
  | x :: rest => y <- f x ;; ys <- await_all f rest ;; resolve (y :: ys)
  end.

Definition option_Z_eqb (a b : option Z) : bool :=
  match a, b with
  | Some x, Some y => Z.eqb x y
  | None, None => true
  | _, _ => false
  end.

Definition Z_mem (x : Z) (l : list Z) : bool := existsb (Z.eqb x) l.

(** *** Host calls *)

Module chrome.

Definition tab_has_id (i : Z) (t : Tab) : bool := option_Z_eqb (tab_id t) (Some i).

(** [chrome.tabs.get(tabId)] *)
Definition tabs_get (tabId : Z) : Async Tab :=
  fun b => match List.find (tab_has_id tabId) (tabs b) with
           | Some t => (Ok t, b)
           | None => (Err "No tab with id", b)
           end.

(** [chrome.tabs.query({ windowId })]; an undefined window selects every
    tab. *)
Definition tabs_query (windowId : option Z) : Async (list Tab) :=
  fun b => (Ok (match windowId with
                | Some w => List.filter (fun t => option_Z_eqb (tab_windowId t) (Some w)) (tabs b)
                | None => tabs b
                end), b).

(** [chrome.tabGroups.query({ windowId })] *)
Definition tabGroups_query (windowId : option Z) : Async (list TabGroup) :=
  fun b => (Ok (match windowId with
                | Some w => List.filter (fun g => Z.eqb (group_windowId g) w) (groups b)
                | None => groups b
                end), b).

(** Put the listed tabs into group [g] of window [w]; a group left without
    tabs disappears. *)
Definition move_into (tabIds : list Z) (g w : Z) (ts : list Tab) : list Tab :=
  map (fun t => match tab_id t with
                | Some i => if Z_mem i tabIds
                            then mkTab (tab_id t) (tab_index t) (Some w) (tab_url t) (tab_title t) g
                            else t
                | None => t
                end) ts.

Definition inhabited_groups (ts : list Tab) (gs : list TabGroup) : list TabGroup :=
  List.filter (fun g => existsb (fun t => Z.eqb (tab_groupId t) (group_id g)) ts) gs.

(** [chrome.tabs.group({ tabIds, groupId })].  Without [groupId] a new group
    is made in the current window; the call rejects when the list is empty,
    when a tab does not exist or when the group does not exist. *)
Definition tabs_group (tabIds : list Z) (groupId : option Z) : Async Z :=
  fun b =>
    if (length tabIds =? 0)%nat then (Err "Must specify at least one tab", b)
    else if negb (forallb (fun i => existsb (tab_has_id i) (tabs b)) tabIds)
    then (Err "No tab with id", b)
    else match groupId with
         | Some g =>
             match List.find (fun x => Z.eqb (group_id x) g) (groups b) with
             | Some grp =>
                 let ts := move_into tabIds g (group_windowId grp) (tabs b) in
                 (Ok g, mkBrowser ts (inhabited_groups ts (groups b))
                                  (current_window b) (next_group_id b) (random_draws b))
             | None => (Err "No group with id", b)
             end
         | None =>
             let g := next_group_id b in
             let ts := move_into tabIds g (current_window b) (tabs b) in
             let grp := mkTabGroup g (current_window b) None grey false in
             (Ok g, mkBrowser ts (inhabited_groups ts (groups b ++ [grp])%list)
                              (current_window b) (g + 1) (random_draws b))
         end.

Definition apply_update (p : UpdateProperties) (g : TabGroup) : TabGroup :=
  mkTabGroup (group_id g) (group_windowId g)
             (match update_title p with Some t => Some t | None => group_title g end)
             (match update_color p with Some c => c | None => group_color g end)
             (group_collapsed g).

(** [chrome.tabGroups.update(groupId, properties)] *)
Definition tabGroups_update (groupId : Z) (p : UpdateProperties) : Async TabGroup :=
  fun b =>
    match List.find (fun x => Z.eqb (group_id x) groupId) (groups b) with
    | Some grp =>
        (Ok (apply_update p grp),
         mkBrowser (tabs b)
                   (map (fun x => if Z.eqb (group_id x) groupId then apply_update p x else x) (groups b))
                   (current_window b) (next_group_id b) (random_draws b))
    | None => (Err "No group with id", b)
    end.

(** [chrome.tabs.query({ groupId })] *)
Definition tabs_query_group (groupId : Z) : Async (list Tab) :=
  fun b => (Ok (List.filter (fun t => Z.eqb (tab_groupId t) groupId) (tabs b)), b).

(** Close the tab with identifier [i]; a group left without tabs
    disappears. *)
Definition close_tab (i : Z) (b : Browser) : Browser :=
  let ts := List.filter (fun t => negb (tab_has_id i t)) (tabs b) in
  mkBrowser ts (inhabited_groups ts (groups b))
            (current_window b) (next_group_id b) (random_draws b).

(** [chrome.tabs.remove(tabIds)]: the tabs are closed one after the other;
    the call rejects at the first identifier that names no open tab, and the
    tabs closed before it stay closed. *)
Fixpoint tabs_remove (tabIds : list Z) : Async unit :=
  match tabIds with
  | [] => resolve tt
  | i :: rest =>
      fun b => if existsb (tab_has_id i) (tabs b)
               then tabs_remove rest (close_tab i b)
               else (Err "No tab with id", b)
  end.

(** [chrome.tabGroups.update(groupId, { collapsed })] *)
Definition tabGroups_update_collapsed (groupId : Z) (collapsed : bool) : Async TabGroup :=
  fun b =>
    let set := fun g => mkTabGroup (group_id g) (group_windowId g) (group_title g)
                                   (group_color g) collapsed in
    match List.find (fun x => Z.eqb (group_id x) groupId) (groups b) with
    | Some grp =>
        (Ok (set grp),
         mkBrowser (tabs b)
                   (map (fun x => if Z.eqb (group_id x) groupId then set x else x) (groups b))
                   (current_window b) (next_group_id b) (random_draws b))
    | None => (Err "No group with id", b)
    end.

End chrome.

(** ** llm-service.ts *)

Record LLMSettings : Type := mkLLMSettings {
  llmProvider : string;
  llmApiKey : string;
  llmEndpoint : string
}.

Record TabDetail : Type := mkTabDetail {
  detail_id : Z;
  detail_title : string;
  detail_url : string;
  detail_content : string
}.

Module LLMService.

(** The [TabGroup] interface of the service: a suggested group.  The parser
    never sets the optional color. *)
Record TabGroup : Type := mkTabGroup {
  name : string;
  tabIds : list Z;
  color : option Color
}.

(** *** The regular expressions of [_parseGroupAnalysis] *)

(** [/Group \d+ Name:|^[A-Za-z]+ Group:/m] tried at the start of [s]; the
    result is the text after the match.  [line_start] tells whether [s]
    starts the text or follows a line terminator. *)
Definition heading_rest (line_start : bool) (s : string) : option string :=
  let numbered :=
    match JS.strip_prefix "Group " s with
    | Some s1 =>
        let ds := JS.span JS.is_digit s1 in
        if JS.truthy (fst ds) then JS.strip_prefix " Name:" (snd ds) else None
    | None => None
    end in
  match numbered with
  | Some rest => Some rest
  | None =>
      if line_start then
        let ls := JS.span JS.is_alpha s in
        if JS.truthy (fst ls) then JS.strip_prefix " Group:" (snd ls) else None
      else None
  end.

(** [text.split(heading)]: [skip] counts the characters of a match that are
    still to be passed over, [cur] is the piece being collected. *)
Fixpoint split_headings (skip : nat) (line_start : bool) (s cur : string) : list string :=
  match s with
  | EmptyString => [cur]
  | String c rest =>
      match skip with
      | S k => split_headings k (JS.is_line_terminator c) rest cur
      | O =>
          match heading_rest line_start s with
          | Some after =>
              cur :: split_headings (String.length rest - String.length after)
                                    (JS.is_line_terminator c) rest ""
          | None =>
              split_headings 0 (JS.is_line_terminator c) rest (cur ++ String c "")
          end
      end
  end.

(** [groupText.match(/^[^\n]+/)] *)
Definition first_line (s : string) : option string :=
  let l := fst (JS.span (fun c => negb (JS.is_newline c)) s) in
  if JS.truthy l then Some l else None.

(** One of the literals followed by [([^\n]+)], tried at the start of [s];
    the result is the captured text. *)
Fixpoint capture_here (lits : list string) (s : string) : option string :=
  match lits with
  | [] => None
  | lit :: others =>
      match JS.strip_prefix lit s with
      | Some rest =>
          let cap := fst (JS.span (fun c => negb (JS.is_newline c)) rest) in
          if JS.truthy cap then Some cap else capture_here others s
      | None => capture_here others s
      end
  end.

(** The leftmost match in [s]. *)
Fixpoint capture (lits : list string) (s : string) : option string :=
  match capture_here lits s with
  | Some cap => Some cap
  | None =>
      match s with
      | String _ rest => capture lits rest
      | EmptyString => None
      end
  end.

(** The digits [d] of a match of [/Tab (\d+)/] at the start of [s]. *)
Definition ordinal_here (s : string) : option string :=
  match JS.strip_prefix "Tab " s with
  | Some rest =>
      let ds := fst (JS.span JS.is_digit rest) in
      if JS.truthy ds then Some ds else None
  | None => None
  end.

(** [tabIdText.match(/Tab (\d+)/g)], each match already without its
    ["Tab "].  A match holds its only ["T"] at its start, so the scan may go
    on at the next character. *)
Fixpoint ordinals (s : string) : list string :=
  match s with
  | EmptyString => []
  | String _ rest =>
      match ordinal_here s with
      | Some ds => ds :: ordinals rest
      | None => ordinals rest
      end
  end.

(** [/Tab \d+/.test(s)] *)
Definition test_ordinal (s : string) : bool :=
  match ordinals s with
  | [] => false
  | _ :: _ => true
  end.

(** *** [_parseGroupAnalysis] *)

(** The body of the loop over the pieces after the first. *)
Definition parse_piece (tabBatch : list TabDetail) (groups : list TabGroup) (piece : string)
  : list TabGroup :=
  let tabIds := map detail_id tabBatch in
  let groupText := JS.trim piece in
  (* Skip if empty *)
  if negb (JS.truthy groupText) then groups else
  (* Extract group name (first line) *)
  match first_line groupText with
  | None => groups
  | Some line =>
      let groupName := JS.trim line in
      (* Extract tab IDs, then try the alternative format *)
      let tabIdMatch :=
        match capture ["Tab IDs:"] groupText with
        | Some cap => Some cap
        | None => capture ["Tabs:"; "Tab:"] groupText
        end in
      match tabIdMatch with
      | None => groups
      | Some cap =>
          let tabIdText := JS.trim cap in
          let groupTabIds :=
            if test_ordinal tabIdText then
              (* Format: "Tab 1, Tab 2, Tab 3" *)
              let tabNumbers :=
                map (fun ds => match JS.parseInt ds with
                               | Some n => n - 1
                               | None => -1
                               end) (ordinals tabIdText) in
              omap (fun index =>
                      if Z.leb 0 index && Z.ltb index (Z.of_nat (length tabBatch))
                      then option_map detail_id (nth_error tabBatch (Z.to_nat index))
                      else None) tabNumbers
            else
              (* Format: "1, 2, 3" or actual tab IDs *)
              List.filter (fun id => Z_mem id tabIds)
                          (omap JS.parseInt (JS.split_list tabIdText "" false)) in
          (* Only add valid groups with at least 2 tabs *)
          if (2 <=? length groupTabIds)%nat
          then (groups ++ [mkTabGroup groupName groupTabIds None])%list
          else groups
      end
  end.

Definition _parseGroupAnalysis (analysisText : string) (tabBatch : list TabDetail)
  : list TabGroup :=
  match split_headings 0 true analysisText "" with
  | [] => []
  | _intro :: groupLines => fold_left (parse_piece tabBatch) groupLines []
  end.

(** *** The service's operations *)

Section WithServices.

(** The collaborators that the service only calls: the stored settings
    ([storageManager.getSettings()]), the content script
    ([getTabContent]), the four provider adapters (each an HTTP exchange that
    yields the completion text or fails), and the two prompt templates. *)
Variable getSettings : Result LLMSettings.
Variable getTabContent : Z -> Result string.
Variable _callAzureOpenAI _callOpenAI _callAnthropic _callCustomLLM :
  string -> LLMSettings -> Result string.
Variable similarTabsPrompt : Tab -> string -> list Tab -> string.
Variable groupingPrompt : list TabDetail -> string.

(** [isConfigured]: a failure to read the settings counts as "not
    configured". *)
Definition isConfigured : Async bool :=
  try_catch
    (settings <- of_result getSettings ;;
     let provider := llmProvider settings in
     if String.eqb provider "azure"
     then resolve (JS.truthy (llmApiKey settings) && JS.truthy (llmEndpoint settings))
     else if String.eqb provider "openai" then resolve (JS.truthy (llmApiKey settings))
     else if String.eqb provider "anthropic" then resolve (JS.truthy (llmApiKey settings))
     else if String.eqb provider "custom"
     then resolve (JS.truthy (llmApiKey settings) && JS.truthy (llmEndpoint settings))
     else resolve false)
    (fun _ => resolve false).

(** [_callLLM]: dispatch on the configured provider; every failure is
    thrown on. *)
Definition _callLLM (prompt : string) : Async string :=
  settings <- of_result getSettings ;;
  let provider := llmProvider settings in
  if String.eqb provider "azure" then of_result (_callAzureOpenAI prompt settings)
  else if String.eqb provider "openai" then of_result (_callOpenAI prompt settings)
  else if String.eqb provider "anthropic" then of_result (_callAnthropic prompt settings)
  else if String.eqb provider "custom" then of_result (_callCustomLLM prompt settings)
  else reject ("Unsupported LLM provider: " ++ provider).

(** The filter of [findSimilarTabs]: every tab of the window except the
    reference tab, ungrouped, with a URL that is not browser-internal or
    blank. *)
Definition eligible_for (tabId : Z) (tab : Tab) : bool :=
  negb (option_Z_eqb (tab_id tab) (Some tabId)) &&
  Z.eqb (tab_groupId tab) TAB_GROUP_ID_NONE &&
  match tab_url tab with
  | Some url =>
      JS.truthy url &&
      negb (JS.startsWith url "chrome://") &&
      negb (JS.startsWith url "edge://") &&
      negb (String.eqb url "about:blank")
  | None => false
  end.

(** [findSimilarTabs]: the whole body is inside [try], and the [catch]
    returns the empty array. *)
Definition findSimilarTabs (tabId : Z) : Async (list Z) :=
  try_catch
    (configured <- isConfigured ;;
     if negb configured then reject "LLM is not configured" else
     referenceTab <- chrome.tabs_get tabId ;;
     allTabs <- chrome.tabs_query (tab_windowId referenceTab) ;;
     let eligibleTabs := List.filter (eligible_for tabId) allTabs in
     if (length eligibleTabs =? 0)%nat then resolve [] else
     referenceContent <-
       match tab_id referenceTab with
       | Some i => if Z.eqb i 0 then resolve "" else of_result (getTabContent i)
       | None => resolve ""
       end ;;
     let prompt := similarTabsPrompt referenceTab referenceContent eligibleTabs in
     response <- _callLLM prompt ;;
     if JS.includes (JS.toLowerCase response) "none" then resolve [] else
     let idMatches := JS.digit_runs response "" in
     match idMatches with
     | [] => resolve []
     | _ :: _ =>
         resolve (List.filter
                    (fun id => existsb (fun tab => option_Z_eqb (tab_id tab) (Some id)) eligibleTabs)
                    (omap JS.parseInt idMatches))
     end)
    (fun _ => resolve []).

(** Slices of at most [size] elements; [fuel] bounds the number of slices. *)
Fixpoint batches {X : Type} (fuel size : nat) (l : list X) : list (list X) :=
  match fuel, l with
  | _, [] => []
  | O, _ => []
  | S fuel', _ => firstn size l :: batches fuel' size (skipn size l)
  end.

Definition MAX_TABS_PER_BATCH : nat := 10.

(** The details of one tab: a failure of the content script leaves the
    content empty, a failure to get the tab drops the tab. *)
Definition tab_detail (tabId : Z) : Async (option TabDetail) :=
  try_catch
    (tab <- chrome.tabs_get tabId ;;
     content <- try_catch
                  (c <- of_result (getTabContent tabId) ;; resolve (JS.slice_to 1000 c))
                  (fun _ => resolve "") ;;
     resolve (Some (mkTabDetail
                      (match tab_id tab with Some i => i | None => 0 end)
                      (match tab_title tab with
                       | Some t => if JS.truthy t then t else "Untitled"
                       | None => "Untitled"
                       end)
                      (match tab_url tab with Some u => u | None => "" end)
                      content)))
    (fun _ => resolve None).

(** The body of the loop over the batches: a failure of the LLM call is
    logged and the loop goes on with the next batch. *)
Definition analyze_batch (results : list TabGroup) (batch : list TabDetail)
  : Async (list TabGroup) :=
  try_catch
    (analysis <- _callLLM (groupingPrompt batch) ;;
     let groups := _parseGroupAnalysis analysis batch in
     resolve (results ++ groups)%list)
    (fun _ => resolve results).

Definition suggestTabGroups (tabIds : list Z) : Async (list TabGroup) :=
  configured <- isConfigured ;;
  if negb configured then reject "LLM is not configured" else
  tabDetailsResults <- await_all tab_detail tabIds ;;
  let tabDetails := omap (fun d => d) tabDetailsResults in
  if (length tabDetails =? 0)%nat then reject "No valid tabs to analyze" else
  let tabBatches := batches (length tabDetails) MAX_TABS_PER_BATCH tabDetails in
  for_each analyze_batch tabBatches [].

(** A template literal prints an undefined title or URL as [undefined]. *)
Definition template (o : option string) : string :=
  match o with
  | Some s => s
  | None => "undefined"
  end.

Definition line_feed : string := String "010" "".
Definition double_quote : string := String (ascii_of_nat 34) "".

(** The prompt of [summarizeTab]. *)
Definition summaryPrompt (tab : Tab) (content : string) : string :=
  "Summarize the following webpage content in 3-5 concise bullet points:" ++
  line_feed ++ line_feed ++
  "URL: " ++ template (tab_url tab) ++ line_feed ++
  "Title: " ++ template (tab_title tab) ++ line_feed ++ line_feed ++
  "Content:" ++ line_feed ++
  JS.slice_to 10000 content ++ " " ++
  (if (10000 <? String.length content)%nat then "...(content truncated)" else "").

(** [summarizeTab]: every failure is thrown again with a prefixed
    message. *)
Definition summarizeTab (tabId : Z) : Async string :=
  try_catch
    (configured <- isConfigured ;;
     if negb configured then reject "LLM is not configured" else
     tab <- chrome.tabs_get tabId ;;
     content <- of_result (getTabContent tabId) ;;
     if negb (JS.truthy content) || (String.length content <? 50)%nat
     then resolve ("Unable to generate summary for " ++ double_quote ++
                   template (tab_title tab) ++ double_quote ++
                   ". Not enough content available.")
     else _callLLM (summaryPrompt tab content))
    (fun message => reject ("Failed to summarize tab: " ++ message)).

End WithServices.

End LLMService.

(** ** group-manager.ts *)

Module GroupManager.

(** The palette of [getRandomColor]. *)
Definition colors : list Color :=
  [red; blue; yellow; green; pink; purple; cyan; orange; grey].

(** The special pages that every grouping operation leaves alone. *)
Definition special_page (url : option string) : bool :=
  match url with
  | Some u =>
      negb (JS.truthy u) || JS.startsWith u "chrome://" ||
      JS.startsWith u "edge://" || String.eqb u "about:blank"
  | None => true
  end.

(** Remove a leading ["www."]. *)
Definition strip_www (domain : string) : string :=
  match JS.strip_prefix "www." domain with
  | Some rest => rest
  | None => domain
  end.

(** The property names that a plain object inherits; [domainGroups[key]] is
    truthy for them although nothing was stored, and has no [push]. *)
Definition inherited_property (key : string) : bool :=
  existsb (String.eqb key)
    ["constructor"; "__proto__"; "hasOwnProperty"; "isPrototypeOf";
     "propertyIsEnumerable"; "toLocaleString"; "toString"; "valueOf";
     "__defineGetter__"; "__defineSetter__"; "__lookupGetter__"; "__lookupSetter__"].

(** [domainGroups[domain].push(id)], creating the array first when the
    domain is new; the own properties are kept in insertion order. *)
Fixpoint push_domain (domain : string) (id : option Z) (o : list (string * list Z))
  : list (string * list Z) :=
  match o with
  | [] => [(domain, match id with Some i => [i] | None => [] end)]
  | (d, ids) :: rest =>
      if String.eqb d domain
      then (d, match id with Some i => (ids ++ [i])%list | None => ids end) :: rest
      else (d, ids) :: push_domain domain id rest
  end.

(** A canonical array index: these keys come first, in numeric order, when
    the properties of an object are listed. *)
Definition is_array_index (key : string) : bool :=
  JS.truthy key && JS.all_chars JS.is_digit key &&
  (String.eqb key "0" || negb (JS.startsWith key "0")) &&
  Z.ltb (JS.digits_value key 0) 4294967295.

(** [Object.entries(o)] *)
Definition Object_entries (o : list (string * list Z)) : list (string * list Z) :=
  (JS.sort_compare (fun a b => JS.digits_value (fst a) 0 - JS.digits_value (fst b) 0)
                   (List.filter (fun e => is_array_index (fst e)) o)
   ++ List.filter (fun e => negb (is_array_index (fst e))) o)%list.

(** A non-negative number as the decimal string of a template literal. *)
Definition decimal (n : nat) : string := NilEmpty.string_of_uint (Nat.to_uint n).

Section WithServices.

Variable new_URL : string -> option URL.
(** The [n]-th value of [Math.floor(Math.random() * colors.length)]. *)
Variable random_index : nat -> nat.
(** [this.llmService] *)
Variable llmService_findSimilarTabs : Z -> Async (list Z).
Variable llmService_suggestTabGroups : list Z -> Async (list LLMService.TabGroup).
(** [new Date().toLocaleTimeString(...)] *)
Variable timestamp : string.

Definition getRandomColor : Async Color :=
  fun b => (Ok (nth (random_index (random_draws b) mod 9) colors grey),
            mkBrowser (tabs b) (groups b) (current_window b) (next_group_id b)
                      (S (random_draws b))).

Definition getGroupsInWindow (windowId : option Z) : Async (list TabGroup) :=
  chrome.tabGroups_query windowId.

(** [createGroup(tabIds, { title, color })] *)
Definition createGroup (tabIds : list Z) (title : option string) (color : option Color)
  : Async Z :=
  if (length tabIds =? 0)%nat then reject "No tabs specified for group creation" else
  groupId <- chrome.tabs_group tabIds None ;;
  let title := match title with
               | Some t => if JS.truthy t then Some t else None
               | None => None
               end in
  match title, color with
  | None, None => resolve groupId
  | _, _ =>
      _ <- chrome.tabGroups_update groupId (mkUpdateProperties title color) ;;
      resolve groupId
  end.

Definition addTabsToGroup (groupId : Z) (tabIds : list Z) : Async unit :=
  if (length tabIds =? 0)%nat then reject "No tabs specified to add to group" else
  _ <- chrome.tabs_group tabIds (Some groupId) ;;
  resolve tt.

(** Host name of a URL without a leading ["www."]; [None] when the URL
    constructor throws. *)
Definition domain_of (url : string) : option string :=
  match new_URL url with
  | Some u => Some (strip_www (hostname u))
  | None => None
  end.

(** The filter that selects the other ungrouped tabs of the same domain. *)
Definition same_domain (tabId : Z) (domain : string) (t : Tab) : bool :=
  match tab_url t with
  | Some u =>
      if negb (JS.truthy u) || option_Z_eqb (tab_id t) (Some tabId) ||
         negb (Z.eqb (tab_groupId t) TAB_GROUP_ID_NONE)
      then false
      else match domain_of u with
           | Some tDomain => String.eqb tDomain domain
           | None => false
           end
  | None => false
  end.

Definition groupTabByDomain (tabId : Z) : Async (option Z) :=
  tab <- chrome.tabs_get tabId ;;
  (* Skip if the tab is already in a group or is a special page *)
  if negb (Z.eqb (tab_groupId tab) TAB_GROUP_ID_NONE) || special_page (tab_url tab)
  then resolve None else
  match domain_of (match tab_url tab with Some u => u | None => "" end) with
  | None => reject "Invalid URL"
  | Some domain =>
      (* Look for existing groups with the same domain *)
      let window := tab_windowId tab in
      groups <- getGroupsInWindow window ;;
      match List.find (fun group => match group_title group with
                                    | Some t => String.eqb t domain
                                    | None => false
                                    end) groups with
      | Some group =>
          (* Found a matching group, add the tab to it *)
          _ <- addTabsToGroup (group_id group) [tabId] ;;
          resolve (Some (group_id group))
      | None =>
          (* Check if there are other tabs with the same domain *)
          windowTabs <- chrome.tabs_query window ;;
          let sameDomainTabs := List.filter (same_domain tabId domain) windowTabs in
          if (0 <? length sameDomainTabs)%nat then
            let groupTabIds := tabId :: omap tab_id sameDomainTabs in
            color <- getRandomColor ;;
            groupId <- createGroup groupTabIds (Some domain) (Some color) ;;
            resolve (Some groupId)
          else resolve None
      end
  end.

(** The body of the loop that fills [domainGroups]. *)
Definition collect_domain (domainGroups : list (string * list Z)) (tab : Tab)
  : list (string * list Z) :=
  if negb (Z.eqb (tab_groupId tab) TAB_GROUP_ID_NONE) || special_page (tab_url tab)
  then domainGroups else
  match domain_of (match tab_url tab with Some u => u | None => "" end) with
  | Some domain =>
      if inherited_property domain then domainGroups   (* push fails: tab skipped *)
      else push_domain domain (tab_id tab) domainGroups
  | None => domainGroups                               (* invalid URL: tab skipped *)
  end.

(** The body of the loop that creates one group per domain with more than
    one tab; the state is the number of created groups. *)
Definition create_domain_group (created : nat) (entry : string * list Z) : Async nat :=
  if (1 <? length (snd entry))%nat then
    color <- getRandomColor ;;
    _ <- createGroup (snd entry) (Some (fst entry)) (Some color) ;;
    resolve (S created)
  else resolve created.

Definition groupTabsByDomain (tabIds : list Z) : Async string :=
  tabs <- await_all chrome.tabs_get tabIds ;;
  let domainGroups := fold_left collect_domain tabs [] in
  created <- for_each create_domain_group (Object_entries domainGroups) 0%nat ;;
  if (created =? 0)%nat
  then resolve "No groups were created. There were no domains with multiple tabs."
  else resolve ("Created " ++ decimal created ++ " groups based on domain.").

(** The body of the loop of [groupTabsByTopic]; the state is the created
    groups as (id, name, tab count). *)
Definition create_topic_group (created : list (Z * string * nat)) (group : LLMService.TabGroup)
  : Async (list (Z * string * nat)) :=
  if (1 <? length (LLMService.tabIds group))%nat then
    color <- match LLMService.color group with
             | Some c => resolve c
             | None => getRandomColor
             end ;;
    groupId <- createGroup (LLMService.tabIds group) (Some (LLMService.name group)) (Some color) ;;
    resolve (created ++ [(groupId, LLMService.name group, length (LLMService.tabIds group))])%list
  else resolve created.

Definition groupTabsByTopic (tabIds : list Z) : Async (list (Z * string * nat)) :=
  tabGroups <- llmService_suggestTabGroups tabIds ;;
  for_each create_topic_group tabGroups [].

Definition groupSimilarTabs (referenceTabId : Z) : Async (option Z) :=
  tab <- chrome.tabs_get referenceTabId ;;
  (* Skip if the tab is a special page *)
  if special_page (tab_url tab) then resolve None else
  (* Find similar tabs using the LLM service *)
  similarTabIds <- llmService_findSimilarTabs referenceTabId ;;
  (* Include the reference tab if it's not already in the group *)
  let similarTabIds :=
    if Z_mem referenceTabId similarTabIds then similarTabIds
    else referenceTabId :: similarTabIds in
  (* Create a group if there are multiple tabs *)
  if (1 <? length similarTabIds)%nat then
    match domain_of (match tab_url tab with Some u => u | None => "" end) with
    | None => reject "Invalid URL"
    | Some domain =>
        color <- getRandomColor ;;
        groupId <- createGroup similarTabIds (Some domain) (Some color) ;;
        resolve (Some groupId)
    end
  else resolve None.

(** [tab.id || 0] *)
Definition id_or_0 (t : Tab) : Z :=
  match tab_id t with
  | Some i => i
  | None => 0
  end.

(** The body of the loop that cuts the sorted tabs into time groups; the
    state is [timeGroups] and [currentGroup].  Numbers are exact rationals
    here. *)
Definition time_step (timeWindowInMinutes : Q) (st : list (list Tab) * list Tab) (tab : Tab)
  : list (list Tab) * list Tab :=
  let prevTab := List.last (snd st) tab in
  (* Use tab ID difference as a proxy for time difference *)
  let idDiff := id_or_0 tab - id_or_0 prevTab in
  let approxTimeDiff := (inject_Z idDiff * (1 # 10))%Q in
  if Qle_bool approxTimeDiff (timeWindowInMinutes * 60)%Q
  then (fst st, (snd st ++ [tab])%list)
  else ((if (1 <? length (snd st))%nat then (fst st ++ [snd st])%list else fst st), [tab]).

(** [timeGroups] for the eligible tabs, already sorted. *)
Definition time_groups (timeWindowInMinutes : Q) (eligibleTabs : list Tab) : list (list Tab) :=
  match eligibleTabs with
  | [] => []
  | first :: others =>
      let st := fold_left (time_step timeWindowInMinutes) others ([], [first]) in
      (* Add the last group if it has more than one tab *)
      if (1 <? length (snd st))%nat then (fst st ++ [snd st])%list else fst st
  end.

(** The body of the loop that creates the groups; the state is the loop
    index and [createdGroupIds]. *)
Definition create_time_group (st : nat * list Z) (groupTabs : list Tab) : Async (nat * list Z) :=
  let tabIds := omap tab_id groupTabs in
  if (length tabIds <=? 1)%nat then resolve (S (fst st), snd st) else
  color <- getRandomColor ;;
  groupId <- createGroup tabIds
               (Some ("Group " ++ decimal (fst st + 1) ++ " (" ++ timestamp ++ ")"))
               (Some color) ;;
  resolve (S (fst st), (snd st ++ [groupId])%list).

Definition groupByCreationTime (timeWindowInMinutes : Q) (windowId : option Z)
  : Async (list Z) :=
  tabs <- (fun b => chrome.tabs_query
                      (Some (match windowId with
                             | Some w => if Z.eqb w 0 then current_window b else w
                             | None => current_window b
                             end)) b) ;;
  (* Skip tabs that are already in a group *)
  let eligibleTabs := List.filter (fun tab => Z.eqb (tab_groupId tab) TAB_GROUP_ID_NONE) tabs in
  if (length eligibleTabs <=? 1)%nat then resolve [] else
  (* Sort tabs by creation time *)
  let eligibleTabs := JS.sort_compare (fun a b => id_or_0 a - id_or_0 b) eligibleTabs in
  let timeGroups := time_groups timeWindowInMinutes eligibleTabs in
  st <- for_each create_time_group timeGroups (0%nat, []) ;;
  resolve (snd st).

End WithServices.

(** *** Operations on whole groups *)

Definition getTabsInGroup (groupId : Z) : Async (list Tab) :=
  chrome.tabs_query_group groupId.

(** [closeGroup]: close every tab of the group. *)
Definition closeGroup (groupId : Z) : Async unit :=
  tabs <- getTabsInGroup groupId ;;
  let tabIds := omap tab_id tabs in
  if (0 <? length tabIds)%nat then chrome.tabs_remove tabIds else resolve tt.

(** The query of [collapseAllGroups] and [expandAllGroups]: the groups of
    the given window, of the current window for [null]. *)
Definition groups_of_window (windowId : option Z) : Async (list TabGroup) :=
  fun b => chrome.tabGroups_query
             (Some (match windowId with
                    | Some w => w
                    | None => current_window b
                    end)) b.

(** The body of the loop of [collapseAllGroups] ([collapsed = true]) and of
    [expandAllGroups] ([collapsed = false]); the state is
    [updatedGroupIds]. *)
Definition set_collapsed (collapsed : bool) (updatedGroupIds : list Z) (group : TabGroup)
  : Async (list Z) :=
  if Bool.eqb (group_collapsed group) collapsed then resolve updatedGroupIds else
  _ <- chrome.tabGroups_update_collapsed (group_id group) collapsed ;;
  resolve (updatedGroupIds ++ [group_id group])%list.

Definition collapseAllGroups (windowId : option Z) : Async (list Z) :=
  groups <- groups_of_window windowId ;;
  for_each (set_collapsed true) groups [].

Definition expandAllGroups (windowId : option Z) : Async (list Z) :=
  groups <- groups_of_window windowId ;;
  for_each (set_collapsed false) groups [].

End GroupManager.
(** ** duplicate-detector.ts: the operations on the browser *)

(** [MergeResult] *)
Record MergeResult : Type := mkMergeResult {
  originalTab : Tab;
  closedCount : nat
}.

Module DuplicateDetectorAsync.

Section WithURLParser.
Variable new_URL : string -> option URL.

Definition findDuplicatesAcrossWindows : Async (list DuplicateGroup) :=
  allTabs <- chrome.tabs_query None ;;
  resolve (DuplicateDetector.identifyDuplicateGroups new_URL allTabs).

Definition findDuplicatesInWindow (windowId : Z) : Async (list DuplicateGroup) :=
  tabs <- chrome.tabs_query (Some windowId) ;;
  resolve (DuplicateDetector.identifyDuplicateGroups new_URL tabs).

Definition findDuplicatesForTab (tabId : Z) : Async (list Tab) :=
  tab <- chrome.tabs_get tabId ;;
  allTabs <- chrome.tabs_query None ;;
  (* Filter out the target tab itself *)
  let otherTabs := List.filter (fun t => negb (option_Z_eqb (tab_id t) (Some tabId))) allTabs in
  (* Find duplicates of the target tab *)
  resolve (List.filter (fun t => DuplicateDetector.areTabsDuplicate new_URL tab t) otherTabs).

(** The body of the loop of [closeDuplicates]; the state is
    [closedTabIds]. *)
Definition close_group (closedTabIds : list Z) (group : DuplicateGroup) : Async (list Z) :=
  let duplicateIds := omap tab_id (duplicates group) in
  if (length duplicateIds =? 0)%nat then resolve closedTabIds else
  _ <- chrome.tabs_remove duplicateIds ;;
  resolve (closedTabIds ++ duplicateIds)%list.

Definition closeDuplicates (duplicateGroups : list DuplicateGroup) : Async (list Z) :=
  for_each close_group duplicateGroups [].

(** The body of the loop of [groupDuplicates]; the state is
    [createdGroupIds]. *)
Definition group_group (createdGroupIds : list Z) (group : DuplicateGroup) : Async (list Z) :=
  (* Skip if there are no duplicates *)
  match tab_id (original group) with
  | Some originalId =>
      if (length (duplicates group) =? 0)%nat || Z.eqb originalId 0
      then resolve createdGroupIds else
      let tabIds := originalId :: omap tab_id (duplicates group) in
      if (length tabIds <=? 1)%nat then resolve createdGroupIds else
      match new_URL (match tab_url (original group) with Some u => u | None => "" end) with
      | None => reject "Invalid URL"
      | Some url =>
          let domain := GroupManager.strip_www (hostname url) in
          groupId <- chrome.tabs_group tabIds None ;;
          _ <- chrome.tabGroups_update groupId (mkUpdateProperties (Some domain) (Some red)) ;;
          resolve (createdGroupIds ++ [groupId])%list
      end
  | None => resolve createdGroupIds
  end.

Definition groupDuplicates (duplicateGroups : list DuplicateGroup) : Async (list Z) :=
  for_each group_group duplicateGroups [].

(** The body of the loop of [mergeDuplicates]; the state is [results]. *)
Definition merge_group (results : list MergeResult) (group : DuplicateGroup)
  : Async (list MergeResult) :=
  if (length (duplicates group) =? 0)%nat then resolve results else
  let duplicateIds := omap tab_id (duplicates group) in
  if (length duplicateIds =? 0)%nat then resolve results else
  _ <- chrome.tabs_remove duplicateIds ;;
  resolve (results ++ [mkMergeResult (original group) (length duplicateIds)])%list.

Definition mergeDuplicates (duplicateGroups : list DuplicateGroup) : Async (list MergeResult) :=
  for_each merge_group duplicateGroups [].

End WithURLParser.

End DuplicateDetectorAsync.
(** ** storage-manager.ts *)

(** The values that the sources keep in settings and sessions. *)
Inductive Value : Type :=
| VUndefined
| VBool (b : bool)
| VString (s : string)
| VObject (fields : list (string * Value)).

(** An object with string keys; [{ ...a, ...b }] is [b ∪ a]. *)
Notation JSObject := (gmap string Value).

Definition value_truthy (v : option Value) : bool :=
  match v with
  | Some (VBool b) => b
  | Some (VString s) => JS.truthy s
  | Some (VObject _) => true
  | Some VUndefined => false
  | None => false
  end.

Record TabSession : Type := mkTabSession {
  session_id : string;
  session_name : string;
  session_created : string;
  session_data : Value
}.

Record ActionLog : Type := mkActionLog {
  log_action : string;
  log_timestamp : string;
  log_details : Value
}.

(** The part of [chrome.storage] that the sources use: the [settings] item
    of the sync area, the [sessions] and [actionLogs] items of the local
    area, and whether the storage calls reject. *)
Record Storage : Type := mkStorage {
  sync_settings : option JSObject;
  local_sessions : option (list TabSession);
  local_actionLogs : option (list ActionLog);
  storage_fails : bool
}.

(** An asynchronous operation on the storage. *)
Definition Stored (A : Type) : Type := Storage -> Result A * Storage.

Definition stored_resolve {A} (a : A) : Stored A := fun s => (Ok a, s).
Definition stored_await {A B} (m : Stored A) (k : A -> Stored B) : Stored B :=
  fun s => match m s with
           | (Ok a, s') => k a s'
           | (Err e, s') => (Err e, s')
           end.
Definition stored_try {A} (m : Stored A) (handler : string -> Stored A) : Stored A :=
  fun s => match m s with
           | (Ok a, s') => (Ok a, s')
           | (Err e, s') => handler e s'
           end.

Notation "x <~ m ;; k" := (stored_await m (fun x => k))
  (at level 100, m at next level, right associativity).

Module chrome_storage.

Definition call {A} (read : Storage -> A) (write : Storage -> Storage) : Stored A :=
  fun s => if storage_fails s then (Err "storage error", s) else (Ok (read s), write s).

(** [chrome.storage.sync.get('settings')] and [set({ settings })] *)
Definition sync_get_settings : Stored (option JSObject) := call sync_settings (fun s => s).
Definition sync_set_settings (v : JSObject) : Stored unit :=
  call (fun _ => tt)
       (fun s => mkStorage (Some v) (local_sessions s) (local_actionLogs s) (storage_fails s)).

(** [chrome.storage.local.get('sessions')] and [set({ sessions })] *)
Definition local_get_sessions : Stored (option (list TabSession)) :=
  call local_sessions (fun s => s).
Definition local_set_sessions (v : list TabSession) : Stored unit :=
  call (fun _ => tt)
       (fun s => mkStorage (sync_settings s) (Some v) (local_actionLogs s) (storage_fails s)).

(** [chrome.storage.local.get('actionLogs')] and [set({ actionLogs })] *)
Definition local_get_actionLogs : Stored (option (list ActionLog)) :=
  call local_actionLogs (fun s => s).
Definition local_set_actionLogs (v : list ActionLog) : Stored unit :=
  call (fun _ => tt)
       (fun s => mkStorage (sync_settings s) (local_sessions s) (Some v) (storage_fails s)).

End chrome_storage.

Module StorageManager.

(** [this.defaultSettings] *)
Definition defaultSettings : JSObject :=
  list_to_map
    [("autoDeduplication", VBool true);
     ("autoGrouping", VBool false);
     ("llmProvider", VString "azure");
     ("llmApiKey", VString "");
     ("llmEndpoint", VString "");
     ("customLLMHeaders", VObject []);
     ("theme", VString "system");
     ("groupColors",
      VObject [("news", VString "#FF5733");
               ("shopping", VString "#33FF57");
               ("social", VString "#3357FF");
               ("work", VString "#F3FF33");
               ("entertainment", VString "#FF33F3");
               ("research", VString "#33FFF3");
               ("other", VString "#BBBBBB")])].

(** [getSettings]: the stored settings over the defaults; the defaults when
    nothing is stored or the storage fails. *)
Definition getSettings : Stored JSObject :=
  stored_try
    (settings <~ chrome_storage.sync_get_settings ;;
     match settings with
     | None => stored_resolve defaultSettings
     | Some stored => stored_resolve (stored ∪ defaultSettings)
     end)
    (fun _ => stored_resolve defaultSettings).

(** [saveSettings]: the given settings over the existing ones. *)
Definition saveSettings (settings : JSObject) : Stored unit :=
  existingSettings <~ getSettings ;;
  let updatedSettings := settings ∪ existingSettings in
  chrome_storage.sync_set_settings updatedSettings.

Section WithClock.
(** [Date.now().toString()], [new Date().toLocaleString()] and
    [new Date().toISOString()] at the time of the call. *)
Variable now_millis now_locale now_iso : string.

Definition saveTabSession (name : string) (sessionData : Value) : Stored string :=
  let sessionId := now_millis in
  let session := mkTabSession sessionId
                   (if JS.truthy name then name else "Session " ++ now_locale)
                   now_iso sessionData in
  stored <~ chrome_storage.local_get_sessions ;;
  let sessions := match stored with Some l => l | None => [] end in
  _ <~ chrome_storage.local_set_sessions (sessions ++ [session])%list ;;
  stored_resolve sessionId.

(** [logTabAction]: nothing is logged for a user who opted out; the log
    keeps its last 1000 entries; a failure is not thrown on. *)
Definition logTabAction (action : string) (details : Value) : Stored unit :=
  stored_try
    (settings <~ getSettings ;;
     if value_truthy (settings !! "analyticsOptOut") then stored_resolve tt else
     let logEntry := mkActionLog action now_iso details in
     stored <~ chrome_storage.local_get_actionLogs ;;
     let actionLogs := (match stored with Some l => l | None => [] end ++ [logEntry])%list in
     let actionLogs :=
       if (1000 <? length actionLogs)%nat
       then skipn (length actionLogs - 1000) actionLogs
       else actionLogs in
     chrome_storage.local_set_actionLogs actionLogs)
    (fun _ => stored_resolve tt).

End WithClock.

Definition getSavedTabSessions : Stored (list TabSession) :=
  stored_try
    (stored <~ chrome_storage.local_get_sessions ;;
     stored_resolve (match stored with Some l => l | None => [] end))
    (fun _ => stored_resolve []).

Definition deleteTabSession (sessionId : string) : Stored bool :=
  stored_try
    (stored <~ chrome_storage.local_get_sessions ;;
     let sessions := match stored with Some l => l | None => [] end in
     let updatedSessions :=
       List.filter (fun session => negb (String.eqb (session_id session) sessionId)) sessions in
     _ <~ chrome_storage.local_set_sessions updatedSessions ;;
     stored_resolve true)
    (fun _ => stored_resolve false).

End StorageManager.

(** ** background.ts *)

Module Background.

(** The message of [showSummaryNotification]. *)
Definition summaryMessage (summary : string) : string :=
  if (200 <? String.length summary)%nat
  then String.substring 0 197 summary ++ "..."
  else summary.

End Background.

(** * Properties *)

(** ** The duplicate comparator *)

Section ComparatorFacts.
Variable new_URL : string -> option URL.

Abbreviation areTabsDuplicate := (DuplicateDetector.areTabsDuplicate new_URL).
Abbreviation areTabsDuplicate_logged := (DuplicateDetector.areTabsDuplicate_logged new_URL).

Lemma areTabsDuplicate_sym (tab1 tab2 : Tab) :
  areTabsDuplicate tab1 tab2 = areTabsDuplicate tab2 tab1.
Proof.
  unfold DuplicateDetector.areTabsDuplicate, DuplicateDetector.areTabsDuplicate_logged.
  destruct (tab_url tab1) as [u1|], (tab_url tab2) as [u2|]; try reflexivity.
  destruct (JS.truthy u1), (JS.truthy u2); try reflexivity.
  cbn [negb orb].
  destruct (JS.startsWith u1 "chrome://"), (JS.startsWith u1 "edge://"),
           (JS.startsWith u2 "chrome://"), (JS.startsWith u2 "edge://"); try reflexivity.
  cbn [orb].
  destruct (String.eqb u1 "about:blank"), (String.eqb u2 "about:blank"),
           (String.eqb u1 "chrome://newtab/"), (String.eqb u2 "chrome://newtab/"),
           (String.eqb u1 "edge://newtab/"), (String.eqb u2 "edge://newtab/"); try reflexivity.
  cbn. apply String.eqb_sym.
Qed.

(** A duplicate verdict requires two present URLs. *)
Lemma areTabsDuplicate_true_urls (tab1 tab2 : Tab) :
  areTabsDuplicate tab1 tab2 = true ->
  exists u1 u2, tab_url tab1 = Some u1 /\ tab_url tab2 = Some u2 /\
                DuplicateDetector.normalizeUrl new_URL u1 = DuplicateDetector.normalizeUrl new_URL u2.
Proof.
  unfold DuplicateDetector.areTabsDuplicate, DuplicateDetector.areTabsDuplicate_logged.
  destruct (tab_url tab1) as [u1|], (tab_url tab2) as [u2|]; try discriminate.
  intros H. exists u1, u2. split; [reflexivity|]. split; [reflexivity|].
  repeat match type of H with
         | context [if ?b then _ else _] => destruct b; try discriminate
         end.
  cbn in H. now apply String.eqb_eq.
Qed.
End ComparatorFacts.

(** The URLs that the comparator refuses to compare: browser-internal schemes
    and blank or new-tab pages. *)
Definition internal_or_blank (u : string) : bool :=
  JS.startsWith u "chrome://" || JS.startsWith u "edge://" ||
  String.eqb u "about:blank" || String.eqb u "chrome://newtab/" || String.eqb u "edge://newtab/".

(** C4: when the URL of at least one of the two tabs is a browser-internal
    URL ([chrome://], [edge://]) or a blank / new-tab page, [areTabsDuplicate]
    answers [false], also when both URLs are identical, and it does so without
    a single call of [normalizeUrl] (the call log is empty). *)
Theorem areTabsDuplicate_internal_short_circuit
    (new_URL : string -> option URL) (tab1 tab2 : Tab) (u : string) :
  tab_url tab1 = Some u \/ tab_url tab2 = Some u ->
  internal_or_blank u = true ->
  DuplicateDetector.areTabsDuplicate new_URL tab1 tab2 = false /\
  Logged.calls (DuplicateDetector.areTabsDuplicate_logged new_URL tab1 tab2) = [].
Proof.
  intros Hu Hint.
  unfold DuplicateDetector.areTabsDuplicate, DuplicateDetector.areTabsDuplicate_logged.
  unfold internal_or_blank in Hint.
  destruct (tab_url tab1) as [u1|] eqn:E1, (tab_url tab2) as [u2|] eqn:E2;
    try (split; reflexivity).
  destruct (negb (JS.truthy u1) || negb (JS.truthy u2)); [split; reflexivity|].
  destruct Hu as [Hu|Hu]; inversion Hu; subst u.
  - destruct (JS.startsWith u1 "chrome://") eqn:A1; [split; reflexivity|].
    destruct (JS.startsWith u1 "edge://") eqn:A2; [split; reflexivity|].
    cbn [orb] in *.
    destruct (JS.startsWith u2 "chrome://" || JS.startsWith u2 "edge://"); [split; reflexivity|].
    destruct (String.eqb u1 "about:blank") eqn:A3; [split; reflexivity|].
    destruct (String.eqb u2 "about:blank"); [split; reflexivity|].
    destruct (String.eqb u1 "chrome://newtab/") eqn:A4; [split; reflexivity|].
    destruct (String.eqb u2 "chrome://newtab/"); [split; reflexivity|].
    destruct (String.eqb u1 "edge://newtab/") eqn:A5; [split; reflexivity|].
    discriminate.
  - destruct (JS.startsWith u1 "chrome://" || JS.startsWith u1 "edge://"); [split; reflexivity|].
    cbn [orb] in *.
    destruct (JS.startsWith u2 "chrome://") eqn:A1; [split; reflexivity|].
    destruct (JS.startsWith u2 "edge://") eqn:A2; [split; reflexivity|].
    cbn [orb] in *.
    destruct (String.eqb u1 "about:blank"); [split; reflexivity|].
    destruct (String.eqb u2 "about:blank") eqn:A3; [split; reflexivity|].
    destruct (String.eqb u1 "chrome://newtab/"); [split; reflexivity|].
    destruct (String.eqb u2 "chrome://newtab/") eqn:A4; [split; reflexivity|].
    destruct (String.eqb u1 "edge://newtab/"); [split; reflexivity|].
    destruct (String.eqb u2 "edge://newtab/") eqn:A5; [split; reflexivity|].
    discriminate.
Qed.

(** Two tabs that show the same internal page. *)
Definition extensions_tab (id : Z) : Tab :=
  mkTab (Some id) 0 (Some 1) (Some "chrome://extensions/") (Some "Extensions") TAB_GROUP_ID_NONE.

Lemma areTabsDuplicate_internal_short_circuit_witness :
  internal_or_blank "chrome://extensions/" = true /\
  DuplicateDetector.areTabsDuplicate URLModel.parse (extensions_tab 1) (extensions_tab 2) = false /\
  Logged.calls (DuplicateDetector.areTabsDuplicate_logged URLModel.parse
                  (extensions_tab 1) (extensions_tab 2)) = [].
Proof.
  split; [reflexivity|].
  apply (areTabsDuplicate_internal_short_circuit URLModel.parse
           (extensions_tab 1) (extensions_tab 2) "chrome://extensions/").
  - left. reflexivity.
  - reflexivity.
Defined.

(** C10: the duplicate comparator is symmetric in its two tabs. *)
Theorem areTabsDuplicate_symmetric
    (new_URL : string -> option URL) (tab1 tab2 : Tab) :
  DuplicateDetector.areTabsDuplicate new_URL tab1 tab2 =
  DuplicateDetector.areTabsDuplicate new_URL tab2 tab1.
Proof. apply areTabsDuplicate_sym. Qed.

(** ** Sorting *)

Section SortFacts.
Context {A K : Type} (key : A -> K) (le : K -> K -> bool) (before : A -> A -> bool).

(** The comparison is made on keys that are totally ordered by [le], and an
    element has to come before another when its key is not above. *)
Hypothesis before_key : forall y x, before y x = negb (le (key x) (key y)).
Hypothesis le_trans : forall a b c, le a b = true -> le b c = true -> le a c = true.
Hypothesis le_antisym : forall a b, le a b = true -> le b a = true -> a = b.
Hypothesis le_total : forall a b, le a b = true \/ le b a = true.

Definition key_le (x y : A) : Prop := le (key x) (key y) = true.

Lemma sort_insert_perm (x : A) (l : list A) : JS.sort_insert before x l ≡ₚ x :: l.
Proof.
  induction l as [|y ys IH]; cbn; [reflexivity|].
  destruct (before y x); [|reflexivity].
  rewrite IH. apply perm_swap.
Qed.

Lemma sort_with_perm (l : list A) : JS.sort_with before l ≡ₚ l.
Proof.
  induction l as [|x l IH]; cbn; [reflexivity|].
  rewrite sort_insert_perm. now rewrite IH.
Qed.

Lemma sort_insert_sorted (x : A) (l : list A) :
  StronglySorted key_le l -> StronglySorted key_le (JS.sort_insert before x l).
Proof.
  induction l as [|y ys IH]; intros Hs; cbn.
  - repeat constructor.
  - apply StronglySorted_cons in Hs as [Hy Hys].
    rewrite before_key. destruct (le (key x) (key y)) eqn:E; cbn.
    + constructor; [now constructor|]. constructor; [exact E|].
      eapply Forall_impl; [exact Hy|]. intros z Hz. unfold key_le in *. eauto.
    + constructor; [now apply IH|].
      rewrite sort_insert_perm. constructor; [|exact Hy].
      unfold key_le. destruct (le_total (key x) (key y)); congruence.
Qed.

Lemma sort_with_sorted (l : list A) : StronglySorted key_le (JS.sort_with before l).
Proof.
  induction l as [|x l IH]; cbn; [constructor | now apply sort_insert_sorted].
Qed.

(** Sorting is canonical on lists whose elements have distinct keys: every
    rearrangement is sorted into the same list. *)
Lemma sort_with_unique (l l' : list A) :
  (forall x y, x ∈ l -> y ∈ l -> key x = key y -> x = y) ->
  l ≡ₚ l' -> JS.sort_with before l = JS.sort_with before l'.
Proof.
  intros Hinj Hperm.
  apply (StronglySorted_unique_strong key_le); try apply sort_with_sorted.
  - intros x y Hx Hy Hxy Hyx. apply Hinj.
    + now rewrite sort_with_perm in Hx.
    + now rewrite sort_with_perm, <- Hperm in Hy.
    + now apply le_antisym.
  - now rewrite !sort_with_perm.
Qed.

End SortFacts.

(** The comparator [(a, b) => key(a) - key(b)] on integers. *)
Lemma sort_compare_unique {A : Type} (key : A -> Z) (l l' : list A) :
  (forall x y, x ∈ l -> y ∈ l -> key x = key y -> x = y) ->
  l ≡ₚ l' ->
  JS.sort_compare (fun a b => key a - key b) l = JS.sort_compare (fun a b => key a - key b) l'.
Proof.
  intros Hinj Hperm. unfold JS.sort_compare.
  apply (sort_with_unique key Z.leb); try assumption.
  - intros y x. cbn. destruct (Z.ltb_spec (key y - key x) 0), (Z.leb_spec (key x) (key y));
      cbn; try reflexivity; lia.
  - intros a b c. rewrite !Z.leb_le. lia.
  - intros a b. rewrite !Z.leb_le. lia.
  - intros a b. rewrite !Z.leb_le. lia.
Qed.

(** The default comparison, on the strings that the elements convert to. *)
Lemma sort_default_unique {A : Type} (toString : A -> string) (l l' : list A) :
  (forall x y, x ∈ l -> y ∈ l -> toString x = toString y -> x = y) ->
  l ≡ₚ l' -> JS.sort toString l = JS.sort toString l'.
Proof.
  intros Hinj Hperm. unfold JS.sort.
  apply (sort_with_unique toString String.leb); try assumption.
  - intros y x. cbn. unfold String.ltb, String.leb.
    rewrite (String.compare_antisym (toString y) (toString x)).
    now destruct (String.compare (toString x) (toString y)).
  - intros a b c Hab Hbc.
    pose proof (@transitivity _ String.le _ a b c) as T.
    unfold String.le in T. apply Is_true_true. apply T; now apply Is_true_true.
  - apply String.leb_antisym.
  - apply String.leb_total.
Qed.

(** ** The duplicate partitioner *)

(** Every tab of a group: its original followed by its duplicates. *)
Definition members (g : DuplicateGroup) : list Tab := original g :: duplicates g.

Lemma fold_left_invariant {S X : Type} (P : S -> Prop) (f : S -> X -> S) (l : list X) :
  (forall s x, x ∈ l -> P s -> P (f s x)) -> forall s, P s -> P (fold_left f l s).
Proof.
  induction l as [|x l IH]; intros Hstep s Hs; [exact Hs|].
  cbn. apply IH.
  - intros s' y Hy. apply Hstep. now right.
  - apply Hstep; [now left | exact Hs].
Qed.

Section PartitionerFacts.
Variable new_URL : string -> option URL.

Abbreviation areTabsDuplicate := (DuplicateDetector.areTabsDuplicate new_URL).
Abbreviation scan_step := (DuplicateDetector.scan_step new_URL).
Abbreviation group_step := (DuplicateDetector.group_step new_URL).
Abbreviation identifyDuplicateGroups := (DuplicateDetector.identifyDuplicateGroups new_URL).

(** What the inner loop maintains, for the current tab [tab] with
    identifier [cur], started with the assigned set [A0] over the tab list
    [tabs]. *)
Definition scan_inv (tabs : list Tab) (tab : Tab) (cur : Z) (A0 : gset Z)
    (st : list Tab * gset Z) : Prop :=
  NoDup (map tab_id st.1) /\
  A0 ⊆ st.2 /\
  (forall x, x ∈ st.2 -> x ∈ A0 \/ Some x ∈ map tab_id st.1) /\
  forall t, t ∈ st.1 ->
    t ∈ tabs /\ areTabsDuplicate tab t = true /\
    exists i, tab_id t = Some i /\ i <> 0 /\ i <> cur /\ i ∈ st.2 /\ i ∉ A0.

Lemma scan_step_inv tabs tab cur A0 st otherTab :
  otherTab ∈ tabs -> scan_inv tabs tab cur A0 st ->
  scan_inv tabs tab cur A0 (scan_step tab cur st otherTab).
Proof.
  intros Hin Hinv. unfold DuplicateDetector.scan_step.
  destruct (tab_id otherTab) as [oid|] eqn:Eid; [|exact Hinv].
  destruct (Z.eqb_spec oid 0) as [|Hz]; [exact Hinv|].
  destruct (Z.eqb_spec oid cur) as [|Hc]; [exact Hinv|].
  cbn [orb]. case_bool_decide as Hmem; [exact Hinv|].
  destruct (areTabsDuplicate tab otherTab) eqn:Edup; [|exact Hinv].
  destruct Hinv as (Hnd & Hsub & Hcov & Hall).
  unfold scan_inv. cbn [fst snd]. split; [|split; [|split]].
  - rewrite map_app. apply NoDup_app. split; [exact Hnd|]. split.
    + intros o Ho Ho'. cbn in Ho'. apply list_elem_of_singleton in Ho'. subst o.
      rewrite Eid in Ho.
      apply list_elem_of_fmap in Ho as (t & Ht & Htin).
      destruct (Hall t Htin) as (_ & _ & i & Hi & _ & _ & Hi2 & _).
      rewrite Hi in Ht. inversion Ht; subst i. contradiction.
    + cbn. apply NoDup_singleton.
  - set_solver.
  - intros x Hx. apply elem_of_union in Hx as [Hx|Hx].
    + apply elem_of_singleton in Hx. subst x. right.
      rewrite map_app. apply elem_of_app. right. cbn. rewrite Eid. now left.
    + destruct (Hcov x Hx) as [|Hx']; [now left|]. right.
      rewrite map_app. apply elem_of_app. now left.
  - intros t Ht. apply elem_of_app in Ht as [Ht|Ht].
    + destruct (Hall t Ht) as (Ha & Hb & i & Hi & Hi0 & Hic & Hi2 & Hi3).
      split; [exact Ha|]. split; [exact Hb|].
      exists i. repeat split; try assumption. set_solver.
    + apply list_elem_of_singleton in Ht. subst t.
      split; [exact Hin|]. split; [exact Edup|].
      exists oid. repeat split; try assumption; [set_solver|].
      intros HA. apply Hmem. now apply Hsub.
Qed.

Lemma scan_inv_result tabs tab cur A0 :
  scan_inv tabs tab cur A0 (fold_left (scan_step tab cur) tabs ([], A0)).
Proof.
  apply fold_left_invariant with (P := scan_inv tabs tab cur A0).
  - intros s x Hx. now apply scan_step_inv.
  - unfold scan_inv. cbn. split; [constructor|]. split; [set_solver|].
    split; [intros x Hx; now left|]. intros t Ht. inversion Ht.
Qed.

(** What the outer loop maintains. *)
Definition group_inv (tabs : list Tab) (st : list DuplicateGroup * gset Z) : Prop :=
  NoDup (map tab_id (flat_map members st.1)) /\
  (forall t, t ∈ flat_map members st.1 ->
     exists i, tab_id t = Some i /\ i <> 0 /\ i ∈ st.2) /\
  (forall x, x ∈ st.2 -> Some x ∈ map tab_id (flat_map members st.1)) /\
  forall g, g ∈ st.1 ->
    original g ∈ tabs /\ duplicates g <> [] /\
    forall d, d ∈ duplicates g ->
      d ∈ tabs /\ areTabsDuplicate (original g) d = true /\ tab_id d <> tab_id (original g).

Lemma group_step_inv tabs st tab :
  tab ∈ tabs -> group_inv tabs st -> group_inv tabs (group_step tabs st tab).
Proof.
  intros Hin Hinv. unfold DuplicateDetector.group_step.
  destruct (tab_id tab) as [cur|] eqn:Eid; [|exact Hinv].
  destruct (Z.eqb_spec cur 0) as [|Hz]; [exact Hinv|].
  cbn [orb]. case_bool_decide as Hmem; [exact Hinv|].
  destruct Hinv as (Hnd & Hids & Hcov & Hgrp).
  pose proof (scan_inv_result tabs tab cur st.2) as (Hnd' & Hsub & Hcov' & Hall).
  set (found := fold_left (scan_step tab cur) tabs ([], st.2)) in *.
  destruct (Nat.ltb_spec 0 (length found.1)) as [Hlen|Hlen].
  - unfold group_inv. cbn [fst snd]. split; [|split; [|split]].
    + rewrite flat_map_app, map_app. apply NoDup_app. split; [exact Hnd|]. split.
      * intros o Ho Ho'. cbn in Ho'. rewrite app_nil_r in Ho'.
        apply list_elem_of_fmap in Ho as (t & Ht & Htin).
        destruct (Hids t Htin) as (i & Hi & _ & HiA). rewrite Hi in Ht. subst o.
        apply elem_of_cons in Ho' as [Ho'|Ho'].
        -- rewrite Eid in Ho'. inversion Ho'; subst i. contradiction.
        -- apply list_elem_of_fmap in Ho' as (d & Hd & Hdin).
           destruct (Hall d Hdin) as (_ & _ & j & Hj & _ & _ & _ & HjA).
           rewrite Hj in Hd. inversion Hd; subst j. contradiction.
      * cbn. rewrite app_nil_r. apply NoDup_cons. split; [|exact Hnd'].
        intros Ho. rewrite Eid in Ho.
        apply list_elem_of_fmap in Ho as (d & Hd & Hdin).
        destruct (Hall d Hdin) as (_ & _ & j & Hj & _ & Hjc & _).
        rewrite Hj in Hd. inversion Hd. congruence.
    + intros t Ht. rewrite flat_map_app in Ht. apply elem_of_app in Ht as [Ht|Ht].
      * destruct (Hids t Ht) as (i & Hi & Hi0 & HiA). exists i. set_solver.
      * cbn in Ht. rewrite app_nil_r in Ht. apply elem_of_cons in Ht as [Ht|Ht].
        -- subst t. exists cur. set_solver.
        -- destruct (Hall t Ht) as (_ & _ & j & Hj & Hj0 & _ & HjA & _).
           exists j. set_solver.
    + intros x Hx. rewrite flat_map_app, map_app. apply elem_of_app.
      apply elem_of_union in Hx as [Hx|Hx].
      * apply elem_of_singleton in Hx. subst x. right. cbn. rewrite Eid. now left.
      * destruct (Hcov' x Hx) as [Hx'|Hx'].
        -- left. now apply Hcov.
        -- right. cbn. rewrite app_nil_r. now right.
    + intros g Hg. apply elem_of_app in Hg as [Hg|Hg]; [now apply Hgrp|].
      apply list_elem_of_singleton in Hg. subst g. cbn. split; [exact Hin|]. split.
      * intros E. rewrite E in Hlen. cbn in Hlen. lia.
      * intros d Hd. destruct (Hall d Hd) as (Ha & Hb & j & Hj & _ & Hjc & _).
        split; [exact Ha|]. split; [exact Hb|]. rewrite Hj, Eid. congruence.
  - assert (E : found.1 = []) by (destruct found.1; [reflexivity | cbn in Hlen; lia]).
    unfold group_inv. cbn [fst snd]. split; [exact Hnd|]. split; [|split].
    + intros t Ht. destruct (Hids t Ht) as (i & Hi & Hi0 & HiA). exists i. set_solver.
    + intros x Hx. destruct (Hcov' x Hx) as [Hx'|Hx']; [now apply Hcov|].
      rewrite E in Hx'. inversion Hx'.
    + exact Hgrp.
Qed.

Lemma group_inv_result tabs :
  group_inv tabs (fold_left (group_step tabs) tabs ([], ∅)).
Proof.
  apply fold_left_invariant with (P := group_inv tabs).
  - intros s x Hx. now apply group_step_inv.
  - unfold group_inv. cbn. split; [constructor|]. split; [intros t Ht; inversion Ht|].
    split; [set_solver|]. intros g Hg. inversion Hg.
Qed.

End PartitionerFacts.

(** C1: for every list of tabs, no tab identifier occurs twice among the
    duplicates of the groups returned by [identifyDuplicateGroups] (so the
    duplicate sets of two different groups are disjoint; the same even holds
    with the originals counted), and every tab placed in a group, as original
    or as duplicate, has an identifier: a tab without one is in no group. *)
Theorem identifyDuplicateGroups_disjoint_groups
    (new_URL : string -> option URL) (tabs : list Tab) :
  let groups := DuplicateDetector.identifyDuplicateGroups new_URL tabs in
  NoDup (map tab_id (flat_map duplicates groups)) /\
  NoDup (map tab_id (flat_map members groups)) /\
  Forall (fun t => has_id t = true) (flat_map members groups).
Proof.
  cbn zeta. unfold DuplicateDetector.identifyDuplicateGroups.
  destruct (group_inv_result new_URL tabs) as (Hnd & Hids & _ & _).
  set (st := fold_left _ tabs _) in *.
  assert (Hsub : sublist (map tab_id (flat_map duplicates st.1))
                         (map tab_id (flat_map members st.1))).
  { clear. induction st.1 as [|g gs IH]; cbn; [constructor|].
    rewrite !map_app. constructor. apply sublist_app; [reflexivity | exact IH]. }
  split; [eapply sublist_NoDup; eassumption|].
  split; [exact Hnd|].
  apply Forall_forall. intros t Ht.
  destruct (Hids t Ht) as (i & Hi & Hi0 & _).
  unfold has_id. rewrite Hi. now apply negb_true_iff, Z.eqb_neq.
Qed.

(** A tab takes part in comparisons when its URL is present, non-empty and
    neither browser-internal nor blank. *)
Definition comparable (t : Tab) : bool :=
  match tab_url t with
  | Some u => JS.truthy u && negb (internal_or_blank u)
  | None => false
  end.

Section FirstEncountered.
Variable new_URL : string -> option URL.

(** The canonical URL of a tab, when it has a URL. *)
Definition normalized (t : Tab) : option string :=
  option_map (DuplicateDetector.normalizeUrl new_URL) (tab_url t).

(** The comparator is: both tabs comparable, and equal canonical URLs. *)
Lemma areTabsDuplicate_spec (tab1 tab2 : Tab) :
  DuplicateDetector.areTabsDuplicate new_URL tab1 tab2 = true <->
  comparable tab1 = true /\ comparable tab2 = true /\ normalized tab1 = normalized tab2.
Proof.
  unfold DuplicateDetector.areTabsDuplicate, DuplicateDetector.areTabsDuplicate_logged,
    comparable, normalized, internal_or_blank.
  destruct (tab_url tab1) as [u1|], (tab_url tab2) as [u2|]; cbn;
    try (split; [discriminate | intros (? & ? & ?); discriminate]).
  destruct (JS.truthy u1), (JS.truthy u2); cbn;
    try (split; [discriminate | intros (? & ? & ?); discriminate]).
  destruct (JS.startsWith u1 "chrome://"), (JS.startsWith u1 "edge://"),
           (JS.startsWith u2 "chrome://"), (JS.startsWith u2 "edge://"); cbn;
    try (split; [discriminate | intros (? & ? & ?); discriminate]).
  destruct (String.eqb u1 "about:blank"), (String.eqb u2 "about:blank"),
           (String.eqb u1 "chrome://newtab/"), (String.eqb u2 "chrome://newtab/"),
           (String.eqb u1 "edge://newtab/"), (String.eqb u2 "edge://newtab/"); cbn;
    try (split; [discriminate | intros (? & ? & ?); discriminate]).
  rewrite String.eqb_eq. split.
  - intros ->. now repeat split.
  - intros (_ & _ & E). now inversion E.
Qed.

(** A tab that the comparator matches with no tab of another identifier. *)
Definition unmatched (tabs : list Tab) (x : Tab) : Prop :=
  forall y, y ∈ tabs -> tab_id y <> tab_id x -> DuplicateDetector.areTabsDuplicate new_URL x y = false.

Lemma scan_no_match (l : list Tab) (tab : Tab) (cur : Z) (st : list Tab * gset Z) :
  (forall y, y ∈ l -> tab_id y <> Some cur -> DuplicateDetector.areTabsDuplicate new_URL tab y = false) ->
  fold_left (DuplicateDetector.scan_step new_URL tab cur) l st = st.
Proof.
  induction l as [|y l IH]; intros Hno; [reflexivity|].
  cbn [fold_left].
  assert (E : DuplicateDetector.scan_step new_URL tab cur st y = st).
  { unfold DuplicateDetector.scan_step.
    destruct (tab_id y) as [oid|] eqn:Eid; [|reflexivity].
    destruct (Z.eqb_spec oid 0); [reflexivity|].
    destruct (Z.eqb_spec oid cur); [reflexivity|].
    cbn [orb]. case_bool_decide; [reflexivity|].
    rewrite Hno; [reflexivity | now left | congruence]. }
  rewrite E. apply IH. intros z Hz. apply Hno. now right.
Qed.

Lemma group_step_unmatched (tabs : list Tab) (st : list DuplicateGroup * gset Z) (x : Tab) :
  unmatched tabs x -> DuplicateDetector.group_step new_URL tabs st x = st.
Proof.
  intros Hx. unfold DuplicateDetector.group_step.
  destruct (tab_id x) as [cur|] eqn:Eid; [|reflexivity].
  destruct (Z.eqb cur 0 || bool_decide (cur ∈ st.2)); [reflexivity|].
  rewrite scan_no_match; [now destruct st|].
  intros y Hy Hne. apply Hx; [exact Hy | now rewrite Eid].
Qed.

Lemma group_steps_unmatched (tabs l : list Tab) (st : list DuplicateGroup * gset Z) :
  (forall x, x ∈ l -> unmatched tabs x) ->
  fold_left (DuplicateDetector.group_step new_URL tabs) l st = st.
Proof.
  induction l as [|x l IH]; intros Hl; [reflexivity|].
  cbn [fold_left]. rewrite group_step_unmatched by (apply Hl; now left).
  apply IH. intros y Hy. apply Hl. now right.
Qed.

(** No group of the result mentions an unmatched tab. *)
Lemma unmatched_in_no_group (tabs : list Tab) (x : Tab) (g : DuplicateGroup) :
  unmatched tabs x ->
  g ∈ DuplicateDetector.identifyDuplicateGroups new_URL tabs ->
  x ∉ members g.
Proof.
  intros Hx Hg Hin.
  destruct (group_inv_result new_URL tabs) as (_ & _ & _ & Hgrp).
  destruct (Hgrp g Hg) as (Ho & Hne & Hd).
  unfold members in Hin. apply elem_of_cons in Hin as [->|Hin].
  - destruct (duplicates g) as [|d ds] eqn:E; [congruence|].
    destruct (Hd d) as (Hdt & Hdup & Hid); [now left|].
    rewrite (Hx d Hdt Hid) in Hdup. discriminate.
  - destruct (Hd x Hin) as (_ & Hdup & Hid).
    rewrite areTabsDuplicate_sym in Hdup.
    rewrite (Hx (original g) Ho) in Hdup; [discriminate | congruence].
Qed.

Local Ltac in_others :=
  let x := fresh "x" in let Hx := fresh "Hx" in
  intros x Hx; rewrite !elem_of_app; auto 10.

Lemma three_duplicates_one_group (l0 l1 l2 l3 : list Tab) (A B C : Tab) (a b c : Z) :
  let tabs := (l0 ++ A :: l1 ++ B :: l2 ++ C :: l3)%list in
  tab_id A = Some a -> tab_id B = Some b -> tab_id C = Some c ->
  a <> 0 -> b <> 0 -> c <> 0 -> a <> b -> a <> c -> b <> c ->
  DuplicateDetector.areTabsDuplicate new_URL A B = true ->
  DuplicateDetector.areTabsDuplicate new_URL A C = true ->
  (forall x, x ∈ (l0 ++ l1 ++ l2 ++ l3)%list -> unmatched tabs x) ->
  DuplicateDetector.identifyDuplicateGroups new_URL tabs = [mkDuplicateGroup A [B; C]].
Proof.
  intros tabs HA HB HC Ha Hb Hc Hab Hac Hbc DAB DAC Hoth.
  assert (HinA : A ∈ tabs) by (unfold tabs; rewrite elem_of_app, elem_of_cons; auto).
  (* scanning the other tabs on behalf of [A] finds nothing *)
  assert (Hscan : forall l st, l ⊆ (l0 ++ l1 ++ l2 ++ l3)%list ->
            fold_left (DuplicateDetector.scan_step new_URL A a) l st = st).
  { intros l st Hl. apply scan_no_match. intros y Hy Hne.
    rewrite areTabsDuplicate_sym. apply (Hoth y); [now apply Hl | exact HinA |].
    rewrite HA. congruence. }
  assert (Hfound : fold_left (DuplicateDetector.scan_step new_URL A a) tabs ([], ∅)
                   = ([B; C], {[c]} ∪ ({[b]} ∪ ∅))).
  { unfold tabs.
    rewrite fold_left_app, (Hscan l0) by in_others. cbn [fold_left].
    replace (DuplicateDetector.scan_step new_URL A a ([], ∅) A) with (([] : list Tab), (∅ : gset Z)).
    2:{ unfold DuplicateDetector.scan_step. rewrite HA, Z.eqb_refl.
        now destruct (Z.eqb a 0). }
    rewrite fold_left_app, (Hscan l1) by in_others. cbn [fold_left].
    replace (DuplicateDetector.scan_step new_URL A a ([], ∅) B) with ([B], ({[b]} ∪ ∅ : gset Z)).
    2:{ unfold DuplicateDetector.scan_step. rewrite HB, DAB.
        destruct (Z.eqb_spec b 0); [contradiction|].
        destruct (Z.eqb_spec b a); [congruence|].
        cbn [orb]. case_bool_decide as M; [set_solver | reflexivity]. }
    rewrite fold_left_app, (Hscan l2) by in_others. cbn [fold_left].
    replace (DuplicateDetector.scan_step new_URL A a ([B], {[b]} ∪ ∅) C)
      with ([B; C], ({[c]} ∪ ({[b]} ∪ ∅) : gset Z)).
    2:{ unfold DuplicateDetector.scan_step. rewrite HC, DAC.
        destruct (Z.eqb_spec c 0); [contradiction|].
        destruct (Z.eqb_spec c a); [congruence|].
        cbn [orb snd fst]. case_bool_decide as M; [set_solver | reflexivity]. }
    apply Hscan. in_others. }
  assert (Hskip : forall l st, l ⊆ (l0 ++ l1 ++ l2 ++ l3)%list ->
            fold_left (DuplicateDetector.group_step new_URL tabs) l st = st).
  { intros l st Hl. apply group_steps_unmatched. intros x Hx. apply Hoth. now apply Hl. }
  unfold DuplicateDetector.identifyDuplicateGroups. fold tabs.
  unfold tabs at 2.
  rewrite fold_left_app, (Hskip l0) by in_others. cbn [fold_left].
  replace (DuplicateDetector.group_step new_URL tabs ([], ∅) A)
    with ([mkDuplicateGroup A [B; C]], ({[a]} ∪ ({[c]} ∪ ({[b]} ∪ ∅)) : gset Z)).
  2:{ unfold DuplicateDetector.group_step. rewrite HA.
      destruct (Z.eqb_spec a 0); [contradiction|].
      cbn [orb snd fst]. case_bool_decide as M; [set_solver|].
      rewrite Hfound. reflexivity. }
  rewrite fold_left_app, (Hskip l1) by in_others. cbn [fold_left].
  replace (DuplicateDetector.group_step new_URL tabs ([mkDuplicateGroup A [B; C]], {[a]} ∪ ({[c]} ∪ ({[b]} ∪ ∅))) B)
    with ([mkDuplicateGroup A [B; C]], ({[a]} ∪ ({[c]} ∪ ({[b]} ∪ ∅)) : gset Z)).
  2:{ unfold DuplicateDetector.group_step. rewrite HB.
      destruct (Z.eqb b 0); [reflexivity|].
      cbn [orb snd]. case_bool_decide as M; [reflexivity | set_solver]. }
  rewrite fold_left_app, (Hskip l2) by in_others. cbn [fold_left].
  replace (DuplicateDetector.group_step new_URL tabs ([mkDuplicateGroup A [B; C]], {[a]} ∪ ({[c]} ∪ ({[b]} ∪ ∅))) C)
    with ([mkDuplicateGroup A [B; C]], ({[a]} ∪ ({[c]} ∪ ({[b]} ∪ ∅)) : gset Z)).
  2:{ unfold DuplicateDetector.group_step. rewrite HC.
      destruct (Z.eqb c 0); [reflexivity|].
      cbn [orb snd]. case_bool_decide as M; [reflexivity | set_solver]. }
  rewrite Hskip by in_others. reflexivity.
Qed.

End FirstEncountered.

(** C3: in a tab list that contains three tabs [A], [B], [C] in this order
    with identical canonical URLs (the three being comparable and carrying
    distinct identifiers) and no other tab that the comparator matches with a
    tab of another identifier, the partitioner returns exactly one group, with
    original [A] and duplicates [B; C] in this order; and in every tab list a
    tab matched with no other tab is in no group, as original or duplicate. *)
Theorem identifyDuplicateGroups_first_encountered (new_URL : string -> option URL) :
  (forall (l0 l1 l2 l3 : list Tab) (A B C : Tab),
     let tabs := (l0 ++ A :: l1 ++ B :: l2 ++ C :: l3)%list in
     has_id A = true -> has_id B = true -> has_id C = true ->
     NoDup [tab_id A; tab_id B; tab_id C] ->
     comparable A = true -> comparable B = true -> comparable C = true ->
     normalized new_URL A = normalized new_URL B ->
     normalized new_URL B = normalized new_URL C ->
     (forall x, x ∈ (l0 ++ l1 ++ l2 ++ l3)%list -> unmatched new_URL tabs x) ->
     DuplicateDetector.identifyDuplicateGroups new_URL tabs = [mkDuplicateGroup A [B; C]]) /\
  (forall (tabs : list Tab) (x : Tab),
     unmatched new_URL tabs x ->
     forall g, g ∈ DuplicateDetector.identifyDuplicateGroups new_URL tabs ->
               x <> original g /\ x ∉ duplicates g).
Proof.
  split.
  - intros l0 l1 l2 l3 A B C tabs HA HB HC Hnd CA CB CC NAB NBC Hoth.
    unfold has_id in HA, HB, HC.
    destruct (tab_id A) as [a|] eqn:EA; [|discriminate].
    destruct (tab_id B) as [b|] eqn:EB; [|discriminate].
    destruct (tab_id C) as [c|] eqn:EC; [|discriminate].
    apply negb_true_iff, Z.eqb_neq in HA, HB, HC.
    apply NoDup_cons in Hnd as (Hab & Hnd). apply NoDup_cons in Hnd as (Hbc & _).
    apply (three_duplicates_one_group new_URL l0 l1 l2 l3 A B C a b c);
      try assumption.
    + intros ->. apply Hab. now left.
    + intros ->. apply Hab. right. now left.
    + intros ->. apply Hbc. now left.
    + now apply areTabsDuplicate_spec.
    + apply areTabsDuplicate_spec. repeat split; try assumption. congruence.
  - intros tabs x Hx g Hg.
    pose proof (unmatched_in_no_group new_URL tabs x g Hx Hg) as Hno.
    unfold members in Hno. split.
    + intros ->. apply Hno. now left.
    + intros Hin. apply Hno. now right.
Qed.

(** Five tabs: three that show the same page under three spellings of its
    URL, one that shows another page and one internal page. *)
Definition page_tab (id : Z) (url : string) : Tab :=
  mkTab (Some id) id (Some 1) (Some url) None TAB_GROUP_ID_NONE.

Definition tab_A : Tab := page_tab 2 "http://Example.com/a?b=1&a=2".
Definition tab_B : Tab := page_tab 3 "http://example.com:80/a?a=2&b=1".
Definition tab_C : Tab := page_tab 5 "http://example.com/a?a=2&b=1#top".
Definition tab_X : Tab := page_tab 1 "https://example.com/a?a=2&b=1".
Definition tab_Y : Tab := page_tab 4 "chrome://settings/".

Lemma identifyDuplicateGroups_first_encountered_witness :
  normalized URLModel.parse tab_A = normalized URLModel.parse tab_B /\
  normalized URLModel.parse tab_B = normalized URLModel.parse tab_C /\
  DuplicateDetector.identifyDuplicateGroups URLModel.parse [tab_X; tab_A; tab_B; tab_Y; tab_C] =
    [mkDuplicateGroup tab_A [tab_B; tab_C]].
Proof.
  split; [reflexivity|]. split; [reflexivity|].
  apply (proj1 (identifyDuplicateGroups_first_encountered URLModel.parse)
           [tab_X] [] [tab_Y] [] tab_A tab_B tab_C); try reflexivity.
  - repeat constructor; cbn; rewrite ?elem_of_cons, elem_of_nil; intuition discriminate.
  - intros x Hx y Hy Hne.
    repeat (apply elem_of_cons in Hx as [-> | Hx]); [| |now apply elem_of_nil in Hx];
      (repeat (apply elem_of_cons in Hy as [-> | Hy]); [| | | | |now apply elem_of_nil in Hy]);
      first [reflexivity | exfalso; apply Hne; reflexivity].
Defined.

(** ** The URL normalizer *)

Section NormalizerFacts.

(** Host names that differ only in letter case have one canonical form. *)
Lemma normalizeParsed_hostname_case (u1 u2 : URL) :
  protocol u1 = protocol u2 -> port u1 = port u2 ->
  pathname u1 = pathname u2 -> search u1 = search u2 ->
  JS.toLowerCase (hostname u1) = JS.toLowerCase (hostname u2) ->
  DuplicateDetector.normalizeParsed u1 = DuplicateDetector.normalizeParsed u2.
Proof.
  intros Hp Hport Hpath Hs Hh. unfold DuplicateDetector.normalizeParsed.
  now rewrite Hp, Hport, Hpath, Hs, Hh.
Qed.

(** An explicit default port is the same as no port. *)
Lemma normalizeParsed_default_port (host path query : string) :
  DuplicateDetector.normalizeParsed (mkURL "http:" host "80" path query) =
  DuplicateDetector.normalizeParsed (mkURL "http:" host "" path query) /\
  DuplicateDetector.normalizeParsed (mkURL "https:" host "443" path query) =
  DuplicateDetector.normalizeParsed (mkURL "https:" host "" path query).
Proof. split; reflexivity. Qed.

(** A protocol is a scheme, which holds no colon, followed by a colon. *)
Definition is_protocol (p : string) : Prop :=
  exists scheme, p = scheme ++ ":" /\ JS.includes scheme ":" = false.

Lemma append_cons (x : ascii) (a b : string) : String x a ++ b = String x (a ++ b).
Proof. reflexivity. Qed.

Lemma append_nil_l (b : string) : "" ++ b = b.
Proof. reflexivity. Qed.

Lemma append_assoc (a b c : string) : (a ++ b) ++ c = a ++ (b ++ c).
Proof.
  induction a as [|x a IH]; [reflexivity|].
  rewrite !append_cons. f_equal. exact IH.
Qed.

Lemma includes_colon_cons (x : ascii) (s : string) :
  JS.includes (String x s) ":" = false -> x <> ":"%char /\ JS.includes s ":" = false.
Proof.
  cbn [JS.includes String.prefix].
  destruct (Ascii.ascii_dec ":" x) as [<-|Hx].
  - destruct s; discriminate.
  - intros H. split; [congruence | exact H].
Qed.

Lemma scheme_prefix_unique (s1 s2 r1 r2 : string) :
  JS.includes s1 ":" = false -> JS.includes s2 ":" = false ->
  s1 ++ ":" ++ r1 = s2 ++ ":" ++ r2 -> s1 = s2.
Proof.
  revert s2. induction s1 as [|c s1 IH]; intros [|d s2] H1 H2 E;
    rewrite ?append_cons, ?append_nil_l in E.
  - reflexivity.
  - inversion E; subst d. apply includes_colon_cons in H2 as [H2 _]. congruence.
  - inversion E; subst c. apply includes_colon_cons in H1 as [H1 _]. congruence.
  - inversion E; subst d. f_equal.
    apply includes_colon_cons in H1 as [_ H1]. apply includes_colon_cons in H2 as [_ H2].
    now apply (IH s2).
Qed.

(** URLs of different schemes never share a canonical form. *)
Lemma normalizeParsed_scheme (u1 u2 : URL) :
  is_protocol (protocol u1) -> is_protocol (protocol u2) ->
  protocol u1 <> protocol u2 ->
  DuplicateDetector.normalizeParsed u1 <> DuplicateDetector.normalizeParsed u2.
Proof.
  intros (s1 & E1 & N1) (s2 & E2 & N2) Hne E. apply Hne.
  rewrite E1, E2. f_equal.
  unfold DuplicateDetector.normalizeParsed in E. rewrite E1, E2 in E.
  repeat match type of E with
         | context [if ?b then _ else _] => destruct b
         end;
    rewrite ?append_assoc in E;
    eapply scheme_prefix_unique; try eassumption.
Qed.

(** Queries that list the same parameters in another order have one
    canonical form, provided that no two different parameters are joined to
    the same string [name,value] by the comparison of the sort. *)
Lemma normalizeParsed_query_order (u1 u2 : URL) :
  protocol u1 = protocol u2 -> hostname u1 = hostname u2 -> port u1 = port u2 ->
  pathname u1 = pathname u2 ->
  JS.truthy (search u1) = true -> JS.truthy (search u2) = true ->
  URLSearchParams.parse (search u1) ≡ₚ URLSearchParams.parse (search u2) ->
  (forall e1 e2, e1 ∈ URLSearchParams.parse (search u1) ->
                 e2 ∈ URLSearchParams.parse (search u1) ->
                 JS.pair_toString e1 = JS.pair_toString e2 -> e1 = e2) ->
  DuplicateDetector.normalizeParsed u1 = DuplicateDetector.normalizeParsed u2.
Proof.
  intros Hp Hh Hport Hpath Hs1 Hs2 Hperm Hinj. unfold DuplicateDetector.normalizeParsed.
  rewrite Hs1, Hs2, Hp, Hh, Hport, Hpath.
  now rewrite (sort_default_unique JS.pair_toString _ _ Hinj Hperm).
Qed.

End NormalizerFacts.

(** The examples of the specification, with the model constructor: an
    explicit default port changes nothing, and neither do host case and
    parameter order, while another scheme gives another canonical form. *)
Example normalizeUrl_examples :
  DuplicateDetector.normalizeUrl URLModel.parse "http://example.com/" =
  DuplicateDetector.normalizeUrl URLModel.parse "http://example.com:80/" /\
  DuplicateDetector.normalizeUrl URLModel.parse "https://Example.COM:443/a?b=1&a=2#top" =
  DuplicateDetector.normalizeUrl URLModel.parse "https://example.com/a?a=2&b=1" /\
  DuplicateDetector.normalizeUrl URLModel.parse "http://Example.com:443/a?b=1&a=2" <>
  DuplicateDetector.normalizeUrl URLModel.parse "https://example.com/a?a=2&b=1".
Proof. vm_compute. repeat split; congruence. Qed.

(** C2, at the input where it fails: two URLs that differ only in the order
    of their two query parameters, [a=b,c] and [a,b=c].  Both parameters are
    turned into the string [a,b,c] by the default comparison of the sort, so
    the stable sort leaves each query in its own order and the two canonical
    forms differ. *)
Theorem normalizeUrl_query_order_collision (new_URL : string -> option URL) :
  new_URL "http://example.com/?a=b,c&a,b=c" =
    Some (mkURL "http:" "example.com" "" "/" "?a=b,c&a,b=c") ->
  new_URL "http://example.com/?a,b=c&a=b,c" =
    Some (mkURL "http:" "example.com" "" "/" "?a,b=c&a=b,c") ->
  Permutation (URLSearchParams.parse "?a=b,c&a,b=c") (URLSearchParams.parse "?a,b=c&a=b,c") /\
  DuplicateDetector.normalizeUrl new_URL "http://example.com/?a=b,c&a,b=c"
    = "http://example.com/?a=b%2Cc&a%2Cb=c" /\
  DuplicateDetector.normalizeUrl new_URL "http://example.com/?a,b=c&a=b,c"
    = "http://example.com/?a%2Cb=c&a=b%2Cc" /\
  DuplicateDetector.normalizeUrl new_URL "http://example.com/?a=b,c&a,b=c" <>
  DuplicateDetector.normalizeUrl new_URL "http://example.com/?a,b=c&a=b,c".
Proof.
  intros H1 H2. unfold DuplicateDetector.normalizeUrl. rewrite H1, H2.
  split; [vm_compute; apply perm_swap|].
  split; [vm_compute; reflexivity|].
  split; [vm_compute; reflexivity|].
  vm_compute. congruence.
Qed.

Lemma normalizeUrl_query_order_collision_witness :
  Permutation (URLSearchParams.parse "?a=b,c&a,b=c") (URLSearchParams.parse "?a,b=c&a=b,c") /\
  DuplicateDetector.normalizeUrl URLModel.parse "http://example.com/?a=b,c&a,b=c"
    = "http://example.com/?a=b%2Cc&a%2Cb=c" /\
  DuplicateDetector.normalizeUrl URLModel.parse "http://example.com/?a,b=c&a=b,c"
    = "http://example.com/?a%2Cb=c&a=b%2Cc" /\
  DuplicateDetector.normalizeUrl URLModel.parse "http://example.com/?a=b,c&a,b=c" <>
  DuplicateDetector.normalizeUrl URLModel.parse "http://example.com/?a,b=c&a=b,c".
Proof.
  apply (normalizeUrl_query_order_collision URLModel.parse); vm_compute; reflexivity.
Defined.

(** ** Time-window clustering *)

(** Only the verdicts of the threshold test matter. *)
Lemma time_groups_ext (T T' : Q) (l : list Tab) :
  (forall d : Z, Qle_bool (inject_Z d * (1 # 10)) (T * 60) =
                 Qle_bool (inject_Z d * (1 # 10)) (T' * 60)) ->
  GroupManager.time_groups T l = GroupManager.time_groups T' l.
Proof.
  intros Hext. unfold GroupManager.time_groups. destruct l as [|first others]; [reflexivity|].
  assert (E : forall st, fold_left (GroupManager.time_step T) others st =
                         fold_left (GroupManager.time_step T') others st).
  { induction others as [|t ts IH]; intros st; [reflexivity|].
    cbn [fold_left]. rewrite IH. f_equal.
    unfold GroupManager.time_step. now rewrite Hext. }
  now rewrite E.
Qed.

Lemma groupByCreationTime_ext (random_index : nat -> nat) (timestamp : string)
    (T T' : Q) (windowId : option Z) (b : Browser) :
  (forall d : Z, Qle_bool (inject_Z d * (1 # 10)) (T * 60) =
                 Qle_bool (inject_Z d * (1 # 10)) (T' * 60)) ->
  GroupManager.groupByCreationTime random_index timestamp T windowId b =
  GroupManager.groupByCreationTime random_index timestamp T' windowId b.
Proof.
  intros Hext. unfold GroupManager.groupByCreationTime, await.
  destruct (chrome.tabs_query _ b) as [[ts|e] b']; [|reflexivity].
  destruct (length _ <=? 1)%nat; [reflexivity|].
  now rewrite (time_groups_ext T T' _ Hext).
Qed.

(** A threshold of a sixth of a minute puts the cut at an identifier gap of
    exactly 100. *)
Lemma sixth_of_a_minute (d : Z) :
  Qle_bool (inject_Z d * (1 # 10)) ((1 # 6) * 60) = true <-> d <= 100.
Proof.
  rewrite Qle_bool_iff. unfold Qle. cbn. lia.
Qed.

(** An ungrouped tab of window 1 with the given identifier. *)
Definition sample_tab (i : Z) : Tab :=
  mkTab (Some i) 0 (Some 1) (Some "https://example.com/") (Some "Example") TAB_GROUP_ID_NONE.

Definition five_tabs : list Tab := map sample_tab [1; 2; 3; 1000; 1001].
Definition six_tabs : list Tab := map sample_tab [1; 2; 3; 1000; 1001; 5000].

(** The eligible tabs of [groupByCreationTime], sorted, for a browser whose
    current window is 1. *)
Definition sorted_eligible (order : list Tab) : list Tab :=
  JS.sort_compare (fun a b => GroupManager.id_or_0 a - GroupManager.id_or_0 b)
    (List.filter (fun tab => Z.eqb (tab_groupId tab) TAB_GROUP_ID_NONE) order).

#[local] Instance Tab_eq_dec : EqDecision Tab.
Proof. solve_decision. Defined.

#[local] Instance Result_eq_dec {A : Type} `{EqDecision A} : EqDecision (Result A).
Proof. solve_decision. Defined.

(** The outcome for one order of the tabs in a browser whose only window is
    window 1 and that has no group yet: the time groups are the buckets
    1, 2, 3 and 1000, 1001; two groups, 1 and 2, are created; tabs 1, 2, 3
    are put into the first and tabs 1000, 1001 into the second, and every
    other tab stays as it was. *)
Definition two_buckets (random_index : nat -> nat) (timestamp : string) (T : Q)
    (order : list Tab) : Prop :=
  GroupManager.time_groups T (sorted_eligible order) =
    [map sample_tab [1; 2; 3]; map sample_tab [1000; 1001]] /\
  let r := GroupManager.groupByCreationTime random_index timestamp T None
             (mkBrowser order [] 1 1 0) in
  r.1 = Ok [1; 2] /\
  tabs r.2 = chrome.move_into [1000; 1001] 2 1 (chrome.move_into [1; 2; 3] 1 1 order) /\
  map group_id (groups r.2) = [1; 2].

#[local] Instance two_buckets_dec random_index timestamp T order :
  Decision (two_buckets random_index timestamp T order).
Proof. unfold two_buckets. apply _. Defined.

Lemma five_tabs_any_order (random_index : nat -> nat) (timestamp : string) :
  Forall (two_buckets random_index timestamp (1 # 6)) (permutations five_tabs).
Proof. refine (bool_decide_unpack _ _). vm_compute. exact I. Qed.

Lemma six_tabs_any_order (random_index : nat -> nat) (timestamp : string) :
  Forall (two_buckets random_index timestamp (1 # 6)) (permutations six_tabs).
Proof. refine (bool_decide_unpack _ _). vm_compute. exact I. Qed.

Lemma two_buckets_threshold (random_index : nat -> nat) (timestamp : string) (T : Q)
    (order : list Tab) :
  (forall d : Z, Qle_bool (inject_Z d * (1 # 10)) (T * 60) = true <-> d <= 100) ->
  two_buckets random_index timestamp (1 # 6) order ->
  two_buckets random_index timestamp T order.
Proof.
  intros Hsep. unfold two_buckets.
  assert (Hext : forall d : Z, Qle_bool (inject_Z d * (1 # 10)) (T * 60) =
                               Qle_bool (inject_Z d * (1 # 10)) ((1 # 6) * 60)).
  { intros d. pose proof (Hsep d) as H1. pose proof (sixth_of_a_minute d) as H2.
    destruct (Qle_bool _ (T * 60)), (Qle_bool _ ((1 # 6) * 60)); try reflexivity.
    - pose proof (proj2 H2 (proj1 H1 eq_refl)). discriminate.
    - pose proof (proj2 H1 (proj1 H2 eq_refl)). discriminate. }
  rewrite (time_groups_ext T (1 # 6) _ Hext).
  now rewrite (groupByCreationTime_ext random_index timestamp T (1 # 6) None _ Hext).
Qed.

(** C9: take five ungrouped tabs with identifiers 1, 2, 3, 1000, 1001, in
    any order, and a minute threshold whose cut lies at an identifier gap of
    100.  Time-window clustering forms exactly the buckets 1, 2, 3 and
    1000, 1001 and creates a group for each.  With a sixth tab 5000 the
    buckets and groups are the same, and tab 5000 stays ungrouped. *)
Theorem groupByCreationTime_two_buckets
    (random_index : nat -> nat) (timestamp : string) (T : Q) :
  (forall d : Z, Qle_bool (inject_Z d * (1 # 10)) (T * 60) = true <-> d <= 100) ->
  (forall order, order ≡ₚ five_tabs -> two_buckets random_index timestamp T order) /\
  (forall order, order ≡ₚ six_tabs ->
     two_buckets random_index timestamp T order /\
     sample_tab 5000 ∈
       tabs (GroupManager.groupByCreationTime random_index timestamp T None
               (mkBrowser order [] 1 1 0)).2).
Proof.
  intros Hsep. split.
  - intros order Hperm. apply two_buckets_threshold; [exact Hsep|].
    pose proof (five_tabs_any_order random_index timestamp) as Hall.
    rewrite Forall_forall in Hall. apply Hall.
    apply permutations_Permutation. now symmetry.
  - intros order Hperm.
    assert (H2 : two_buckets random_index timestamp T order).
    { apply two_buckets_threshold; [exact Hsep|].
      pose proof (six_tabs_any_order random_index timestamp) as Hall.
      rewrite Forall_forall in Hall. apply Hall.
      apply permutations_Permutation. now symmetry. }
    split; [exact H2|].
    destruct H2 as (_ & _ & -> & _).
    unfold chrome.move_into. rewrite <- list_fmap_compose.
    apply list_elem_of_fmap. exists (sample_tab 5000). split; [reflexivity|].
    rewrite Hperm. unfold six_tabs. cbn. do 5 right. left.
Qed.

Lemma groupByCreationTime_two_buckets_witness :
  (forall d : Z, Qle_bool (inject_Z d * (1 # 10)) ((1 # 6) * 60) = true <-> d <= 100) /\
  two_buckets (fun n => n) "10:30 AM" (1 # 6) (map sample_tab [1000; 3; 1; 1001; 2]) /\
  two_buckets (fun n => n) "10:30 AM" (1 # 6) (map sample_tab [5000; 1000; 3; 1; 1001; 2]).
Proof.
  split; [exact sixth_of_a_minute|].
  destruct (groupByCreationTime_two_buckets (fun n => n) "10:30 AM" (1 # 6) sixth_of_a_minute)
    as [H5 H6].
  split.
  - apply H5. refine (bool_decide_unpack _ _). vm_compute. exact I.
  - apply H6. refine (bool_decide_unpack _ _). vm_compute. exact I.
Defined.

(** ** The LLM strategies *)

Section LLMFacts.

Variable getSettings : Result LLMSettings.
Variable getTabContent : Z -> Result string.
Variable _callAzureOpenAI _callOpenAI _callAnthropic _callCustomLLM :
  string -> LLMSettings -> Result string.
Variable similarTabsPrompt : Tab -> string -> list Tab -> string.
Variable groupingPrompt : list TabDetail -> string.

Abbreviation isConfigured := (LLMService.isConfigured getSettings).
Abbreviation _callLLM :=
  (LLMService._callLLM getSettings _callAzureOpenAI _callOpenAI _callAnthropic _callCustomLLM).
Abbreviation findSimilarTabs :=
  (LLMService.findSimilarTabs getSettings getTabContent
     _callAzureOpenAI _callOpenAI _callAnthropic _callCustomLLM similarTabsPrompt).
Abbreviation suggestTabGroups :=
  (LLMService.suggestTabGroups getSettings getTabContent
     _callAzureOpenAI _callOpenAI _callAnthropic _callCustomLLM groupingPrompt).
Abbreviation analyze_batch :=
  (LLMService.analyze_batch getSettings
     _callAzureOpenAI _callOpenAI _callAnthropic _callCustomLLM groupingPrompt).
Abbreviation tab_detail := (LLMService.tab_detail getTabContent).

(** The service only reads the browser. *)
Lemma isConfigured_reads (b : Browser) : exists c, isConfigured b = (Ok c, b).
Proof.
  unfold LLMService.isConfigured, try_catch, await, of_result, resolve.
  destruct getSettings as [settings|e]; [|now eexists].
  repeat match goal with
         | |- context [if ?c then _ else _] => destruct c
         end; now eexists.
Qed.

Lemma _callLLM_reads (prompt : string) (b : Browser) :
  exists r, _callLLM prompt b = (r, b).
Proof.
  unfold LLMService._callLLM, await, of_result, reject.
  destruct getSettings as [settings|e]; [|now eexists].
  repeat match goal with
         | |- context [if ?c then _ else _] => destruct c
         end;
    try (now eexists);
    match goal with
    | |- context [match ?r with _ => _ end] => destruct r; now eexists
    end.
Qed.

Lemma tabs_get_reads (tabId : Z) (b : Browser) (r : Result Tab) (b' : Browser) :
  chrome.tabs_get tabId b = (r, b') ->
  b' = b /\ forall t, r = Ok t -> t ∈ tabs b /\ tab_id t = Some tabId.
Proof.
  unfold chrome.tabs_get.
  destruct (List.find _ (tabs b)) as [t|] eqn:E; intros H; inversion H; subst.
  - split; [reflexivity|]. intros t' Ht. inversion Ht; subst t'.
    apply find_some in E as [Hin Hid]. split; [now apply list_elem_of_In|].
    unfold chrome.tab_has_id, option_Z_eqb in Hid.
    destruct (tab_id t) as [i|]; [|discriminate].
    apply Z.eqb_eq in Hid. now subst.
  - split; [reflexivity|]. intros t' Ht. discriminate.
Qed.

(** The tabs that [findSimilarTabs] may return for a reference tab: tabs of
    the browser that lie in the window of the reference tab (every window
    when the reference tab has none), are not the reference tab, are
    ungrouped, and have a URL that is not browser-internal or blank. *)
Definition known_eligible (b : Browser) (referenceTab : Tab) (tabId : Z) (id : Z) : Prop :=
  exists tab, tab ∈ tabs b /\ tab_id tab = Some id /\ id <> tabId /\
    (forall w, tab_windowId referenceTab = Some w -> tab_windowId tab = Some w) /\
    tab_groupId tab = TAB_GROUP_ID_NONE /\
    GroupManager.special_page (tab_url tab) = false.

Lemma eligible_for_special (tabId : Z) (tab : Tab) :
  LLMService.eligible_for tabId tab = true ->
  GroupManager.special_page (tab_url tab) = false /\
  tab_groupId tab = TAB_GROUP_ID_NONE /\ tab_id tab <> Some tabId.
Proof.
  unfold LLMService.eligible_for, GroupManager.special_page.
  destruct (tab_url tab) as [u|]; rewrite ?andb_true_iff, ?negb_true_iff;
    [|intros (_ & ?); discriminate].
  intros ((Hid & Hg) & (((Ht & Hc) & He) & Hb)).
  rewrite Ht, Hc, He, Hb. split; [reflexivity|]. split; [now apply Z.eqb_eq|].
  intros E. rewrite E in Hid. cbn in Hid. now rewrite Z.eqb_refl in Hid.
Qed.

Lemma findSimilarTabs_result (tabId : Z) (b : Browser) :
  exists ids, findSimilarTabs tabId b = (Ok ids, b) /\
    (ids = [] \/
     exists referenceTab, chrome.tabs_get tabId b = (Ok referenceTab, b) /\
       Forall (known_eligible b referenceTab tabId) ids).
Proof.
  unfold LLMService.findSimilarTabs, try_catch, await.
  destruct (isConfigured_reads b) as [c ->].
  destruct c; cbn [negb]; [|exists []; split; [reflexivity | now left]].
  destruct (chrome.tabs_get tabId b) as [[referenceTab|e] b1] eqn:Eget;
    apply tabs_get_reads in Eget as [-> Href];
    [|exists []; split; [reflexivity | now left]].
  unfold chrome.tabs_query at 1.
  set (allTabs := match tab_windowId referenceTab with
                  | Some w => List.filter _ (tabs b)
                  | None => tabs b
                  end).
  set (eligibleTabs := List.filter (LLMService.eligible_for tabId) allTabs).
  destruct (length eligibleTabs =? 0)%nat; [exists []; split; [reflexivity | now left]|].
  assert (Hcontent : exists r,
            (match tab_id referenceTab with
             | Some i => if Z.eqb i 0 then resolve "" else of_result (getTabContent i)
             | None => resolve ""
             end) b = (r, b)).
  { destruct (tab_id referenceTab) as [i|]; [|now eexists].
    destruct (Z.eqb i 0); now eexists. }
  destruct Hcontent as [[referenceContent|e] ->];
    [|exists []; split; [reflexivity | now left]].
  destruct (_callLLM_reads (similarTabsPrompt referenceTab referenceContent eligibleTabs) b)
    as [[response|e] ->]; [|exists []; split; [reflexivity | now left]].
  destruct (JS.includes _ "none"); [exists []; split; [reflexivity | now left]|].
  destruct (JS.digit_runs response "") as [|m ms]; [exists []; split; [reflexivity | now left]|].
  eexists. split; [reflexivity|]. right. exists referenceTab. split; [reflexivity|].
  apply Forall_forall. intros id Hid.
  apply list_elem_of_In, filter_In in Hid as [_ Hex].
  apply existsb_exists in Hex as (tab & Htab & Hidtab).
  unfold eligibleTabs in Htab. apply filter_In in Htab as [Hall Helig].
  apply eligible_for_special in Helig as (Hsp & Hgrp & Hne).
  assert (Hid' : tab_id tab = Some id).
  { unfold option_Z_eqb in Hidtab. destruct (tab_id tab) as [i|]; [|discriminate].
    apply Z.eqb_eq in Hidtab. now subst. }
  exists tab. split; [|split; [exact Hid'|split; [congruence|split; [|split; assumption]]]].
  - unfold allTabs in Hall. destruct (tab_windowId referenceTab);
      [apply filter_In in Hall as [Hall _]|]; now apply list_elem_of_In.
  - intros w Hw. unfold allTabs in Hall. rewrite Hw in Hall.
    apply filter_In in Hall as [_ Hwin]. unfold option_Z_eqb in Hwin.
    destruct (tab_windowId tab) as [w'|]; [|discriminate].
    apply Z.eqb_eq in Hwin. now subst.
Qed.

(** With an LLM that fails on every prompt, the answer is the empty list. *)
Lemma findSimilarTabs_llm_fails (tabId : Z) (b : Browser) :
  (forall prompt, exists e, _callLLM prompt b = (Err e, b)) ->
  findSimilarTabs tabId b = (Ok [], b).
Proof.
  intros Hfail.
  unfold LLMService.findSimilarTabs, try_catch, await.
  destruct (isConfigured_reads b) as [c ->].
  destruct c; cbn [negb]; [|reflexivity].
  destruct (chrome.tabs_get tabId b) as [[referenceTab|e] b1] eqn:Eget;
    apply tabs_get_reads in Eget as [-> Href]; [|reflexivity].
  unfold chrome.tabs_query at 1.
  destruct (length _ =? 0)%nat; [reflexivity|].
  match goal with
  | |- context [(match tab_id referenceTab with _ => _ end) b] =>
      assert (Hcontent : exists r,
                (match tab_id referenceTab with
                 | Some i => if Z.eqb i 0 then resolve "" else of_result (getTabContent i)
                 | None => resolve ""
                 end) b = (r, b))
  end.
  { destruct (tab_id referenceTab) as [i|]; [|now eexists].
    destruct (Z.eqb i 0); now eexists. }
  destruct Hcontent as [[referenceContent|e] ->]; [|reflexivity].
  match goal with
  | |- context [_callLLM ?p b] => destruct (Hfail p) as [e ->]
  end.
  reflexivity.
Qed.

Lemma tab_detail_total (tabId : Z) (b : Browser) :
  exists d, tab_detail tabId b = (Ok d, b).
Proof.
  unfold LLMService.tab_detail, try_catch, await.
  destruct (chrome.tabs_get tabId b) as [[tab|e] b1] eqn:Eget;
    apply tabs_get_reads in Eget as [-> _]; [|now eexists].
  unfold of_result, resolve. destruct (getTabContent tabId); now eexists.
Qed.

Lemma tab_details_total (tabIds : list Z) (b : Browser) :
  exists ds, await_all tab_detail tabIds b = (Ok ds, b).
Proof.
  induction tabIds as [|i tabIds [ds IH]]; [now eexists|].
  cbn [await_all]. unfold await at 1. destruct (tab_detail_total i b) as [d ->].
  unfold await at 1. rewrite IH. now eexists.
Qed.

(** A batch never fails: it adds its parsed groups, or nothing when the LLM
    call failed. *)
Lemma analyze_batch_total (results : list LLMService.TabGroup) (batch : list TabDetail)
    (b : Browser) :
  (exists analysis, _callLLM (groupingPrompt batch) b = (Ok analysis, b) /\
     analyze_batch results batch b =
       (Ok (results ++ LLMService._parseGroupAnalysis analysis batch)%list, b)) \/
  (exists e, _callLLM (groupingPrompt batch) b = (Err e, b) /\
     analyze_batch results batch b = (Ok results, b)).
Proof.
  unfold LLMService.analyze_batch, try_catch, await.
  destruct (_callLLM_reads (groupingPrompt batch) b) as [[analysis|e] E].
  - left. exists analysis. rewrite E. now split.
  - right. exists e. rewrite E. now split.
Qed.

Lemma analyze_batches_total (batches : list (list TabDetail))
    (results : list LLMService.TabGroup) (b : Browser) :
  exists groups, for_each analyze_batch batches results b = (Ok groups, b) /\
    ((forall prompt, exists e, _callLLM prompt b = (Err e, b)) -> groups = results).
Proof.
  revert results. induction batches as [|batch batches IH]; intros results.
  - exists results. now split.
  - cbn [for_each]. unfold await at 1.
    destruct (analyze_batch_total results batch b) as [(a & Ea & ->)|(e & Ee & ->)].
    + destruct (IH (results ++ LLMService._parseGroupAnalysis a batch)%list) as (g & -> & Hg).
      exists g. split; [reflexivity|]. intros Hfail.
      destruct (Hfail (groupingPrompt batch)) as [e He]. congruence.
    + destruct (IH results) as (g & -> & Hg). exists g. now split.
Qed.

(** [suggestTabGroups] rejects for two reasons only, both found before any
    LLM call; otherwise it resolves, with no group at all when every call
    fails. *)
Lemma suggestTabGroups_cases (tabIds : list Z) (b : Browser) (r : Result (list LLMService.TabGroup) * Browser) :
  suggestTabGroups tabIds b = r ->
  r = (Err "LLM is not configured", b) \/
  r = (Err "No valid tabs to analyze", b) \/
  exists groups, r = (Ok groups, b) /\
    ((forall prompt, exists e, _callLLM prompt b = (Err e, b)) -> groups = []).
Proof.
  unfold LLMService.suggestTabGroups, await at 1.
  destruct (isConfigured_reads b) as [c ->].
  destruct c; cbn [negb]; [|intros <-; now left].
  unfold await at 1. destruct (tab_details_total tabIds b) as [ds ->].
  destruct (length _ =? 0)%nat; [intros <-; right; now left|].
  intros <-. right; right. apply analyze_batches_total.
Qed.

Lemma suggestTabGroups_result (tabIds : list Z) (b : Browser) :
  suggestTabGroups tabIds b = (Err "LLM is not configured", b) \/
  suggestTabGroups tabIds b = (Err "No valid tabs to analyze", b) \/
  exists groups, suggestTabGroups tabIds b = (Ok groups, b) /\
    ((forall prompt, exists e, _callLLM prompt b = (Err e, b)) -> groups = []).
Proof. now apply (suggestTabGroups_cases tabIds b). Qed.

End LLMFacts.

(** A concrete service whose LLM call always fails, and a browser with two
    ordinary tabs. *)
Definition openai_settings : Result LLMSettings := Ok (mkLLMSettings "openai" "sk-test" "").
Definition failing_adapter (prompt : string) (settings : LLMSettings) : Result string :=
  Err "OpenAI API error (500): Internal Server Error".
Definition page_content (tabId : Z) : Result string := Ok "Lorem ipsum".
Definition two_tab_browser : Browser :=
  mkBrowser [mkTab (Some 1) 0 (Some 1) (Some "https://example.com/a") (Some "A") TAB_GROUP_ID_NONE;
             mkTab (Some 2) 1 (Some 1) (Some "https://example.org/b") (Some "B") TAB_GROUP_ID_NONE]
            [] 1 1 0.




(** ** Creating groups *)

Lemma tabs_group_new (tabIds : list Z) (b : Browser) (g : Z) (b' : Browser) :
  chrome.tabs_group tabIds None b = (Ok g, b') ->
  g = next_group_id b /\
  tabs b' = chrome.move_into tabIds g (current_window b) (tabs b) /\
  groups b' = chrome.inhabited_groups (tabs b')
                (groups b ++ [mkTabGroup g (current_window b) None grey false]) /\
  current_window b' = current_window b /\
  next_group_id b' = g + 1 /\
  random_draws b' = random_draws b.
Proof.
  unfold chrome.tabs_group.
  destruct (length tabIds =? 0)%nat; [discriminate|].
  destruct (negb _); [discriminate|].
  intros H. inversion H; subst. cbn. now repeat split.
Qed.

Lemma tabGroups_update_tabs (groupId : Z) (p : UpdateProperties) (b : Browser)
    (r : Result TabGroup) (b' : Browser) :
  chrome.tabGroups_update groupId p b = (r, b') ->
  tabs b' = tabs b /\ map group_id (groups b') = map group_id (groups b) /\
  current_window b' = current_window b /\ next_group_id b' = next_group_id b /\
  random_draws b' = random_draws b.
Proof.
  unfold chrome.tabGroups_update.
  destruct (List.find _ (groups b)); intros H; inversion H; subst; cbn; [|now repeat split].
  repeat split. rewrite map_map. apply map_ext. intros x.
  destruct (Z.eqb (group_id x) groupId); reflexivity.
Qed.

Lemma createGroup_ok (tabIds : list Z) (title : option string) (color : option Color)
    (b : Browser) (g : Z) (b' : Browser) :
  GroupManager.createGroup tabIds title color b = (Ok g, b') ->
  g = next_group_id b /\
  tabs b' = chrome.move_into tabIds g (current_window b) (tabs b) /\
  map group_id (groups b') =
    map group_id (chrome.inhabited_groups (tabs b')
                    (groups b ++ [mkTabGroup g (current_window b) None grey false])) /\
  current_window b' = current_window b /\
  next_group_id b' = g + 1 /\
  random_draws b' = random_draws b.
Proof.
  unfold GroupManager.createGroup.
  destruct (length tabIds =? 0)%nat; [discriminate|].
  unfold await at 1.
  destruct (chrome.tabs_group tabIds None b) as [[g0|e] b0] eqn:Eg; [|discriminate].
  apply tabs_group_new in Eg as (-> & Ht & Hg & Hw & Hn & Hr).
  set (title' := match title with
                 | Some t => if JS.truthy t then Some t else None
                 | None => None
                 end).
  assert (Hupd : forall p, (_ <- chrome.tabGroups_update (next_group_id b) p ;;
                            resolve (next_group_id b)) b0 = (Ok g, b') ->
                 g = next_group_id b /\
                 tabs b' = chrome.move_into tabIds g (current_window b) (tabs b) /\
                 map group_id (groups b') =
                   map group_id (chrome.inhabited_groups (tabs b')
                     (groups b ++ [mkTabGroup g (current_window b) None grey false])) /\
                 current_window b' = current_window b /\
                 next_group_id b' = g + 1 /\
                 random_draws b' = random_draws b).
  { intros p. unfold await.
    destruct (chrome.tabGroups_update (next_group_id b) p b0) as [[grp|e] b1] eqn:Eu;
      [|discriminate].
    apply tabGroups_update_tabs in Eu as (Ht1 & Hg1 & Hw1 & Hn1 & Hr1).
    intros H. inversion H; subst g b1.
    rewrite Ht1, Hg1, Hw1, Hn1, Hr1, Hg, Ht. now repeat split. }
  destruct title' as [t|], color as [c|]; try apply Hupd.
  intros H. inversion H; subst g b0. rewrite Hg, Ht. now repeat split.
Qed.

(** ** Similarity clustering *)

(** C8: whatever the LLM replies, [findSimilarTabs] returns only identifiers
    of known eligible tabs (tabs of the reference tab's window other than the
    reference tab, ungrouped, not on an internal or blank page); identifiers
    that the reply made up are dropped.  When [groupSimilarTabs] creates a
    group, the reference tab is in it, and every tab in it is the reference
    tab or one of those eligible tabs. *)
Theorem similar_tabs_are_known
    (new_URL : string -> option URL) (random_index : nat -> nat)
    (getSettings : Result LLMSettings) (getTabContent : Z -> Result string)
    (_callAzureOpenAI _callOpenAI _callAnthropic _callCustomLLM :
       string -> LLMSettings -> Result string)
    (similarTabsPrompt : Tab -> string -> list Tab -> string)
    (referenceTabId : Z) (b : Browser) :
  let findSimilarTabs := LLMService.findSimilarTabs getSettings getTabContent
                    _callAzureOpenAI _callOpenAI _callAnthropic _callCustomLLM
                    similarTabsPrompt in
  (forall ids b', findSimilarTabs referenceTabId b = (Ok ids, b') ->
     forall id, id ∈ ids ->
       exists referenceTab, chrome.tabs_get referenceTabId b = (Ok referenceTab, b) /\
         known_eligible b referenceTab referenceTabId id) /\
  (forall groupId b',
     Forall (fun t => tab_groupId t <> next_group_id b) (tabs b) ->
     GroupManager.groupSimilarTabs new_URL random_index findSimilarTabs referenceTabId b
       = (Ok (Some groupId), b') ->
     (exists t, t ∈ tabs b' /\ tab_id t = Some referenceTabId /\ tab_groupId t = groupId) /\
     exists referenceTab, chrome.tabs_get referenceTabId b = (Ok referenceTab, b) /\
       forall t, t ∈ tabs b' -> tab_groupId t = groupId ->
         exists i, tab_id t = Some i /\
           (i = referenceTabId \/ known_eligible b referenceTab referenceTabId i)).
Proof.
  cbn zeta.
  pose proof (findSimilarTabs_result getSettings getTabContent _callAzureOpenAI _callOpenAI
                _callAnthropic _callCustomLLM similarTabsPrompt referenceTabId b)
    as (ids0 & Efind & Hids).
  split.
  - intros ids b' E id Hid. rewrite Efind in E. inversion E; subst ids0 b'.
    destruct Hids as [->|(referenceTab & Eget & Hall)]; [inversion Hid|].
    exists referenceTab. split; [exact Eget|].
    rewrite Forall_forall in Hall. now apply Hall.
  - intros groupId b' Hfresh.
    unfold GroupManager.groupSimilarTabs, await at 1.
    destruct (chrome.tabs_get referenceTabId b) as [[tab|e] b0] eqn:Eget; [|discriminate].
    pose proof Eget as Eget'.
    apply tabs_get_reads in Eget' as [-> Htab]. destruct (Htab tab eq_refl) as [Htin Htid].
    destruct (GroupManager.special_page (tab_url tab)); [discriminate|].
    unfold await at 1. rewrite Efind.
    assert (Hall : Forall (known_eligible b tab referenceTabId) ids0).
    { destruct Hids as [->|(referenceTab & Eget2 & Hall)]; [constructor|].
      inversion Eget2; now subst. }
    assert (Hnot : Z_mem referenceTabId ids0 = false).
    { apply not_true_is_false. intros Hm. unfold Z_mem in Hm.
      apply existsb_exists in Hm as (i & Hi & Heq). apply Z.eqb_eq in Heq. subst i.
      rewrite Forall_forall in Hall. apply list_elem_of_In in Hi.
      destruct (Hall _ Hi) as (_ & _ & _ & Hne & _). now apply Hne. }
    rewrite Hnot.
    destruct (1 <? length (referenceTabId :: ids0))%nat; [|discriminate].
    destruct (GroupManager.domain_of new_URL _) as [domain|]; [|discriminate].
    unfold await at 1, GroupManager.getRandomColor at 1.
    unfold await at 1.
    match goal with
    | |- context [GroupManager.createGroup ?ids ?t ?c ?st] =>
        destruct (GroupManager.createGroup ids t c st) as [[g|e] b1] eqn:Ecreate;
          [|discriminate]
    end.
    apply createGroup_ok in Ecreate as (Hg & Htabs & _).
    cbn [next_group_id current_window tabs] in Hg, Htabs.
    intros H. inversion H; subst groupId b1. clear H.
    assert (Hmove : forall t0, t0 ∈ tabs b ->
              match tab_id t0 with
              | Some i => if Z_mem i (referenceTabId :: ids0)
                          then mkTab (tab_id t0) (tab_index t0) (Some (current_window b))
                                     (tab_url t0) (tab_title t0) g
                          else t0
              | None => t0
              end ∈ tabs b').
    { intros t0 Ht0. rewrite Htabs. unfold chrome.move_into.
      apply list_elem_of_fmap. now exists t0. }
    split.
    + specialize (Hmove tab Htin). rewrite Htid in Hmove.
      cbn in Hmove. rewrite Z.eqb_refl in Hmove. cbn in Hmove.
      eexists. split; [exact Hmove|]. cbn. now split.
    + exists tab. split; [reflexivity|].
      intros t Ht Hgrp. rewrite Htabs in Ht. unfold chrome.move_into in Ht.
      apply list_elem_of_fmap in Ht as (t0 & -> & Ht0).
      rewrite Forall_forall in Hfresh. specialize (Hfresh t0 Ht0).
      destruct (tab_id t0) as [i|] eqn:Ei; [|congruence].
      destruct (Z_mem i (referenceTabId :: ids0)) eqn:Em; [|congruence].
      exists i. split; [reflexivity|].
      cbn in Em. apply orb_true_iff in Em as [Em|Em].
      * left. now apply Z.eqb_eq in Em.
      * right. unfold Z_mem in Em. apply existsb_exists in Em as (j & Hj & Heq).
        apply Z.eqb_eq in Heq. subst j. rewrite Forall_forall in Hall.
        apply Hall. now apply list_elem_of_In.
Qed.

(** A service whose LLM replies with the identifiers of an eligible tab, of
    a grouped tab, of an internal page and of a tab that does not exist. *)
Definition chatty_adapter (prompt : string) (settings : LLMSettings) : Result string :=
  Ok "Tabs 2, 3, 4 and 99 belong with it.".

Definition four_tab_browser : Browser :=
  mkBrowser [mkTab (Some 1) 0 (Some 1) (Some "https://example.com/a") (Some "A") TAB_GROUP_ID_NONE;
             mkTab (Some 2) 1 (Some 1) (Some "https://example.com/b") (Some "B") TAB_GROUP_ID_NONE;
             mkTab (Some 3) 2 (Some 1) (Some "https://example.com/c") (Some "C") 5;
             mkTab (Some 4) 3 (Some 1) (Some "chrome://settings/") (Some "Settings")
                   TAB_GROUP_ID_NONE]
            [mkTabGroup 5 1 (Some "Work") blue false] 1 6 0.

Definition similar_run : Result (option Z) * Browser :=
  GroupManager.groupSimilarTabs URLModel.parse (fun n => n)
    (LLMService.findSimilarTabs openai_settings page_content chatty_adapter chatty_adapter
       chatty_adapter chatty_adapter (fun _ _ _ => "prompt")) 1 four_tab_browser.

Lemma similar_tabs_are_known_witness :
  LLMService.findSimilarTabs openai_settings page_content chatty_adapter chatty_adapter
    chatty_adapter chatty_adapter (fun _ _ _ => "prompt") 1 four_tab_browser
    = (Ok [2], four_tab_browser) /\
  (forall id, id ∈ [2] ->
     exists referenceTab,
       chrome.tabs_get 1 four_tab_browser = (Ok referenceTab, four_tab_browser) /\
       known_eligible four_tab_browser referenceTab 1 id) /\
  similar_run = (Ok (Some 6), similar_run.2) /\
  map tab_groupId (tabs similar_run.2) = [6; 6; 5; TAB_GROUP_ID_NONE] /\
  exists t, t ∈ tabs similar_run.2 /\ tab_id t = Some 1 /\ tab_groupId t = 6.
Proof.
  pose proof (similar_tabs_are_known URLModel.parse (fun n => n) openai_settings page_content
                chatty_adapter chatty_adapter chatty_adapter chatty_adapter
                (fun _ _ _ => "prompt") 1 four_tab_browser) as [Hids Hgroup].
  assert (E : similar_run = (Ok (Some 6), similar_run.2)) by (vm_compute; reflexivity).
  split; [vm_compute; reflexivity|]. split; [|split; [exact E|split; [vm_compute; reflexivity|]]].
  - exact (Hids [2] four_tab_browser eq_refl).
  - refine (proj1 (Hgroup 6 similar_run.2 _ E)).
    repeat constructor; cbn; discriminate.
Defined.

(** ** Domain clustering *)

(** The identifiers stored under a domain. *)
Definition ids_of (domain : string) (o : list (string * list Z)) : list Z :=
  match List.find (fun e => String.eqb (fst e) domain) o with
  | Some e => snd e
  | None => []
  end.

Lemma ids_of_push (d d' : string) (i : Z) (o : list (string * list Z)) :
  ids_of d (GroupManager.push_domain d' (Some i) o) =
  if String.eqb d' d then (ids_of d o ++ [i])%list else ids_of d o.
Proof.
  unfold ids_of. induction o as [|[k ids] o IH]; cbn.
  - destruct (String.eqb d' d); reflexivity.
  - destruct (String.eqb_spec k d') as [->|Hk]; cbn.
    + destruct (String.eqb d' d); reflexivity.
    + destruct (String.eqb_spec k d) as [->|Hd]; [|exact IH].
      destruct (String.eqb_spec d' d); [congruence | reflexivity].
Qed.

Lemma push_domain_keys (d : string) (i : option Z) (o : list (string * list Z)) :
  NoDup (map fst o) -> NoDup (map fst (GroupManager.push_domain d i o)) /\
  forall k, k ∈ map fst (GroupManager.push_domain d i o) -> k = d \/ k ∈ map fst o.
Proof.
  induction o as [|[k ids] o IH]; cbn; intros Hnd.
  - split; [repeat constructor; set_solver|]. intros k Hk. left. set_solver.
  - apply NoDup_cons in Hnd as [Hk Hnd].
    destruct (String.eqb_spec k d) as [->|Hne]; cbn.
    + split; [now apply NoDup_cons|]. intros k' Hk'. now right.
    + destruct (IH Hnd) as [IH1 IH2]. split.
      * apply NoDup_cons. split; [|exact IH1]. intros Hin.
        destruct (IH2 k Hin); [congruence | contradiction].
      * intros k' Hk'. apply elem_of_cons in Hk' as [->|Hk'].
        -- right. now left.
        -- destruct (IH2 k' Hk'); [now left | right; now right].
Qed.

Lemma entry_ids_of (e : string * list Z) (o : list (string * list Z)) :
  NoDup (map fst o) -> e ∈ o -> snd e = ids_of (fst e) o.
Proof.
  unfold ids_of. induction o as [|e' o IH]; intros Hnd Hin; [inversion Hin|].
  cbn in Hnd. apply NoDup_cons in Hnd as [Hk Hnd]. cbn.
  apply elem_of_cons in Hin as [->|Hin].
  - now rewrite String.eqb_refl.
  - destruct (String.eqb_spec (fst e') (fst e)) as [E|_]; [|now apply IH].
    exfalso. apply Hk. rewrite E. apply list_elem_of_fmap. now exists e.
Qed.

Section DomainFacts.

Variable new_URL : string -> option URL.
Variable random_index : nat -> nat.

Abbreviation collect_domain := (GroupManager.collect_domain new_URL).
Abbreviation create_domain_group := (GroupManager.create_domain_group random_index).
Abbreviation groupTabsByDomain := (GroupManager.groupTabsByDomain new_URL random_index).

(** The domain and identifier under which a tab is collected, if it is. *)
Definition collected (t : Tab) : option (string * Z) :=
  if negb (Z.eqb (tab_groupId t) TAB_GROUP_ID_NONE) || GroupManager.special_page (tab_url t)
  then None
  else match GroupManager.domain_of new_URL (match tab_url t with Some u => u | None => "" end) with
       | Some d => if GroupManager.inherited_property d then None
                   else option_map (fun i => (d, i)) (tab_id t)
       | None => None
       end.

Lemma collected_id (t : Tab) (d : string) (i : Z) :
  collected t = Some (d, i) -> tab_id t = Some i.
Proof.
  unfold collected. destruct (negb _ || _); [discriminate|].
  destruct (GroupManager.domain_of new_URL _); [|discriminate].
  destruct (GroupManager.inherited_property _); [discriminate|].
  destruct (tab_id t); cbn; [|discriminate]. intros H. now inversion H.
Qed.

Lemma collect_domain_collected (o : list (string * list Z)) (t : Tab) :
  tab_id t <> None ->
  collect_domain o t = match collected t with
                       | Some (d, i) => GroupManager.push_domain d (Some i) o
                       | None => o
                       end.
Proof.
  intros Hid. unfold GroupManager.collect_domain, collected.
  destruct (negb _ || _); [reflexivity|].
  destruct (GroupManager.domain_of new_URL _) as [d|]; [|reflexivity].
  destruct (GroupManager.inherited_property d); [reflexivity|].
  destruct (tab_id t); [reflexivity | congruence].
Qed.

Lemma collect_domain_keys (ts : list Tab) (o : list (string * list Z)) :
  NoDup (map fst o) -> NoDup (map fst (fold_left collect_domain ts o)).
Proof.
  revert o. induction ts as [|t ts IH]; intros o Hnd; [exact Hnd|].
  cbn [fold_left]. apply IH. unfold GroupManager.collect_domain.
  destruct (negb _ || _); [exact Hnd|].
  destruct (GroupManager.domain_of new_URL _) as [d|]; [|exact Hnd].
  destruct (GroupManager.inherited_property d); [exact Hnd|].
  now apply push_domain_keys.
Qed.

(** A tab of the second run, compared with the same tab in the first run:
    unchanged when its identifier is outside [G], and grouped (so skipped)
    when it is inside. *)
Definition rerun (G : list Z) (t t' : Tab) : Prop :=
  exists i, tab_id t = Some i /\ tab_id t' = Some i /\
    if Z_mem i G then tab_groupId t' <> TAB_GROUP_ID_NONE else t' = t.

Lemma collect_domain_rerun (G : list Z) (ts ts' : list Tab)
    (o o' : list (string * list Z)) :
  Forall2 (rerun G) ts ts' ->
  (forall d, ids_of d o' = List.filter (fun i => negb (Z_mem i G)) (ids_of d o)) ->
  forall d, ids_of d (fold_left collect_domain ts' o') =
            List.filter (fun i => negb (Z_mem i G)) (ids_of d (fold_left collect_domain ts o)).
Proof.
  intros Hts. revert o o'. induction Hts as [|t t' ts ts' (i & Hi & Hi' & Hrel) Hts IH];
    intros o o' Ho; [exact Ho|].
  cbn [fold_left]. apply IH. intros d.
  rewrite (collect_domain_collected o t) by congruence.
  rewrite (collect_domain_collected o' t') by congruence.
  destruct (Z_mem i G) eqn:EG.
  - (* grouped by the first run: skipped now *)
    assert (Hskip : collected t' = None).
    { unfold collected. destruct (Z.eqb_spec (tab_groupId t') TAB_GROUP_ID_NONE); [contradiction|].
      reflexivity. }
    rewrite Hskip. destruct (collected t) as [[dt it]|] eqn:Ec; [|apply Ho].
    assert (it = i) by (apply collected_id in Ec; congruence).
    subst it. rewrite ids_of_push. destruct (String.eqb dt d); [|apply Ho].
    rewrite List.filter_app. cbn. rewrite EG. cbn. rewrite app_nil_r. apply Ho.
  - subst t'. destruct (collected t) as [[dt it]|] eqn:Ec; [|apply Ho].
    assert (it = i) by (apply collected_id in Ec; congruence).
    subst it. rewrite !ids_of_push. destruct (String.eqb dt d); [|apply Ho].
    rewrite List.filter_app. cbn. rewrite EG. cbn. now rewrite Ho.
Qed.

(** A tab after some groups were created, compared with the tab before:
    same identifier; in a group numbered from [n0] on when its identifier is
    in [G], and unchanged otherwise. *)
Definition moved (n0 : Z) (G : list Z) (t t' : Tab) : Prop :=
  tab_id t' = tab_id t /\
  match tab_id t with
  | Some i => if Z_mem i G then n0 <= tab_groupId t' else t' = t
  | None => t' = t
  end.

Definition big (e : string * list Z) : bool := (1 <? length (snd e))%nat.

Lemma Z_mem_app (i : Z) (l1 l2 : list Z) : Z_mem i (l1 ++ l2) = Z_mem i l1 || Z_mem i l2.
Proof. unfold Z_mem. apply existsb_app. Qed.

Lemma moved_move_into (n0 g w : Z) (G ids : list Z) (ts0 ts : list Tab) :
  n0 <= g ->
  Forall2 (moved n0 G) ts0 ts ->
  Forall2 (moved n0 (G ++ ids)) ts0 (chrome.move_into ids g w ts).
Proof.
  intros Hg H. unfold chrome.move_into. apply Forall2_fmap_r.
  eapply Forall2_impl; [exact H|]. intros t0 t [Hid Hm]. unfold moved, compose.
  destruct (tab_id t0) as [i|] eqn:E0; rewrite Hid.
  - rewrite Z_mem_app. destruct (Z_mem i ids); cbn.
    + split; [reflexivity|]. now rewrite orb_true_r.
    + split; [exact Hid|]. now rewrite orb_false_r.
  - split; [exact Hid | exact Hm].
Qed.

Lemma create_groups_moved (entries : list (string * list Z)) (created : nat)
    (b : Browser) (created' : nat) (b1 : Browser) (n0 : Z) (G : list Z) (ts0 : list Tab) :
  for_each create_domain_group entries created b = (Ok created', b1) ->
  Forall2 (moved n0 G) ts0 (tabs b) -> n0 <= next_group_id b ->
  Forall2 (moved n0 (G ++ flat_map snd (List.filter big entries))) ts0 (tabs b1).
Proof.
  revert created b G. induction entries as [|e entries IH]; intros created b G Hrun Hm Hn.
  - cbn in Hrun. inversion Hrun; subst. cbn. now rewrite app_nil_r.
  - cbn [for_each] in Hrun. unfold await at 1 in Hrun.
    unfold GroupManager.create_domain_group at 1 in Hrun. cbn [List.filter].
    fold (big e) in Hrun. destruct (big e) eqn:Eb.
    + unfold await at 1, GroupManager.getRandomColor at 1 in Hrun.
      unfold await at 1 in Hrun.
      match type of Hrun with
      | context [GroupManager.createGroup ?ids ?t ?c ?st] =>
          destruct (GroupManager.createGroup ids t c st) as [[g|err] b'] eqn:Ecreate;
            [|discriminate]
      end.
      apply createGroup_ok in Ecreate as (Hg & Htabs & _ & _ & Hnext & _).
      cbn [next_group_id current_window tabs] in Hg, Htabs.
      unfold resolve at 1 in Hrun.
      cbn [flat_map]. rewrite app_assoc.
      apply (IH _ _ _ Hrun).
      * rewrite Htabs. apply moved_move_into; [lia | exact Hm].
      * lia.
    + unfold resolve at 1 in Hrun. now apply (IH _ _ _ Hrun).
Qed.

Lemma create_groups_none (entries : list (string * list Z)) (created : nat) (b : Browser) :
  Forall (fun e => (length (snd e) <= 1)%nat) entries ->
  for_each create_domain_group entries created b = (Ok created, b).
Proof.
  induction entries as [|e entries IH]; intros H; [reflexivity|].
  apply Forall_cons in H as [He H]. cbn [for_each]. unfold await.
  unfold GroupManager.create_domain_group at 1.
  destruct (Nat.ltb_spec 1 (length (snd e))); [lia|]. cbn. now apply IH.
Qed.

Lemma find_moved (n0 : Z) (G : list Z) (i : Z) (ts ts' : list Tab) :
  Forall2 (moved n0 G) ts ts' ->
  match List.find (chrome.tab_has_id i) ts with
  | Some t => exists t', List.find (chrome.tab_has_id i) ts' = Some t' /\ moved n0 G t t'
  | None => List.find (chrome.tab_has_id i) ts' = None
  end.
Proof.
  induction 1 as [|t t' ts ts' Hm Hts IH]; [reflexivity|].
  cbn [List.find]. destruct Hm as [Hid Hm].
  assert (E : chrome.tab_has_id i t' = chrome.tab_has_id i t)
    by (unfold chrome.tab_has_id; now rewrite Hid).
  rewrite E. destruct (chrome.tab_has_id i t); [|exact IH].
  exists t'. split; [reflexivity|]. now split.
Qed.

Lemma fetch_reads (tabIds : list Z) (b : Browser) (r : Result (list Tab)) (b' : Browser) :
  await_all chrome.tabs_get tabIds b = (r, b') -> b' = b.
Proof.
  revert r b'. induction tabIds as [|i tabIds IH]; intros r b' E.
  - cbn in E. now inversion E.
  - cbn [await_all] in E. unfold await at 1 in E. unfold chrome.tabs_get at 1 in E.
    destruct (List.find _ (tabs b)); [|now inversion E].
    unfold await at 1 in E.
    destruct (await_all chrome.tabs_get tabIds b) as [r' b''].
    specialize (IH _ _ eq_refl). subst b''. destruct r'; now inversion E.
Qed.

Lemma refetch (n0 : Z) (G : list Z) (tabIds : list Z) (b b1 : Browser) (ts1 : list Tab) :
  0 <= n0 ->
  Forall2 (moved n0 G) (tabs b) (tabs b1) ->
  await_all chrome.tabs_get tabIds b = (Ok ts1, b) ->
  exists ts2, await_all chrome.tabs_get tabIds b1 = (Ok ts2, b1) /\ Forall2 (rerun G) ts1 ts2.
Proof.
  intros H0 Hm. revert ts1. induction tabIds as [|i tabIds IH]; intros ts1 Hrun.
  - cbn in Hrun. inversion Hrun. exists []. split; [reflexivity | constructor].
  - cbn [await_all] in Hrun |- *. unfold await at 1 in Hrun. unfold await at 1.
    pose proof (find_moved n0 G i _ _ Hm) as Hfind.
    unfold chrome.tabs_get at 1 in Hrun. unfold chrome.tabs_get at 1.
    destruct (List.find (chrome.tab_has_id i) (tabs b)) as [t|] eqn:Et; [|discriminate].
    destruct Hfind as (t' & -> & [Hid Hmv]).
    unfold await at 1 in Hrun. unfold await at 1.
    destruct (await_all chrome.tabs_get tabIds b) as [[ts|e] b'] eqn:Erest; [|discriminate].
    apply fetch_reads in Erest as Hb. subst b'.
    destruct (IH ts eq_refl) as (ts2 & -> & Hts).
    inversion Hrun; subst ts1. exists (t' :: ts2). split; [reflexivity|].
    constructor; [|exact Hts].
    apply find_some in Et as [_ Ht]. unfold chrome.tab_has_id, option_Z_eqb in Ht.
    destruct (tab_id t) as [j|] eqn:Ej; [|discriminate]. apply Z.eqb_eq in Ht. subst j.
    exists i. split; [exact Ej|]. split; [congruence|].
    destruct (Z_mem i G); [|exact Hmv]. unfold TAB_GROUP_ID_NONE. lia.
Qed.

Lemma Object_entries_elem (e : string * list Z) (o : list (string * list Z)) :
  e ∈ GroupManager.Object_entries o <-> e ∈ o.
Proof.
  unfold GroupManager.Object_entries, JS.sort_compare.
  rewrite elem_of_app, sort_with_perm, !list_elem_of_In, !filter_In.
  destruct (GroupManager.is_array_index (fst e)); cbn; intuition congruence.
Qed.

(** Running the bulk operation again right after a run that resolved: no
    domain has two collected tabs left, no group is created, and the browser
    stays as the first run left it. *)
Lemma groupTabsByDomain_again (tabIds : list Z) (b : Browser) (message : string)
    (b1 : Browser) :
  0 <= next_group_id b ->
  groupTabsByDomain tabIds b = (Ok message, b1) ->
  groupTabsByDomain tabIds b1 =
    (Ok "No groups were created. There were no domains with multiple tabs.", b1).
Proof.
  intros Hn Hrun. unfold GroupManager.groupTabsByDomain in Hrun |- *.
  unfold await at 1 in Hrun.
  destruct (await_all chrome.tabs_get tabIds b) as [[ts1|e] b'] eqn:Efetch; [|discriminate].
  apply fetch_reads in Efetch as Hb. subst b'.
  set (DG1 := fold_left collect_domain ts1 []) in *.
  unfold await at 1 in Hrun.
  destruct (for_each create_domain_group (GroupManager.Object_entries DG1) 0%nat b)
    as [[created|e] b1'] eqn:Ecreate; [|discriminate].
  assert (b1' = b1) as -> by (destruct (created =? 0)%nat; now inversion Hrun).
  set (G := flat_map snd (List.filter big (GroupManager.Object_entries DG1))).
  assert (Hmoved : Forall2 (moved (next_group_id b) G) (tabs b) (tabs b1)).
  { apply (create_groups_moved _ _ _ _ _ (next_group_id b) [] (tabs b) Ecreate); [|lia].
    apply Forall_Forall2_diag, Forall_forall. intros t _. split; [reflexivity|].
    destruct (tab_id t); reflexivity. }
  destruct (refetch _ _ _ _ _ _ Hn Hmoved Efetch) as (ts2 & Efetch2 & Hrerun).
  unfold await at 1. rewrite Efetch2.
  set (DG2 := fold_left collect_domain ts2 []).
  assert (Hids : forall d, ids_of d DG2 =
                           List.filter (fun i => negb (Z_mem i G)) (ids_of d DG1)).
  { apply (collect_domain_rerun G ts1 ts2 [] [] Hrerun). reflexivity. }
  assert (Hsmall : Forall (fun e => (length (snd e) <= 1)%nat) (GroupManager.Object_entries DG2)).
  { apply Forall_forall. intros e He. apply (proj1 (Object_entries_elem _ _)) in He.
    rewrite (entry_ids_of e DG2) by (try apply collect_domain_keys; try constructor; exact He).
    rewrite Hids.
    destruct (Nat.leb_spec (length (ids_of (fst e) DG1)) 1) as [Hle|Hgt].
    - etransitivity; [apply filter_length_le | exact Hle].
    - (* a group was created for this domain: all of its tabs are in [G] *)
      assert (Hall : forall i, i ∈ ids_of (fst e) DG1 -> Z_mem i G = true).
      { intros i Hi. unfold ids_of in Hi, Hgt.
        destruct (List.find _ DG1) as [e1|] eqn:Efind; [|inversion Hi].
        apply find_some in Efind as [Hin1 _].
        unfold Z_mem. apply existsb_exists. exists i. split; [|apply Z.eqb_refl].
        unfold G. apply in_flat_map. exists e1. split; [|now apply list_elem_of_In].
        apply filter_In. split.
        - apply list_elem_of_In, Object_entries_elem. now apply list_elem_of_In.
        - unfold big. apply Nat.ltb_lt. lia. }
      replace (List.filter _ (ids_of (fst e) DG1)) with (@nil Z); [cbn; lia|].
      symmetry. clear -Hall. induction (ids_of (fst e) DG1) as [|i l IH]; [reflexivity|].
      cbn. rewrite (Hall i) by now left. cbn. apply IH. intros j Hj. apply Hall. now right. }
  unfold await at 1. rewrite (create_groups_none _ _ _ Hsmall). reflexivity.
Qed.

End DomainFacts.

Section SingleTabFacts.

Variable new_URL : string -> option URL.
Variable random_index : nat -> nat.

(** The test of the single-tab operation for a group to reuse. *)
Definition titled (domain : string) (group : TabGroup) : bool :=
  match group_title group with
  | Some t => String.eqb t domain
  | None => false
  end.

(** The single-tab operation reuses the first group of the tab's window
    whose title is the tab's domain: the tab is added to it and no group is
    created. *)
Lemma groupTabByDomain_reuses (tabId : Z) (b : Browser) (tab : Tab) (url domain : string)
    (window_groups : list TabGroup) (group : TabGroup) :
  chrome.tabs_get tabId b = (Ok tab, b) ->
  tab_groupId tab = TAB_GROUP_ID_NONE ->
  tab_url tab = Some url -> GroupManager.special_page (Some url) = false ->
  GroupManager.domain_of new_URL url = Some domain ->
  chrome.tabGroups_query (tab_windowId tab) b = (Ok window_groups, b) ->
  List.find (titled domain) window_groups = Some group ->
  exists b',
    GroupManager.groupTabByDomain new_URL random_index tabId b
      = (Ok (Some (group_id group)), b') /\
    next_group_id b' = next_group_id b /\
    groups b' = chrome.inhabited_groups (tabs b') (groups b) /\
    exists t, t ∈ tabs b' /\ tab_id t = Some tabId /\ tab_groupId t = group_id group.
Proof.
  intros Eget Hgrp Hurl Hsp Hdom Equery Hfind.
  unfold GroupManager.groupTabByDomain, await at 1. rewrite Eget.
  rewrite Hgrp, Hurl, Hsp, Z.eqb_refl. cbn [negb orb].
  rewrite Hdom. unfold await at 1, GroupManager.getGroupsInWindow. rewrite Equery.
  fold (titled domain). rewrite Hfind.
  unfold await at 1, GroupManager.addTabsToGroup. cbn [length Nat.eqb].
  unfold await at 1, chrome.tabs_group. cbn [length Nat.eqb].
  pose proof Eget as Eget'. apply tabs_get_reads in Eget' as [_ Htab].
  destruct (Htab tab eq_refl) as [Htin Htid].
  assert (Hexists : existsb (chrome.tab_has_id tabId) (tabs b) = true).
  { apply existsb_exists. exists tab. split; [now apply list_elem_of_In|].
    unfold chrome.tab_has_id. rewrite Htid. cbn. apply Z.eqb_refl. }
  cbn [forallb]. rewrite Hexists. cbn [andb negb].
  assert (Hin : group ∈ groups b).
  { apply find_some in Hfind as [Hin _]. unfold chrome.tabGroups_query in Equery.
    inversion Equery as [E]. destruct (tab_windowId tab).
    - rewrite <- E in Hin. apply filter_In in Hin as [Hin _]. now apply list_elem_of_In.
    - rewrite <- E in Hin. now apply list_elem_of_In. }
  destruct (List.find (fun x => Z.eqb (group_id x) (group_id group)) (groups b)) as [grp|] eqn:Eg.
  - eexists. split; [reflexivity|]. cbn. split; [reflexivity|]. split; [reflexivity|].
    eexists. split.
    + unfold chrome.move_into. apply list_elem_of_fmap. exists tab. split; [reflexivity|exact Htin].
    + rewrite Htid. cbn. rewrite Z.eqb_refl. cbn. now split.
  - exfalso. apply list_elem_of_In in Hin.
    apply (find_none _ _ Eg) in Hin. cbn in Hin. now rewrite Z.eqb_refl in Hin.
Qed.

End SingleTabFacts.

(** A window with a group titled [example.com] that holds tabs 1 and 2, and
    two ungrouped tabs 3 and 4 on the same domain. *)
Definition domain_browser : Browser :=
  mkBrowser
    [mkTab (Some 1) 0 (Some 1) (Some "https://example.com/a") (Some "A") 7;
     mkTab (Some 2) 1 (Some 1) (Some "https://example.com/b") (Some "B") 7;
     mkTab (Some 3) 2 (Some 1) (Some "https://example.com/c") (Some "C") TAB_GROUP_ID_NONE;
     mkTab (Some 4) 3 (Some 1) (Some "https://www.example.com/d") (Some "D") TAB_GROUP_ID_NONE]
    [mkTabGroup 7 1 (Some "example.com") blue false]
    1 8 0.



Definition domain_run : Result string * Browser :=
  GroupManager.groupTabsByDomain URLModel.parse (fun n => n) [3; 4] domain_browser.


(** ** The topic-suggestion parser *)

(** *** Strings *)

Lemma append_nil_r (s : string) : s ++ "" = s.
Proof. induction s as [|c s IH]; [reflexivity|]. rewrite append_cons. now f_equal. Qed.

Lemma length_append (a b : string) :
  String.length (a ++ b) = (String.length a + String.length b)%nat.
Proof. induction a as [|c a IH]; [reflexivity|]. rewrite append_cons. cbn. now f_equal. Qed.

Lemma append_inv_head (a b c : string) : a ++ b = a ++ c -> b = c.
Proof.
  induction a as [|x a IH]; [now rewrite !append_nil_l|].
  rewrite !append_cons. intros H. inversion H. now apply IH.
Qed.

Lemma truthy_cons (c : ascii) (s : string) : JS.truthy (String c s) = true.
Proof. reflexivity. Qed.

Lemma truthy_true (s : string) : JS.truthy s = true <-> s <> "".
Proof. destruct s; cbn; split; congruence. Qed.

(** Does the character occur in the string? *)
Fixpoint has_char (c : ascii) (s : string) : bool :=
  match s with
  | EmptyString => false
  | String x rest => Ascii.eqb x c || has_char c rest
  end.

Lemma has_char_append (c : ascii) (a b : string) :
  has_char c (a ++ b) = has_char c a || has_char c b.
Proof.
  induction a as [|x a IH]; [reflexivity|].
  rewrite append_cons. cbn. rewrite IH. now rewrite orb_assoc.
Qed.

Lemma all_chars_append (p : ascii -> bool) (a b : string) :
  JS.all_chars p (a ++ b) = JS.all_chars p a && JS.all_chars p b.
Proof.
  induction a as [|x a IH]; [reflexivity|].
  rewrite append_cons. cbn. rewrite IH. now rewrite andb_assoc.
Qed.

Lemma all_chars_has_char (p : ascii -> bool) (c : ascii) (s : string) :
  JS.all_chars p s = true -> p c = false -> has_char c s = false.
Proof.
  intros Hall Hc. induction s as [|x s IH]; [reflexivity|].
  cbn in Hall |- *. apply andb_true_iff in Hall as [Hx Hs].
  rewrite (IH Hs), orb_false_r. destruct (Ascii.eqb_spec x c); [congruence | reflexivity].
Qed.

(** The text before the first occurrence of a character is unique. *)
Lemma first_char_unique (c : ascii) (a a' r r' : string) :
  has_char c a = false -> has_char c a' = false ->
  a ++ String c r = a' ++ String c r' -> a = a' /\ r = r'.
Proof.
  revert a'. induction a as [|x a IH]; intros [|y a'] Ha Ha' E;
    rewrite ?append_cons, ?append_nil_l in E.
  - inversion E. now split.
  - inversion E; subst y. cbn in Ha'. now rewrite Ascii.eqb_refl in Ha'.
  - inversion E; subst x. cbn in Ha. now rewrite Ascii.eqb_refl in Ha.
  - inversion E; subst y. cbn in Ha, Ha'.
    apply orb_false_iff in Ha as [_ Ha]. apply orb_false_iff in Ha' as [_ Ha'].
    destruct (IH a' Ha Ha') as [-> ->]; [assumption|]. now split.
Qed.

(** The last character, or [d] for the empty string. *)
Fixpoint last_of (s : string) (d : option ascii) : option ascii :=
  match s with
  | EmptyString => d
  | String c rest => last_of rest (Some c)
  end.

Lemma last_of_append (a b : string) (d : option ascii) :
  last_of (a ++ b) d = last_of b (last_of a d).
Proof.
  revert d. induction a as [|x a IH]; intros d; [reflexivity|].
  rewrite append_cons. cbn. apply IH.
Qed.

Lemma strip_prefix_append (lit r : string) : JS.strip_prefix lit (lit ++ r) = Some r.
Proof.
  induction lit as [|a lit IH]; [reflexivity|].
  rewrite append_cons. cbn. now rewrite Ascii.eqb_refl.
Qed.

Lemma strip_prefix_Some (lit s r : string) : JS.strip_prefix lit s = Some r -> s = lit ++ r.
Proof.
  revert s. induction lit as [|a lit IH]; intros s H; cbn in H.
  - now inversion H.
  - destruct s as [|b s]; [discriminate|].
    destruct (Ascii.eqb_spec a b) as [->|]; [|discriminate].
    rewrite append_cons. f_equal. now apply IH.
Qed.

Lemma span_spec (p : ascii -> bool) (s : string) :
  s = fst (JS.span p s) ++ snd (JS.span p s) /\
  JS.all_chars p (fst (JS.span p s)) = true.
Proof.
  induction s as [|c s [IH1 IH2]]; [now split|].
  cbn. destruct (p c) eqn:E; cbn.
  - rewrite append_cons. split; [now f_equal|]. now rewrite E, IH2.
  - now split.
Qed.

(** A run of characters that satisfy [p], followed by the end or by a
    character that does not. *)
Lemma span_run (p : ascii -> bool) (a r : string) :
  JS.all_chars p a = true ->
  match r with
  | EmptyString => True
  | String c _ => p c = false
  end ->
  JS.span p (a ++ r) = (a, r).
Proof.
  intros Ha Hr. induction a as [|x a IH].
  - rewrite append_nil_l. destruct r as [|c r]; [reflexivity|]. cbn. now rewrite Hr.
  - cbn in Ha. apply andb_true_iff in Ha as [Hx Ha].
    rewrite append_cons. cbn. rewrite Hx, (IH Ha). reflexivity.
Qed.

(** *** Headings *)

Definition no_colon (s : string) : bool := negb (has_char ":" s).

(** What a heading match consists of: the text up to its colon is
    [Group <digits> Name] or [<letters> Group]. *)
Lemma heading_rest_shape (line_start : bool) (s after : string) :
  LLMService.heading_rest line_start s = Some after ->
  exists body, s = body ++ String ":" after /\ no_colon body = true /\
    ((last_of body None = Some "e"%char /\
        exists ds, JS.all_chars JS.is_digit ds = true /\ body = "Group " ++ ds ++ " Name") \/
     last_of body None = Some "p"%char).
Proof.
  unfold LLMService.heading_rest.
  destruct (JS.strip_prefix "Group " s) as [s1|] eqn:E1.
  - destruct (JS.truthy (fst (JS.span JS.is_digit s1))) eqn:Et.
    + destruct (JS.strip_prefix " Name:" (snd (JS.span JS.is_digit s1))) as [r|] eqn:E2.
      * intros H. inversion H; subst r. clear H.
        apply strip_prefix_Some in E1, E2.
        destruct (span_spec JS.is_digit s1) as [Hs1 Hds].
        set (ds := fst (JS.span JS.is_digit s1)) in *.
        exists ("Group " ++ ds ++ " Name"). split; [|split].
        -- rewrite E1, Hs1, E2. now rewrite !append_assoc.
        -- unfold no_colon. rewrite !has_char_append.
           now rewrite (all_chars_has_char JS.is_digit ":" ds Hds eq_refl).
        -- left. split; [now rewrite !last_of_append|]. now exists ds.
      * (* the numbered form failed after its digits: try the other form *)
        destruct line_start; [|discriminate].
        destruct (JS.truthy (fst (JS.span JS.is_alpha s))); [|discriminate].
        intros E3. apply strip_prefix_Some in E3.
        destruct (span_spec JS.is_alpha s) as [Hs HL].
        set (L := fst (JS.span JS.is_alpha s)) in *.
        exists (L ++ " Group"). split; [|split].
        -- rewrite Hs at 1. rewrite E3. now rewrite !append_assoc.
        -- unfold no_colon. rewrite has_char_append.
           now rewrite (all_chars_has_char JS.is_alpha ":" L HL eq_refl).
        -- right. now rewrite last_of_append.
    + destruct line_start; [|discriminate].
      destruct (JS.truthy (fst (JS.span JS.is_alpha s))); [|discriminate].
      intros E3. apply strip_prefix_Some in E3.
      destruct (span_spec JS.is_alpha s) as [Hs HL].
      set (L := fst (JS.span JS.is_alpha s)) in *.
      exists (L ++ " Group"). split; [|split].
      * rewrite Hs at 1. rewrite E3. now rewrite !append_assoc.
      * unfold no_colon. rewrite has_char_append.
        now rewrite (all_chars_has_char JS.is_alpha ":" L HL eq_refl).
      * right. now rewrite last_of_append.
  - destruct line_start; [|discriminate].
    destruct (JS.truthy (fst (JS.span JS.is_alpha s))); [|discriminate].
    intros E3. apply strip_prefix_Some in E3.
    destruct (span_spec JS.is_alpha s) as [Hs HL].
    set (L := fst (JS.span JS.is_alpha s)) in *.
    exists (L ++ " Group"). split; [|split].
    + rewrite Hs at 1. rewrite E3. now rewrite !append_assoc.
    + unfold no_colon. rewrite has_char_append.
      now rewrite (all_chars_has_char JS.is_alpha ":" L HL eq_refl).
    + right. now rewrite last_of_append.
Qed.

Lemma no_heading_plain (line_start : bool) (u rest : string) :
  no_colon u = true ->
  last_of u None <> Some "e"%char -> last_of u None <> Some "p"%char ->
  LLMService.heading_rest line_start (u ++ String ":" rest) = None.
Proof.
  intros Hu He Hp.
  destruct (LLMService.heading_rest line_start (u ++ String ":" rest)) as [after|] eqn:E;
    [|reflexivity].
  apply heading_rest_shape in E as (body & Hs & Hb & Hshape).
  unfold no_colon in Hu, Hb. apply negb_true_iff in Hu, Hb.
  destruct (first_char_unique ":" u body rest after Hu Hb Hs) as [<- _].
  destruct Hshape as [[H _]|H]; contradiction.
Qed.

Lemma no_heading_before (line_start : bool) (a : ascii) (v ds rest : string) :
  no_colon (String a v) = true -> JS.all_chars JS.is_digit ds = true ->
  LLMService.heading_rest line_start
    (String a v ++ "Group " ++ ds ++ " Name" ++ String ":" rest) = None.
Proof.
  intros Hu Hds.
  match goal with
  | |- ?lhs = None => destruct lhs as [after|] eqn:E; [|reflexivity]
  end.
  apply heading_rest_shape in E as (body & Hs & Hb & Hshape).
  unfold no_colon in Hu, Hb. apply negb_true_iff in Hu, Hb.
  assert (Hu' : has_char ":" (String a v ++ "Group " ++ ds ++ " Name") = false).
  { rewrite !has_char_append, Hu.
    now rewrite (all_chars_has_char JS.is_digit ":" ds Hds eq_refl). }
  rewrite <- !append_assoc in Hs. rewrite !append_assoc in Hs.
  replace (String a v ++ "Group " ++ ds ++ " Name" ++ String ":" rest)
    with ((String a v ++ "Group " ++ ds ++ " Name") ++ String ":" rest) in Hs
    by now rewrite !append_assoc.
  destruct (first_char_unique ":" _ body rest after Hu' Hb Hs) as [<- _].
  destruct Hshape as [[_ (ds' & Hds' & Heq)]|H].
  - rewrite append_cons in Heq. inversion Heq as [[Ha Hv]].
    assert (HG : has_char "G" (v ++ "Group " ++ ds ++ " Name") = true).
    { rewrite !has_char_append. cbn. now rewrite orb_true_r. }
    rewrite Hv in HG. rewrite !has_char_append in HG.
    rewrite (all_chars_has_char JS.is_digit "G" ds' Hds' eq_refl) in HG. discriminate.
  - rewrite !last_of_append in H. discriminate.
Qed.

Lemma no_heading_without_colon (line_start : bool) (s : string) :
  no_colon s = true -> LLMService.heading_rest line_start s = None.
Proof.
  intros Hs. destruct (LLMService.heading_rest line_start s) as [after|] eqn:E; [|reflexivity].
  apply heading_rest_shape in E as (body & -> & _).
  unfold no_colon in Hs. rewrite has_char_append in Hs. cbn in Hs.
  now rewrite orb_true_r in Hs.
Qed.

Lemma heading_here (line_start : bool) (ds rest : string) :
  JS.truthy ds = true -> JS.all_chars JS.is_digit ds = true ->
  LLMService.heading_rest line_start ("Group " ++ ds ++ " Name:" ++ rest) = Some rest.
Proof.
  intros Ht Hds. unfold LLMService.heading_rest.
  rewrite strip_prefix_append.
  rewrite (span_run JS.is_digit ds (" Name:" ++ rest) Hds) by reflexivity.
  cbn [fst snd]. rewrite Ht. now rewrite strip_prefix_append.
Qed.

(** *** Splitting at the headings *)

(** Whether the position after the text [m] starts a line. *)
Definition line_flag (line_start : bool) (m : string) : bool :=
  match last_of m None with
  | Some c => JS.is_line_terminator c
  | None => line_start
  end.

Lemma line_flag_cons (line_start : bool) (c : ascii) (m : string) :
  line_flag line_start (String c m) = line_flag (JS.is_line_terminator c) m.
Proof.
  unfold line_flag. cbn.
  destruct m as [|x m]; [reflexivity|]. cbn.
  revert x. induction m as [|y m IH]; intros x; [reflexivity|]. cbn. apply IH.
Qed.

Lemma split_skip (m rest cur : string) (line_start : bool) :
  LLMService.split_headings (String.length m) line_start (m ++ rest) cur =
  LLMService.split_headings 0 (line_flag line_start m) rest cur.
Proof.
  revert line_start. induction m as [|c m IH]; intros line_start; [reflexivity|].
  rewrite append_cons. cbn [String.length LLMService.split_headings].
  rewrite IH. now rewrite line_flag_cons.
Qed.

Lemma split_plain (c tail cur : string) (line_start : bool) :
  (forall p u, c = p ++ u -> u <> "" ->
     forall flag, LLMService.heading_rest flag (u ++ tail) = None) ->
  LLMService.split_headings 0 line_start (c ++ tail) cur =
  LLMService.split_headings 0 (line_flag line_start c) tail (cur ++ c).
Proof.
  revert cur line_start. induction c as [|x c IH]; intros cur line_start Hno.
  - rewrite append_nil_l, append_nil_r. reflexivity.
  - rewrite append_cons. cbn [LLMService.split_headings].
    rewrite <- append_cons. rewrite (Hno "" (String x c)) by (try reflexivity; congruence).
    rewrite IH.
    + rewrite line_flag_cons. f_equal. rewrite append_assoc. reflexivity.
    + intros p u Hc Hu flag. apply (Hno (String x p) u); [|exact Hu].
      rewrite append_cons. now f_equal.
Qed.

Lemma split_heading (ds rest cur : string) (line_start : bool) :
  JS.truthy ds = true -> JS.all_chars JS.is_digit ds = true ->
  LLMService.split_headings 0 line_start ("Group " ++ ds ++ " Name:" ++ rest) cur =
  cur :: LLMService.split_headings 0 false rest "".
Proof.
  intros Ht Hds.
  change ("Group " ++ ds ++ " Name:" ++ rest)
    with (String "G" ("roup " ++ ds ++ " Name:" ++ rest)).
  cbn [LLMService.split_headings].
  change (String "G" ("roup " ++ ds ++ " Name:" ++ rest))
    with ("Group " ++ ds ++ " Name:" ++ rest).
  rewrite (heading_here line_start ds rest Ht Hds). f_equal.
  replace ("roup " ++ ds ++ " Name:" ++ rest) with (("roup " ++ ds ++ " Name:") ++ rest)
    by now rewrite !append_assoc.
  rewrite length_append, Nat.add_sub, split_skip.
  unfold line_flag. now rewrite !last_of_append.
Qed.

Lemma split_stretch (c tail cur : string) (line_start : bool) :
  no_colon c = true ->
  last_of c None <> Some "e"%char -> last_of c None <> Some "p"%char ->
  LLMService.split_headings 0 line_start (c ++ String ":" tail) cur =
  LLMService.split_headings 0 false tail (cur ++ c ++ ":").
Proof.
  revert cur line_start. induction c as [|x c IH]; intros cur line_start Hc He Hp.
  - rewrite !append_nil_l. cbn [LLMService.split_headings].
    change (String ":" tail) with ("" ++ String ":" tail).
    rewrite no_heading_plain by (try reflexivity; discriminate). reflexivity.
  - rewrite append_cons. cbn [LLMService.split_headings]. rewrite <- append_cons.
    rewrite (no_heading_plain _ (String x c) tail Hc He Hp).
    assert (Hc' : no_colon c = true).
    { unfold no_colon in *. cbn in Hc. apply negb_true_iff in Hc.
      apply orb_false_iff in Hc as [_ Hc]. now rewrite Hc. }
    assert (Hlast : c = "" \/ last_of c None = last_of (String x c) None).
    { destruct c as [|y c]; [now left|]. right. reflexivity. }
    rewrite IH; try assumption.
    + f_equal. now rewrite !append_assoc.
    + destruct Hlast as [-> | ->]; [discriminate | assumption].
    + destruct Hlast as [-> | ->]; [discriminate | assumption].
Qed.

(** *** Completions in the requested format *)

Definition nl : string := String "010" "".

(** One section of a completion: the number of its heading, the suggested
    name, the listed identifiers as written, and the reason. *)
Record Suggestion : Type := mkSuggestion {
  sg_number : string;
  sg_name : string;
  sg_ids : list string;
  sg_reason : string
}.

(** The text of a section after its heading. *)
Definition section_body (s : Suggestion) : string :=
  " " ++ sg_name s ++ nl ++ "- Tab IDs: " ++ JS.join ", " (sg_ids s) ++ nl ++
  "- Reason: " ++ sg_reason s ++ nl ++ nl.

Definition section_text (s : Suggestion) : string :=
  "Group " ++ sg_number s ++ " Name:" ++ section_body s.

(** A completion: some introduction, then the sections. *)
Definition completion (intro : string) (l : list Suggestion) : string :=
  intro ++ fold_right (fun s rest => section_text s ++ rest) "" l.

Definition is_number (s : string) : bool := JS.truthy s && JS.all_chars JS.is_digit s.

(** A name fills one line, has no white space at its ends and no colon. *)
Definition tidy_name (s : string) : bool :=
  match s with
  | String c _ => negb (JS.is_space c)
  | EmptyString => false
  end &&
  match last_of s None with
  | Some c => negb (JS.is_space c)
  | None => false
  end &&
  no_colon s && negb (has_char "010" s).

(** A section is well formed when its heading number and its identifiers
    are decimal numbers, its name is tidy and its reason has no colon. *)
Definition well_formed (s : Suggestion) : bool :=
  is_number (sg_number s) && tidy_name (sg_name s) &&
  forallb is_number (sg_ids s) && no_colon (sg_reason s).

Lemma no_colon_append (a b : string) : no_colon (a ++ b) = no_colon a && no_colon b.
Proof. unfold no_colon. rewrite has_char_append. now destruct (has_char ":" a). Qed.

Lemma no_colon_suffix (p u : string) : no_colon (p ++ u) = true -> no_colon u = true.
Proof. rewrite no_colon_append. intros H. now apply andb_true_iff in H as [_ H]. Qed.

Lemma no_colon_join (ids : list string) :
  forallb is_number ids = true -> no_colon (JS.join ", " ids) = true.
Proof.
  induction ids as [|t ids IH]; [reflexivity|]. intros H. cbn in H.
  apply andb_true_iff in H as [Ht Hids]. unfold is_number in Ht.
  apply andb_true_iff in Ht as [_ Ht].
  assert (Hc : no_colon t = true).
  { unfold no_colon. now rewrite (all_chars_has_char JS.is_digit ":" t Ht eq_refl). }
  cbn [JS.join]. destruct ids as [|t' ids]; [exact Hc|].
  rewrite !no_colon_append, Hc, (IH Hids). reflexivity.
Qed.

Lemma split_completion (l : list Suggestion) (pre cur : string) (line_start : bool) :
  no_colon pre = true -> forallb well_formed l = true ->
  LLMService.split_headings 0 line_start (completion pre l) cur =
  (cur ++ pre) :: map section_body l.
Proof.
  revert pre cur line_start. induction l as [|s l IH]; intros pre cur line_start Hpre Hwf.
  - unfold completion. cbn [fold_right map].
    rewrite split_plain.
    + reflexivity.
    + intros p u Hc Hu flag. rewrite append_nil_r. apply no_heading_without_colon.
      rewrite Hc in Hpre. now apply no_colon_suffix in Hpre.
  - cbn [forallb] in Hwf. apply andb_true_iff in Hwf as [Hs Hl].
    unfold well_formed in Hs.
    apply andb_true_iff in Hs as [Hs Hreason]. apply andb_true_iff in Hs as [Hs Hids].
    apply andb_true_iff in Hs as [Hnum Hname].
    unfold is_number in Hnum. apply andb_true_iff in Hnum as [Hnt Hnd].
    unfold tidy_name in Hname.
    apply andb_true_iff in Hname as [Hname Hnonl]. apply andb_true_iff in Hname as [Hname Hnc].
    unfold completion. cbn [fold_right map]. unfold section_text at 1.
    rewrite !append_assoc.
    (* no heading starts inside [pre] *)
    rewrite split_plain.
    2:{ intros p u Hc Hu flag. destruct u as [|a v]; [congruence|].
        rewrite Hc in Hpre. apply no_colon_suffix in Hpre.
        change (" Name:" ++ section_body s ++ fold_right (fun s0 rest => section_text s0 ++ rest) "" l)
          with (" Name" ++ String ":" (section_body s ++
                  fold_right (fun s0 rest => section_text s0 ++ rest) "" l)).
        now apply no_heading_before. }
    rewrite (split_heading _ _ _ _ Hnt Hnd). f_equal.
    (* the section itself, up to the end of its reason line *)
    unfold section_body at 1.
    set (rest := fold_right (fun s0 rest => section_text s0 ++ rest) "" l).
    replace ((" " ++ sg_name s ++ nl ++ "- Tab IDs: " ++ JS.join ", " (sg_ids s) ++ nl ++
              "- Reason: " ++ sg_reason s ++ nl ++ nl) ++ rest)
      with ((" " ++ sg_name s ++ nl ++ "- Tab IDs") ++ String ":"
              ((" " ++ JS.join ", " (sg_ids s) ++ nl ++ "- Reason") ++ String ":"
                 (completion (" " ++ sg_reason s ++ nl ++ nl) l))).
    2:{ unfold completion. fold rest. rewrite !append_assoc. reflexivity. }
    rewrite split_stretch.
    2:{ rewrite !no_colon_append, Hnc. reflexivity. }
    2:{ rewrite !last_of_append. discriminate. }
    2:{ rewrite !last_of_append. discriminate. }
    rewrite split_stretch.
    2:{ rewrite !no_colon_append, (no_colon_join _ Hids). reflexivity. }
    2:{ rewrite !last_of_append. discriminate. }
    2:{ rewrite !last_of_append. discriminate. }
    rewrite IH; [|rewrite !no_colon_append, Hreason; reflexivity | exact Hl].
    f_equal. unfold section_body. rewrite !append_assoc. reflexivity.
Qed.

(** *** One section *)

Lemma trim_end_keep (s : string) (c : ascii) :
  last_of s None = Some c -> JS.is_space c = false -> JS.trim_end s = s.
Proof.
  intros Hlast Hc. induction s as [|x s IH]; [discriminate|].
  cbn [JS.trim_end]. destruct s as [|y s].
  - cbn in Hlast. inversion Hlast; subst x. cbn. now rewrite Hc.
  - rewrite IH by exact Hlast. cbn. now rewrite andb_false_r.
Qed.

Lemma trim_end_append (a b : string) :
  JS.truthy (JS.trim_end b) = true -> JS.trim_end (a ++ b) = a ++ JS.trim_end b.
Proof.
  intros Hb. induction a as [|x a IH]; [reflexivity|].
  rewrite !append_cons. cbn [JS.trim_end]. rewrite IH.
  assert (Ht : JS.truthy (a ++ JS.trim_end b) = true).
  { destruct a; [exact Hb | reflexivity]. }
  rewrite Ht. cbn. now rewrite andb_false_r.
Qed.

Lemma all_chars_no_newline (s : string) :
  has_char "010" s = false -> JS.all_chars (fun c => negb (JS.is_newline c)) s = true.
Proof.
  induction s as [|x s IH]; [reflexivity|]. cbn. unfold JS.is_newline at 1.
  intros H. apply orb_false_iff in H as [Hx Hs]. now rewrite Hx, IH.
Qed.

(** The capture of [lit([^\n]+)] when the literal first occurs after [pre]
    and is followed by the line [cap]. *)
Lemma capture_found (lit pre cap rest : string) :
  (forall p u, pre = p ++ u -> u <> "" ->
     JS.strip_prefix lit (u ++ lit ++ cap ++ nl ++ rest) = None) ->
  JS.truthy cap = true -> has_char "010" cap = false ->
  LLMService.capture [lit] (pre ++ lit ++ cap ++ nl ++ rest) = Some cap.
Proof.
  intros Hno Hcap Hnl. induction pre as [|x pre IH].
  - rewrite append_nil_l.
    assert (Hhere : LLMService.capture_here [lit] (lit ++ cap ++ nl ++ rest) = Some cap).
    { cbn [LLMService.capture_here]. rewrite strip_prefix_append.
      rewrite (span_run (fun c => negb (JS.is_newline c)) cap (nl ++ rest)
                 (all_chars_no_newline _ Hnl)) by reflexivity.
      cbn [fst]. now rewrite Hcap. }
    destruct (lit ++ cap ++ nl ++ rest) as [|y s]; cbn [LLMService.capture];
      now rewrite Hhere.
  - rewrite append_cons. cbn [LLMService.capture LLMService.capture_here].
    rewrite <- append_cons.
    rewrite (Hno "" (String x pre)) by (try reflexivity; congruence).
    apply IH. intros p u Hpre Hu. apply (Hno (String x p) u); [|exact Hu].
    rewrite append_cons. now f_equal.
Qed.

Lemma ordinals_none (s : string) : has_char "T" s = false -> LLMService.ordinals s = [].
Proof.
  induction s as [|x s IH]; [reflexivity|]. intros H.
  pose proof H as H'. cbn in H'. apply orb_false_iff in H' as [Hx Hs].
  cbn [LLMService.ordinals]. unfold LLMService.ordinal_here.
  cbn [JS.strip_prefix]. rewrite Ascii.eqb_sym, Hx. now apply IH.
Qed.

Lemma digit_is_no_separator (x : ascii) :
  JS.is_digit x = true -> JS.is_list_separator x = false /\ JS.is_space x = false.
Proof.
  destruct x as [[] [] [] [] [] [] [] []]; cbn; try discriminate; now split.
Qed.

Lemma split_list_digits (t r cur : string) :
  JS.all_chars JS.is_digit t = true ->
  JS.split_list (t ++ r) cur false = JS.split_list r (cur ++ t) false.
Proof.
  revert cur. induction t as [|x t IH]; intros cur Ht.
  - now rewrite append_nil_l, append_nil_r.
  - cbn in Ht. apply andb_true_iff in Ht as [Hx Ht].
    rewrite append_cons. cbn [JS.split_list].
    rewrite (proj1 (digit_is_no_separator x Hx)). rewrite IH by exact Ht.
    f_equal. now rewrite append_assoc.
Qed.

Lemma split_list_number (t r : string) (flag : bool) :
  is_number t = true -> JS.split_list (t ++ r) "" flag = JS.split_list r t false.
Proof.
  unfold is_number. intros H. apply andb_true_iff in H as [Ht Hd].
  destruct t as [|x t]; [discriminate|].
  cbn in Hd. apply andb_true_iff in Hd as [Hx Hd].
  rewrite append_cons. cbn [JS.split_list].
  rewrite (proj1 (digit_is_no_separator x Hx)).
  rewrite append_nil_l. now rewrite split_list_digits.
Qed.

Lemma join_cons2 (sep t t2 : string) (ts : list string) :
  JS.join sep (t :: t2 :: ts) = t ++ sep ++ JS.join sep (t2 :: ts).
Proof. reflexivity. Qed.

Lemma split_list_join (t : string) (ts : list string) (flag : bool) :
  forallb is_number (t :: ts) = true ->
  JS.split_list (JS.join ", " (t :: ts)) "" flag = t :: ts.
Proof.
  revert t flag. induction ts as [|t2 ts IH]; intros t flag H;
    cbn [forallb] in H; apply andb_true_iff in H as [Ht Hts].
  - cbn [JS.join]. rewrite <- (append_nil_r t) at 1.
    now rewrite split_list_number.
  - rewrite join_cons2, split_list_number by exact Ht.
    change (", " ++ JS.join ", " (t2 :: ts))
      with (String "," (String " " (JS.join ", " (t2 :: ts)))).
    cbn [JS.split_list]. unfold JS.is_list_separator at 1 2. cbn [Ascii.eqb orb].
    change (JS.is_space " ") with true. cbn [orb]. f_equal. now apply IH.
Qed.

Lemma parseInt_number (t : string) :
  is_number t = true -> JS.parseInt t = Some (JS.digits_value t 0).
Proof.
  unfold is_number. intros H. apply andb_true_iff in H as [Ht Hd].
  destruct t as [|x t]; [discriminate|].
  pose proof Hd as Hd'. cbn in Hd'. apply andb_true_iff in Hd' as [Hx _].
  unfold JS.parseInt. cbn [JS.trim_start].
  rewrite (proj2 (digit_is_no_separator x Hx)).
  assert (Hsign : (match String x t with
                   | String "-" rest => (true, rest)
                   | String "+" rest => (false, rest)
                   | _ => (false, String x t)
                   end) = (false, String x t)).
  { destruct x as [[] [] [] [] [] [] [] []]; cbn in Hx; try discriminate; reflexivity. }
  rewrite Hsign. cbn [fst snd].
  assert (Hspan : JS.span JS.is_digit (String x t) = (String x t, "")).
  { pose proof (span_run JS.is_digit (String x t) "" Hd I) as H.
    now rewrite append_nil_r in H. }
  rewrite Hspan. reflexivity.
Qed.

Lemma parseInt_numbers (ts : list string) :
  forallb is_number ts = true ->
  omap JS.parseInt ts = map (fun t => JS.digits_value t 0) ts.
Proof.
  induction ts as [|t ts IH]; [reflexivity|]. intros H. cbn [forallb] in H.
  apply andb_true_iff in H as [Ht Hts]. cbn. rewrite (parseInt_number t Ht). cbn.
  now rewrite IH.
Qed.

Definition list_char (c : ascii) : bool :=
  JS.is_digit c || Ascii.eqb c "," || Ascii.eqb c " ".

Lemma join_list_chars (ids : list string) :
  forallb is_number ids = true -> JS.all_chars list_char (JS.join ", " ids) = true.
Proof.
  assert (Hnum : forall t, is_number t = true -> JS.all_chars list_char t = true).
  { intros t H. unfold is_number in H. apply andb_true_iff in H as [_ H].
    induction t as [|x t IH]; [reflexivity|]. cbn in H |- *.
    apply andb_true_iff in H as [Hx Ht]. unfold list_char at 1. rewrite Hx. cbn. now apply IH. }
  induction ids as [|t ids IH]; [reflexivity|]. intros H. cbn [forallb] in H.
  apply andb_true_iff in H as [Ht Hids].
  destruct ids as [|t2 ids]; [now apply Hnum|].
  rewrite join_cons2, !all_chars_append, (Hnum t Ht), (IH Hids). reflexivity.
Qed.

Lemma join_ends_with_digit (t : string) (ts : list string) :
  forallb is_number (t :: ts) = true ->
  exists d, last_of (JS.join ", " (t :: ts)) None = Some d /\ JS.is_digit d = true.
Proof.
  assert (Hnum : forall t d0, is_number t = true ->
            exists d, last_of t d0 = Some d /\ JS.is_digit d = true).
  { intros u d0 H. unfold is_number in H. apply andb_true_iff in H as [Hu H].
    destruct u as [|x u]; [discriminate|]. clear Hu. cbn [last_of].
    revert x H. induction u as [|y u IH]; intros x H; cbn in H.
    - exists x. split; [reflexivity|]. now apply andb_true_iff in H as [H _].
    - cbn [last_of]. apply IH. now apply andb_true_iff in H as [_ H]. }
  revert t. induction ts as [|t2 ts IH]; intros t H; cbn [forallb] in H;
    apply andb_true_iff in H as [Ht Hts].
  - now apply Hnum.
  - rewrite join_cons2, !last_of_append.
    destruct (IH t2 Hts) as (d & Hd & Hdig).
    exists d. split; [|exact Hdig].
    destruct (JS.join ", " (t2 :: ts)) as [|x r] eqn:E; [discriminate|]. exact Hd.
Qed.

(** The group that a section of a completion suggests for a batch: its name
    with the listed identifiers that belong to the batch, provided at least
    two of them do. *)
Definition suggested (tabBatch : list TabDetail) (s : Suggestion) : option LLMService.TabGroup :=
  let ids := List.filter (fun id => Z_mem id (map detail_id tabBatch))
                         (map (fun t => JS.digits_value t 0) (sg_ids s)) in
  if (2 <=? length ids)%nat then Some (LLMService.mkTabGroup (sg_name s) ids None) else None.

Lemma parse_section (tabBatch : list TabDetail) (groups : list LLMService.TabGroup)
    (s : Suggestion) :
  well_formed s = true ->
  LLMService.parse_piece tabBatch groups (section_body s) =
  match suggested tabBatch s with
  | Some g => (groups ++ [g])%list
  | None => groups
  end.
Proof.
  intros Hs. unfold well_formed in Hs.
  apply andb_true_iff in Hs as [Hs Hreason]. apply andb_true_iff in Hs as [Hs Hids].
  apply andb_true_iff in Hs as [_ Hname]. unfold tidy_name in Hname.
  apply andb_true_iff in Hname as [Hname Hnonl]. apply andb_true_iff in Hname as [Hname Hnc].
  apply andb_true_iff in Hname as [Hfirst Hlast].
  apply negb_true_iff in Hnonl.
  destruct (sg_name s) as [|c n] eqn:En; [discriminate|].
  apply negb_true_iff in Hfirst.
  destruct (last_of (String c n) None) as [e|] eqn:Ee; [|discriminate].
  apply negb_true_iff in Hlast.
  set (idlist := JS.join ", " (sg_ids s)).
  pose proof (join_list_chars _ Hids) as Hchars. fold idlist in Hchars.
  assert (Hidnl : has_char "010" idlist = false)
    by exact (all_chars_has_char list_char "010" idlist Hchars eq_refl).
  assert (HidT : has_char "T" idlist = false)
    by exact (all_chars_has_char list_char "T" idlist Hchars eq_refl).
  set (tail := JS.trim_end (" " ++ sg_reason s ++ nl ++ nl)).
  (* the trimmed piece *)
  assert (Htext : JS.trim (section_body s) =
                  (String c n ++ nl ++ "- ") ++ "Tab IDs:" ++ (" " ++ idlist) ++ nl ++
                  ("- Reason" ++ String ":" tail)).
  { unfold JS.trim, section_body. rewrite En. fold idlist.
    change (JS.trim_start (" " ++ String c n ++ nl ++ "- Tab IDs: " ++ idlist ++ nl ++
                           "- Reason: " ++ sg_reason s ++ nl ++ nl))
      with (if JS.is_space c
            then JS.trim_start (n ++ nl ++ "- Tab IDs: " ++ idlist ++ nl ++
                                "- Reason: " ++ sg_reason s ++ nl ++ nl)
            else String c n ++ nl ++ "- Tab IDs: " ++ idlist ++ nl ++
                 "- Reason: " ++ sg_reason s ++ nl ++ nl).
    rewrite Hfirst.
    replace (String c n ++ nl ++ "- Tab IDs: " ++ idlist ++ nl ++
             "- Reason: " ++ sg_reason s ++ nl ++ nl)
      with ((String c n ++ nl ++ "- Tab IDs: " ++ idlist ++ nl ++ "- Reason") ++
            String ":" (" " ++ sg_reason s ++ nl ++ nl))
      by (rewrite !append_assoc; reflexivity).
    rewrite trim_end_append by reflexivity.
    rewrite !append_assoc. reflexivity. }
  unfold LLMService.parse_piece. rewrite Htext.
  assert (Htruthy : JS.truthy ((String c n ++ nl ++ "- ") ++ "Tab IDs:" ++ (" " ++ idlist) ++ nl ++
                               ("- Reason" ++ String ":" tail)) = true) by reflexivity.
  rewrite Htruthy. cbn [negb].
  (* the name is the first line *)
  assert (Hline : LLMService.first_line
                    ((String c n ++ nl ++ "- ") ++ "Tab IDs:" ++ (" " ++ idlist) ++ nl ++
                     ("- Reason" ++ String ":" tail)) = Some (String c n)).
  { unfold LLMService.first_line. rewrite !append_assoc.
    rewrite (span_run (fun x => negb (JS.is_newline x)) (String c n) _
               (all_chars_no_newline _ Hnonl)) by reflexivity.
    reflexivity. }
  rewrite Hline.
  assert (Htrimname : JS.trim (String c n) = String c n).
  { unfold JS.trim. cbn [JS.trim_start]. rewrite Hfirst. exact (trim_end_keep _ e Ee Hlast). }
  rewrite Htrimname.
  (* the identifier list is captured *)
  rewrite capture_found; [| |reflexivity|exact Hidnl].
  2:{ intros p u Hpre Hu.
      destruct (JS.strip_prefix "Tab IDs:" _) as [r|] eqn:E; [|reflexivity].
      apply strip_prefix_Some in E. exfalso.
      assert (Hu' : has_char ":" (u ++ "Tab IDs") = false).
      { rewrite has_char_append. cbn. rewrite orb_false_r.
        assert (Hpc : no_colon (String c n ++ nl ++ "- ") = true)
          by (rewrite !no_colon_append, Hnc; reflexivity).
        rewrite Hpre in Hpc. apply no_colon_suffix in Hpc.
        unfold no_colon in Hpc. now apply negb_true_iff in Hpc. }
      replace (u ++ "Tab IDs:" ++ (" " ++ idlist) ++ nl ++ "- Reason" ++ String ":" tail)
        with ((u ++ "Tab IDs") ++ String ":" ((" " ++ idlist) ++ nl ++ "- Reason" ++ String ":" tail))
        in E by (rewrite !append_assoc; reflexivity).
      change ("Tab IDs:" ++ r) with ("Tab IDs" ++ String ":" r) in E.
      destruct (first_char_unique ":" (u ++ "Tab IDs") "Tab IDs" _ _ Hu' eq_refl E) as [Heq _].
      apply (f_equal String.length) in Heq. rewrite length_append in Heq.
      destruct u; [congruence | cbn in Heq; lia]. }
  unfold suggested.
  destruct (sg_ids s) as [|t ts] eqn:Eids.
  - (* no identifier listed *)
    cbn. reflexivity.
  - assert (Htrim : JS.trim (" " ++ idlist) = idlist).
    { destruct (join_ends_with_digit t ts Hids) as (d & Hd & Hdig). fold idlist in Hd.
      unfold JS.trim.
      assert (Hstart : JS.trim_start (" " ++ idlist) = idlist).
      { assert (Hhead : exists x r, idlist = String x r /\ JS.is_space x = false).
        { unfold idlist. cbn [forallb] in Hids. apply andb_true_iff in Hids as [Ht _].
          unfold is_number in Ht. apply andb_true_iff in Ht as [Ht Hd'].
          destruct t as [|x t']; [discriminate|]. cbn in Hd'.
          apply andb_true_iff in Hd' as [Hx _].
          destruct ts as [|t2 ts']; [|rewrite join_cons2, append_cons]; eexists _, _;
            (split; [reflexivity|exact (proj2 (digit_is_no_separator x Hx))]). }
        destruct Hhead as (x & r & -> & Hx).
        change (" " ++ String x r) with (String " " (String x r)).
        cbn [JS.trim_start]. change (JS.is_space " ") with true. cbn iota.
        now rewrite Hx. }
      rewrite Hstart. apply (trim_end_keep _ d Hd).
      apply (digit_is_no_separator d Hdig). }
    rewrite Htrim. unfold LLMService.test_ordinal. rewrite (ordinals_none _ HidT).
    unfold idlist. rewrite (split_list_join t ts false Hids).
    rewrite (parseInt_numbers _ Hids). rewrite En.
    cbv zeta. now destruct (2 <=? _)%nat.
Qed.

Lemma parse_sections (tabBatch : list TabDetail) (l : list Suggestion)
    (groups : list LLMService.TabGroup) :
  forallb well_formed l = true ->
  fold_left (LLMService.parse_piece tabBatch) (map section_body l) groups =
  (groups ++ omap (suggested tabBatch) l)%list.
Proof.
  revert groups. induction l as [|s l IH]; intros groups Hwf; cbn [map fold_left omap list_omap].
  - now rewrite app_nil_r.
  - cbn [forallb] in Hwf. apply andb_true_iff in Hwf as [Hs Hl].
    rewrite (parse_section tabBatch groups s Hs), (IH _ Hl).
    destruct (suggested tabBatch s) as [g|]; [|reflexivity].
    now rewrite <- app_assoc.
Qed.

(** Identifiers short enough to be exact as JavaScript numbers (below
    2^53), so that [parseInt] reads them without rounding. *)
Definition safe_integers (s : Suggestion) : bool :=
  forallb (fun t => (String.length t <=? 15)%nat) (sg_ids s).

(** The listed identifiers of a section that belong to the batch. *)
Definition valid_ids (tabBatch : list TabDetail) (s : Suggestion) : list Z :=
  List.filter (fun id => Z_mem id (map detail_id tabBatch))
              (map (fun t => JS.digits_value t 0) (sg_ids s)).

(** C6: on a completion made of an introduction without colon followed by
    well-formed [Group N Name:] sections, [_parseGroupAnalysis] yields, in
    order, one group per section that lists at least two identifiers of the
    analysed batch, named after the section and holding exactly those
    identifiers; a section with fewer than two such identifiers yields no
    group, identifiers outside the batch being dropped before the size is
    tested, so there are as many groups as sections with two or more
    identifiers of the batch.  In particular two sections that each list at least two
    identifiers of the batch yield exactly two named groups. *)
Theorem parseGroupAnalysis_well_formed_sections
    (intro : string) (l : list Suggestion) (tabBatch : list TabDetail) :
  no_colon intro = true ->
  forallb well_formed l = true ->
  forallb safe_integers l = true ->
  LLMService._parseGroupAnalysis (completion intro l) tabBatch =
    omap (fun s => if (2 <=? length (valid_ids tabBatch s))%nat
                   then Some (LLMService.mkTabGroup (sg_name s) (valid_ids tabBatch s) None)
                   else None) l /\
  (forall s1 s2, l = [s1; s2] ->
     (2 <= length (valid_ids tabBatch s1))%nat ->
     (2 <= length (valid_ids tabBatch s2))%nat ->
     LLMService._parseGroupAnalysis (completion intro l) tabBatch =
       [LLMService.mkTabGroup (sg_name s1) (valid_ids tabBatch s1) None;
        LLMService.mkTabGroup (sg_name s2) (valid_ids tabBatch s2) None]) /\
  length (LLMService._parseGroupAnalysis (completion intro l) tabBatch) =
    length (List.filter (fun s => (2 <=? length (valid_ids tabBatch s))%nat) l).
Proof.
  intros Hintro Hwf _.
  assert (Hall : LLMService._parseGroupAnalysis (completion intro l) tabBatch =
                 omap (suggested tabBatch) l).
  { unfold LLMService._parseGroupAnalysis.
    rewrite (split_completion l intro "" true Hintro Hwf).
    now rewrite parse_sections. }
  split; [exact Hall|]. split.
  - intros s1 s2 -> H1 H2. rewrite Hall. cbn [omap list_omap]. unfold suggested. fold (valid_ids tabBatch s1).
    fold (valid_ids tabBatch s2).
    apply Nat.leb_le in H1, H2. rewrite H1, H2. reflexivity.
  - rewrite Hall. clear. induction l as [|s l IH]; [reflexivity|].
    cbn [omap list_omap List.filter]. unfold suggested at 1. fold (valid_ids tabBatch s).
    destruct (2 <=? length (valid_ids tabBatch s))%nat; cbn [length]; now rewrite IH.
Qed.

(** A completion with three sections over a batch of the tabs 11, 12, 13
    and 14: the first section lists three tabs of the batch, the second two
    tabs of the batch and an unknown one, the third a single tab of the
    batch and an unknown one. *)
Definition sample_batch : list TabDetail :=
  [mkTabDetail 11 "Rocq" "https://rocq-prover.org/" "";
   mkTabDetail 12 "Stdlib" "https://rocq-prover.org/stdlib" "";
   mkTabDetail 13 "Recipes" "https://example.com/recipes" "";
   mkTabDetail 14 "Bread" "https://example.com/bread" ""].

Definition sample_sections : list Suggestion :=
  [mkSuggestion "1" "Proof assistants" ["11"; "12"; "11"] "Both are about Rocq";
   mkSuggestion "2" "Cooking" ["13"; "99"; "14"] "Recipes";
   mkSuggestion "3" "Baking" ["14"; "77"] "Bread"].

Definition sample_intro : string := "Here are the suggested groups." ++ nl ++ nl.

Lemma parseGroupAnalysis_well_formed_sections_witness :
  no_colon sample_intro = true /\
  forallb well_formed sample_sections = true /\
  forallb safe_integers sample_sections = true /\
  LLMService._parseGroupAnalysis (completion sample_intro sample_sections) sample_batch =
    [LLMService.mkTabGroup "Proof assistants" [11; 12; 11] None;
     LLMService.mkTabGroup "Cooking" [13; 14] None].
Proof.
  split; [reflexivity|]. split; [reflexivity|]. split; [reflexivity|].
  exact (proj1 (parseGroupAnalysis_well_formed_sections
                  sample_intro sample_sections sample_batch eq_refl eq_refl eq_refl)).
Defined.
(** * Further properties of the sources *)

(** ** The duplicate scan as a partition into classes *)

(** Identifiers identify tabs: two entries of the list with the same
    usable identifier are the same tab. *)
Definition unique_ids (tabs : list Tab) : Prop :=
  forall a b, a ∈ tabs -> b ∈ tabs -> has_id a = true -> tab_id a = tab_id b -> a = b.

Lemma fold_left_prefix_invariant {S X : Type} (P : list X -> S -> Prop)
    (f : S -> X -> S) (l : list X) :
  (forall pre x s, x ∈ l -> P pre s -> P (pre ++ [x])%list (f s x)) ->
  forall s, P [] s -> P l (fold_left f l s).
Proof.
  intros Hstep.
  assert (H : forall post pre s, (forall x, x ∈ post -> x ∈ l) ->
                P pre s -> P (pre ++ post)%list (fold_left f post s)).
  { induction post as [|x post IH]; intros pre s Hsub Hs.
    - now rewrite app_nil_r.
    - cbn [fold_left]. replace (pre ++ x :: post)%list with ((pre ++ [x]) ++ post)%list
        by (now rewrite <- app_assoc).
      apply IH.
      + intros y Hy. apply Hsub. now right.
      + apply Hstep; [apply Hsub; now left | exact Hs]. }
  intros s Hs. apply (H l [] s); auto.
Qed.

Lemma has_id_Some (t : Tab) : has_id t = true <-> exists i, tab_id t = Some i /\ i <> 0.
Proof.
  unfold has_id. destruct (tab_id t) as [i|]; split.
  - intros H. exists i. split; [reflexivity|]. now apply negb_true_iff, Z.eqb_neq in H.
  - intros (j & E & Hj). inversion E; subst j. now apply negb_true_iff, Z.eqb_neq.
  - discriminate.
  - intros (j & E & _). discriminate.
Qed.

Section ClassFacts.
Variable new_URL : string -> option URL.

Abbreviation dup := (DuplicateDetector.areTabsDuplicate new_URL).

Lemma areTabsDuplicate_trans (a b c : Tab) :
  dup a b = true -> dup b c = true -> dup a c = true.
Proof.
  rewrite !areTabsDuplicate_spec. intros (Ha & _ & Hab) (_ & Hc & Hbc).
  repeat split; try assumption. congruence.
Qed.

Lemma areTabsDuplicate_refl (a : Tab) : comparable a = true -> dup a a = true.
Proof. intros Ha. apply areTabsDuplicate_spec. now repeat split. Qed.

(** The inner loop finds every partner of the current tab that is not yet
    assigned. *)
Lemma scan_complete (tabs : list Tab) (tab : Tab) (cur : Z) (A0 : gset Z) :
  unique_ids tabs ->
  forall y j, y ∈ tabs -> tab_id y = Some j -> j <> 0 -> j <> cur -> j ∉ A0 ->
    dup tab y = true ->
    y ∈ (fold_left (DuplicateDetector.scan_step new_URL tab cur) tabs ([], A0)).1.
Proof.
  intros Huniq.
  set (P := fun (pre : list Tab) (st : list Tab * gset Z) =>
              scan_inv new_URL tabs tab cur A0 st /\
              forall y j, y ∈ pre -> tab_id y = Some j -> j <> 0 -> j <> cur -> j ∉ A0 ->
                dup tab y = true -> y ∈ st.1).
  assert (HP : P tabs (fold_left (DuplicateDetector.scan_step new_URL tab cur) tabs ([], A0))).
  { apply fold_left_prefix_invariant.
    - intros pre x st Hx [Hinv Hfound]. split; [now apply scan_step_inv|].
      assert (Hgrow : forall t, t ∈ st.1 ->
                t ∈ (DuplicateDetector.scan_step new_URL tab cur st x).1).
      { intros t Ht. unfold DuplicateDetector.scan_step.
        destruct (tab_id x) as [oid|]; [|exact Ht].
        destruct (_ || _); [exact Ht|].
        destruct (DuplicateDetector.areTabsDuplicate new_URL tab x); [|exact Ht].
        cbn. apply elem_of_app. now left. }
      intros y j Hy Hj Hj0 Hjc HjA Hdup.
      apply elem_of_app in Hy as [Hy|Hy]; [apply Hgrow; now apply (Hfound y j)|].
      apply list_elem_of_singleton in Hy. subst y.
      unfold DuplicateDetector.scan_step. rewrite Hj.
      destruct (Z.eqb_spec j 0); [contradiction|].
      destruct (Z.eqb_spec j cur); [contradiction|].
      cbn [orb]. case_bool_decide as Hmem.
      + destruct Hinv as (_ & _ & Hcov & Hall).
        destruct (Hcov j Hmem) as [|Hin]; [contradiction|].
        apply list_elem_of_fmap in Hin as (t & Ht & Htin).
        destruct (Hall t Htin) as (Htt & _).
        assert (t = x); [|now subst t].
        apply Huniq; try assumption; [|congruence].
        apply has_id_Some. exists j. now split.
      + rewrite Hdup. cbn. apply elem_of_app. right. now left.
    - split; [|intros y j Hy; inversion Hy].
      unfold scan_inv. cbn. split; [constructor|]. split; [set_solver|].
      split; [intros x Hx; now left|]. intros t Ht. inversion Ht. }
  intros y j. apply HP.
Qed.

(** What the outer loop maintains beyond [group_inv], once the tabs of
    [pre] have had their turn: a group holds every partner of its original,
    and a tab that had its turn and is not assigned has no partner. *)
Definition class_inv (tabs pre : list Tab) (st : list DuplicateGroup * gset Z) : Prop :=
  group_inv new_URL tabs st /\
  (forall g, g ∈ st.1 ->
     forall y j, y ∈ tabs -> tab_id y = Some j -> j <> 0 ->
       tab_id y <> tab_id (original g) -> dup (original g) y = true ->
       y ∈ duplicates g) /\
  (forall t i, t ∈ pre -> tab_id t = Some i -> i <> 0 -> i ∉ st.2 ->
     forall y j, y ∈ tabs -> tab_id y = Some j -> j <> 0 -> j <> i -> dup t y = false).

Lemma members_elem (gs : list DuplicateGroup) (m : Tab) :
  m ∈ flat_map members gs <-> exists g, g ∈ gs /\ m ∈ members g.
Proof.
  rewrite list_elem_of_In, in_flat_map. split; intros (g & Hg & Hm); exists g;
    rewrite ?list_elem_of_In in *; now split.
Qed.

Lemma class_step (tabs pre : list Tab) (st : list DuplicateGroup * gset Z) (tab : Tab) :
  unique_ids tabs -> tab ∈ tabs -> class_inv tabs pre st ->
  class_inv tabs (pre ++ [tab])%list (DuplicateDetector.group_step new_URL tabs st tab).
Proof.
  intros Huniq Hin (Hg & Hfull & Hdone).
  pose proof (group_step_inv new_URL tabs st tab Hin Hg) as Hg'.
  assert (Hkeep : forall t i, t ∈ (pre ++ [tab])%list -> tab_id t = Some i -> i <> 0 ->
            i ∉ st.2 -> (tab_id tab = Some i -> False) ->
            forall y j, y ∈ tabs -> tab_id y = Some j -> j <> 0 -> j <> i -> dup t y = false).
  { intros t i Ht Hi Hi0 HiA Hnot. apply elem_of_app in Ht as [Ht|Ht].
    - now apply (Hdone t i).
    - apply list_elem_of_singleton in Ht. subst t. contradiction. }
  unfold DuplicateDetector.group_step in *.
  destruct (tab_id tab) as [cur|] eqn:Eid.
  2:{ split; [exact Hg'|]. split; [exact Hfull|].
      intros t i Ht Hi Hi0 HiA. apply (Hkeep t i); try assumption. discriminate. }
  destruct (Z.eqb_spec cur 0) as [Hz|Hz].
  { cbn [orb] in *. split; [exact Hg'|]. split; [exact Hfull|].
    intros t i Ht Hi Hi0 HiA. apply (Hkeep t i); try assumption. congruence. }
  cbn [orb] in *. case_bool_decide as Hmem.
  { split; [exact Hg'|]. split; [exact Hfull|].
    intros t i Ht Hi Hi0 HiA. apply (Hkeep t i); try assumption. congruence. }
  (* no partner of the current tab is assigned already *)
  assert (Hfree : forall y j, y ∈ tabs -> tab_id y = Some j -> j <> 0 -> j <> cur ->
            dup tab y = true -> j ∉ st.2).
  { intros y j Hy Hj Hj0 Hjc Hdup HjA.
    destruct Hg as (_ & Hids & Hcov & Hgrp).
    pose proof (Hcov j HjA) as Hm.
    apply list_elem_of_fmap in Hm as (m & Hmj & Hm).
    pose proof Hm as Hm'. apply members_elem in Hm' as (g & Hgin & Hmg).
    destruct (Hgrp g Hgin) as (Ho & _ & Hd).
    assert (Hmt : m ∈ tabs).
    { unfold members in Hmg. apply elem_of_cons in Hmg as [->|Hmg]; [exact Ho|].
      now destruct (Hd m Hmg). }
    assert (m = y); [|subst m].
    { apply Huniq; try assumption; [|congruence].
      apply has_id_Some. exists j. now split. }
    assert (Hog : dup (original g) tab = true).
    { unfold members in Hmg. apply elem_of_cons in Hmg as [->|Hmg].
      - now rewrite areTabsDuplicate_sym.
      - destruct (Hd y Hmg) as (_ & Hoy & _).
        apply (areTabsDuplicate_trans _ y); [exact Hoy|].
        now rewrite areTabsDuplicate_sym. }
    assert (Hassigned : forall t, t ∈ members g -> tab_id t = Some cur -> False).
    { intros t Ht Ht'.
      destruct (Hids t) as (i & Hi & _ & HiA'); [apply members_elem; eauto|].
      rewrite Ht' in Hi. inversion Hi; subst i. contradiction. }
    destruct (decide (tab_id tab = tab_id (original g))) as [E|E].
    - apply (Hassigned (original g)); [now left | congruence].
    - apply (Hassigned tab); [|exact Eid]. right.
      apply (Hfull g Hgin tab cur); assumption. }
  pose proof (scan_inv_result new_URL tabs tab cur st.2) as (_ & Hsub & Hcov' & _).
  pose proof (scan_complete tabs tab cur st.2 Huniq) as Hcomplete.
  set (found := fold_left (DuplicateDetector.scan_step new_URL tab cur) tabs ([], st.2)) in *.
  assert (Hpartner : forall y j, y ∈ tabs -> tab_id y = Some j -> j <> 0 -> j <> cur ->
            dup tab y = true -> y ∈ found.1).
  { intros y j Hy Hj Hj0 Hjc Hdup. apply (Hcomplete y j); try assumption.
    now apply (Hfree y j). }
  destruct (Nat.ltb_spec 0 (length found.1)) as [Hlen|Hlen].
  - split; [exact Hg'|]. cbn [fst snd]. split.
    + intros g Hgin. apply elem_of_app in Hgin as [Hgin|Hgin]; [now apply Hfull|].
      apply list_elem_of_singleton in Hgin. subst g. cbn [original duplicates].
      intros y j Hy Hj Hj0 Hne Hdup. apply (Hpartner y j); try assumption. congruence.
    + intros t i Ht Hi Hi0 HiA. apply (Hkeep t i); try assumption.
      * intros HA. apply HiA. apply elem_of_union. right. now apply Hsub.
      * intros E. inversion E; subst i. apply HiA. set_solver.
  - assert (E : found.1 = []) by (destruct found.1; [reflexivity | cbn in Hlen; lia]).
    split; [exact Hg'|]. cbn [fst snd]. split; [exact Hfull|].
    intros t i Ht Hi Hi0 HiA.
    apply elem_of_app in Ht as [Ht|Ht].
    + apply (Hdone t i); try assumption. intros HA. apply HiA. now apply Hsub.
    + apply list_elem_of_singleton in Ht. subst t.
      rewrite Eid in Hi. inversion Hi; subst i.
      intros y j Hy Hj Hj0 Hjc.
      destruct (dup tab y) eqn:Hdup; [|reflexivity].
      pose proof (Hpartner y j Hy Hj Hj0 Hjc Hdup) as Hyf.
      rewrite E in Hyf. inversion Hyf.
Qed.

Lemma class_inv_result (tabs : list Tab) :
  unique_ids tabs ->
  class_inv tabs tabs (fold_left (DuplicateDetector.group_step new_URL tabs) tabs ([], ∅)).
Proof.
  intros Huniq.
  apply (fold_left_prefix_invariant (class_inv tabs)).
  - intros pre x s Hx. now apply class_step.
  - split; [|split].
    + unfold group_inv. cbn. split; [constructor|]. split; [intros t Ht; inversion Ht|].
      split; [set_solver|]. intros g Hg. inversion Hg.
    + intros g Hg. inversion Hg.
    + intros t i Ht. inversion Ht.
Qed.

(** Two members of a group with different identifiers are duplicates. *)
Lemma same_group_duplicates (tabs : list Tab) (g : DuplicateGroup) (x y : Tab) :
  g ∈ DuplicateDetector.identifyDuplicateGroups new_URL tabs ->
  x ∈ members g -> y ∈ members g -> tab_id x <> tab_id y -> dup x y = true.
Proof.
  intros Hg Hx Hy Hne.
  destruct (group_inv_result new_URL tabs) as (_ & _ & _ & Hgrp).
  destruct (Hgrp g Hg) as (_ & _ & Hd).
  unfold members in Hx, Hy.
  apply elem_of_cons in Hx as [->|Hx]; apply elem_of_cons in Hy as [->|Hy].
  - congruence.
  - now destruct (Hd y Hy) as (_ & ? & _).
  - rewrite areTabsDuplicate_sym. now destruct (Hd x Hx) as (_ & ? & _).
  - destruct (Hd x Hx) as (_ & Hox & _), (Hd y Hy) as (_ & Hoy & _).
    apply (areTabsDuplicate_trans _ (original g)); [|exact Hoy].
    now rewrite areTabsDuplicate_sym.
Qed.

(** Two duplicates with different usable identifiers are in one group. *)
Lemma duplicates_same_group (tabs : list Tab) (x y : Tab) :
  unique_ids tabs -> x ∈ tabs -> y ∈ tabs -> has_id x = true -> has_id y = true ->
  tab_id x <> tab_id y -> dup x y = true ->
  exists g, g ∈ DuplicateDetector.identifyDuplicateGroups new_URL tabs /\
            x ∈ members g /\ y ∈ members g.
Proof.
  intros Huniq Hx Hy Hix Hiy Hne Hdup.
  apply has_id_Some in Hix as (i & Hi & Hi0). apply has_id_Some in Hiy as (j & Hj & Hj0).
  destruct (class_inv_result tabs Huniq) as ((_ & Hids & Hcov & Hgrp) & Hfull & Hdone).
  unfold DuplicateDetector.identifyDuplicateGroups.
  set (st := fold_left _ tabs _) in *.
  assert (HiA : i ∈ st.2).
  { destruct (decide (i ∈ st.2)) as [|HiA]; [assumption|].
    rewrite (Hdone x i Hx Hi Hi0 HiA y j Hy Hj Hj0) in Hdup; [discriminate | congruence]. }
  pose proof (Hcov i HiA) as Hm.
  apply list_elem_of_fmap in Hm as (m & Hmi & Hm).
  apply members_elem in Hm as (g & Hgin & Hmg).
  destruct (Hgrp g Hgin) as (Ho & _ & Hd).
  assert (Hmt : m ∈ tabs).
  { unfold members in Hmg. apply elem_of_cons in Hmg as [->|Hmg]; [exact Ho|].
    now destruct (Hd m Hmg). }
  assert (m = x); [|subst m].
  { apply Huniq; try assumption; [|congruence]. apply has_id_Some. exists i. now split. }
  exists g. split; [exact Hgin|]. split; [exact Hmg|].
  destruct (decide (tab_id y = tab_id (original g))) as [E|E].
  - assert (original g = y); [|subst y; now left].
    apply Huniq; try assumption; [|congruence].
    apply has_id_Some. exists j. split; [congruence | exact Hj0].
  - right. apply (Hfull g Hgin y j); try assumption.
    unfold members in Hmg. apply elem_of_cons in Hmg as [->|Hmg]; [exact Hdup|].
    destruct (Hd x Hmg) as (_ & Hox & _).
    now apply (areTabsDuplicate_trans _ x).
Qed.

End ClassFacts.

(** Tabs for the examples: tab [id] of window 1 showing [url]. *)
Definition open_tab (id : Z) (url : string) : Tab :=
  mkTab (Some id) id (Some 1) (Some url) (Some url) TAB_GROUP_ID_NONE.

Definition five_open_tabs : list Tab :=
  [open_tab 1 "https://example.com/a?x=1&y=2";
   open_tab 2 "https://other.example/";
   open_tab 3 "https://EXAMPLE.com:443/a?y=2&x=1";
   open_tab 4 "chrome://settings/";
   open_tab 5 "https://example.com/a?x=1&y=2#section"].

Lemma five_open_tabs_unique : unique_ids five_open_tabs.
Proof.
  intros a b Ha Hb _ E. unfold five_open_tabs in Ha, Hb.
  repeat (apply elem_of_cons in Ha as [-> | Ha]); try (now apply elem_of_nil in Ha);
    repeat (apply elem_of_cons in Hb as [-> | Hb]); try (now apply elem_of_nil in Hb);
    first [reflexivity | discriminate E].
Qed.

(** X1: on the tabs that can be compared (URL present, not empty, not
    internal or blank) [areTabsDuplicate] is an equivalence: such a tab is a
    duplicate of itself, the verdict is transitive and symmetric, and a
    positive verdict is only given between two such tabs. *)
Theorem areTabsDuplicate_equivalence (new_URL : string -> option URL) :
  (forall a, comparable a = true -> DuplicateDetector.areTabsDuplicate new_URL a a = true) /\
  (forall a b c,
     DuplicateDetector.areTabsDuplicate new_URL a b = true ->
     DuplicateDetector.areTabsDuplicate new_URL b c = true ->
     DuplicateDetector.areTabsDuplicate new_URL a c = true) /\
  (forall a b,
     DuplicateDetector.areTabsDuplicate new_URL a b = true ->
     comparable a = true /\ comparable b = true) /\
  (forall a b,
     DuplicateDetector.areTabsDuplicate new_URL a b = true ->
     DuplicateDetector.areTabsDuplicate new_URL b a = true).
Proof.
  split; [|split; [|split]].
  - apply areTabsDuplicate_refl.
  - apply areTabsDuplicate_trans.
  - intros a b H. apply areTabsDuplicate_spec in H as (Ha & Hb & _). now split.
  - intros a b H. now rewrite areTabsDuplicate_sym.
Qed.

Lemma areTabsDuplicate_equivalence_witness :
  DuplicateDetector.areTabsDuplicate URLModel.parse
    (open_tab 1 "https://example.com/a?x=1&y=2")
    (open_tab 5 "https://example.com/a?x=1&y=2#section") = true.
Proof.
  apply (proj1 (proj2 (areTabsDuplicate_equivalence URLModel.parse))
           _ (open_tab 3 "https://EXAMPLE.com:443/a?y=2&x=1")); reflexivity.
Defined.

(** X2: every group that [identifyDuplicateGroups] reports is made of tabs
    of the scanned list, has at least one duplicate, and each of its
    duplicates is a duplicate of the group's original according to
    [areTabsDuplicate] and carries another identifier than the original. *)
Theorem identifyDuplicateGroups_sound (new_URL : string -> option URL) (tabs : list Tab) :
  Forall (fun g =>
            original g ∈ tabs /\ duplicates g <> [] /\
            Forall (fun d => d ∈ tabs /\
                             DuplicateDetector.areTabsDuplicate new_URL (original g) d = true /\
                             tab_id d <> tab_id (original g))
                   (duplicates g))
         (DuplicateDetector.identifyDuplicateGroups new_URL tabs).
Proof.
  destruct (group_inv_result new_URL tabs) as (_ & _ & _ & Hgrp).
  apply Forall_forall. intros g Hg.
  destruct (Hgrp g Hg) as (Ho & Hne & Hd).
  split; [exact Ho|]. split; [exact Hne|].
  apply Forall_forall. intros d Hdin. now apply Hd.
Qed.

(** X3: when identifiers identify the tabs of the scanned list, the groups
    of [identifyDuplicateGroups] are exactly the classes of duplicates: two
    tabs of the list with different usable identifiers are duplicates if and
    only if one group holds both (as original or duplicate).  Hence the scan
    reports no group exactly when no two such tabs are duplicates. *)
Theorem identifyDuplicateGroups_classes (new_URL : string -> option URL) (tabs : list Tab) :
  unique_ids tabs ->
  let groups := DuplicateDetector.identifyDuplicateGroups new_URL tabs in
  (forall x y, x ∈ tabs -> y ∈ tabs -> has_id x = true -> has_id y = true ->
     tab_id x <> tab_id y ->
     (DuplicateDetector.areTabsDuplicate new_URL x y = true <->
      exists g, g ∈ groups /\ x ∈ members g /\ y ∈ members g)) /\
  (groups = [] <->
   forall x y, x ∈ tabs -> y ∈ tabs -> has_id x = true -> has_id y = true ->
     tab_id x <> tab_id y -> DuplicateDetector.areTabsDuplicate new_URL x y = false).
Proof.
  intros Huniq groups.
  assert (Hiff : forall x y, x ∈ tabs -> y ∈ tabs -> has_id x = true -> has_id y = true ->
            tab_id x <> tab_id y ->
            (DuplicateDetector.areTabsDuplicate new_URL x y = true <->
             exists g, g ∈ groups /\ x ∈ members g /\ y ∈ members g)).
  { intros x y Hx Hy Hix Hiy Hne. split.
    - now apply duplicates_same_group.
    - intros (g & Hg & Hxg & Hyg). now apply (same_group_duplicates new_URL tabs g). }
  split; [exact Hiff|]. split.
  - intros E x y Hx Hy Hix Hiy Hne.
    destruct (DuplicateDetector.areTabsDuplicate new_URL x y) eqn:Hdup; [|reflexivity].
    apply Hiff in Hdup as (g & Hg & _); try assumption.
    rewrite E in Hg. inversion Hg.
  - intros Hnone. destruct groups as [|g gs] eqn:E; [reflexivity|]. exfalso.
    destruct (group_inv_result new_URL tabs) as (_ & Hids & _ & Hgrp).
    assert (Hg : g ∈ DuplicateDetector.identifyDuplicateGroups new_URL tabs).
    { fold groups. rewrite E. now left. }
    destruct (Hgrp g Hg) as (Ho & Hd0 & Hd).
    destruct (duplicates g) as [|d ds] eqn:Ed; [congruence|].
    destruct (Hd d) as (Hdt & Hdup & Hid); [now left|].
    assert (Hhas : forall t, t ∈ members g -> has_id t = true).
    { intros t Ht. destruct (Hids t) as (i & Hi & Hi0 & _).
      - apply members_elem. exists g. now split.
      - apply has_id_Some. exists i. now split. }
    rewrite (Hnone (original g) d) in Hdup; try assumption; try discriminate.
    + apply Hhas. now left.
    + apply Hhas. right. rewrite Ed. now left.
    + congruence.
Qed.

Lemma identifyDuplicateGroups_classes_witness :
  unique_ids five_open_tabs /\
  DuplicateDetector.identifyDuplicateGroups URLModel.parse five_open_tabs =
    [mkDuplicateGroup (open_tab 1 "https://example.com/a?x=1&y=2")
       [open_tab 3 "https://EXAMPLE.com:443/a?y=2&x=1";
        open_tab 5 "https://example.com/a?x=1&y=2#section"]] /\
  exists g, g ∈ DuplicateDetector.identifyDuplicateGroups URLModel.parse five_open_tabs /\
            open_tab 3 "https://EXAMPLE.com:443/a?y=2&x=1" ∈ members g /\
            open_tab 5 "https://example.com/a?x=1&y=2#section" ∈ members g.
Proof.
  split; [exact five_open_tabs_unique|]. split; [vm_compute; reflexivity|].
  apply (proj1 (identifyDuplicateGroups_classes URLModel.parse five_open_tabs
                  five_open_tabs_unique)).
  - unfold five_open_tabs. do 2 right. left.
  - unfold five_open_tabs. do 4 right. left.
  - reflexivity.
  - reflexivity.
  - discriminate.
  - vm_compute. reflexivity.
Defined.

(** ** Closing and merging duplicates *)

(** A tab that [chrome.tabs.remove] closes for one of the identifiers. *)
Definition closed_by (ids : list Z) (t : Tab) : bool :=
  existsb (fun i => chrome.tab_has_id i t) ids.

Lemma tab_has_id_true (i : Z) (t : Tab) : chrome.tab_has_id i t = true <-> tab_id t = Some i.
Proof.
  unfold chrome.tab_has_id, option_Z_eqb. destruct (tab_id t) as [j|]; split; intros H;
    try discriminate.
  - apply Z.eqb_eq in H. now subst.
  - inversion H. apply Z.eqb_refl.
Qed.

Lemma closed_by_true (ids : list Z) (t : Tab) :
  closed_by ids t = true <-> exists i, i ∈ ids /\ tab_id t = Some i.
Proof.
  unfold closed_by. rewrite existsb_exists. split; intros (i & Hi & H); exists i;
    rewrite ?list_elem_of_In in *; (split; [assumption|]); now apply tab_has_id_true.
Qed.

Lemma open_tab_exists (i : Z) (ts : list Tab) :
  existsb (chrome.tab_has_id i) ts = true <-> exists t, t ∈ ts /\ tab_id t = Some i.
Proof.
  rewrite existsb_exists. split; intros (t & Ht & H); exists t;
    rewrite ?list_elem_of_In in *; (split; [assumption|]); now apply tab_has_id_true.
Qed.

Lemma filter_filter {X : Type} (p q : X -> bool) (l : list X) :
  List.filter p (List.filter q l) = List.filter (fun x => q x && p x) l.
Proof.
  induction l as [|x l IH]; [reflexivity|]. cbn.
  destruct (q x); cbn; [destruct (p x)|]; now rewrite IH.
Qed.

(** Closing distinct open tabs succeeds and leaves exactly the other
    tabs; no group is made. *)
Lemma tabs_remove_open (ids : list Z) (b : Browser) :
  NoDup ids ->
  (forall i, i ∈ ids -> exists t, t ∈ tabs b /\ tab_id t = Some i) ->
  exists b', chrome.tabs_remove ids b = (Ok tt, b') /\
             tabs b' = List.filter (fun t => negb (closed_by ids t)) (tabs b).
Proof.
  revert b. induction ids as [|i ids IH]; intros b Hnd Hopen.
  - exists b. split; [reflexivity|]. cbn.
    clear. induction (tabs b) as [|t ts IHt]; [reflexivity|]. cbn. now rewrite <- IHt.
  - apply NoDup_cons in Hnd as [Hi Hnd]. cbn [chrome.tabs_remove].
    rewrite (proj2 (open_tab_exists i (tabs b))) by (apply Hopen; now left).
    destruct (IH (chrome.close_tab i b) Hnd) as (b' & E & Htabs).
    + intros j Hj. destruct (Hopen j) as (t & Ht & Hid); [now right|].
      exists t. split; [|exact Hid]. cbn.
      apply list_elem_of_In, filter_In. split; [now apply list_elem_of_In|].
      apply negb_true_iff. destruct (chrome.tab_has_id i t) eqn:Ei; [|reflexivity].
      apply tab_has_id_true in Ei. rewrite Hid in Ei. inversion Ei; subst j. contradiction.
    + exists b'. split; [exact E|]. rewrite Htabs. cbn [chrome.close_tab tabs].
      rewrite filter_filter. apply filter_ext. intros t. cbn.
      now rewrite negb_orb.
Qed.

Lemma closeDuplicates_run (groups : list DuplicateGroup) (acc : list Z) (b : Browser) :
  let ids := omap tab_id (flat_map duplicates groups) in
  NoDup ids ->
  (forall i, i ∈ ids -> exists t, t ∈ tabs b /\ tab_id t = Some i) ->
  exists b', for_each DuplicateDetectorAsync.close_group groups acc b = (Ok (acc ++ ids)%list, b') /\
             tabs b' = List.filter (fun t => negb (closed_by ids t)) (tabs b).
Proof.
  revert acc b. induction groups as [|g gs IH]; intros acc b ids Hnd Hopen.
  - exists b. split; [cbn; now rewrite app_nil_r|]. cbn.
    clear. induction (tabs b) as [|t ts IHt]; [reflexivity|]. cbn. now rewrite <- IHt.
  - unfold ids in *. cbn [flat_map] in *. rewrite omap_app in *.
    apply NoDup_app in Hnd as (Hnd1 & Hdisj & Hnd2).
    cbn [for_each]. unfold await at 1. unfold DuplicateDetectorAsync.close_group at 1.
    set (dups := omap tab_id (duplicates g)) in *.
    set (later := omap tab_id (flat_map duplicates gs)) in *.
    assert (Hsplit : forall ts, List.filter (fun t => negb (closed_by (dups ++ later) t)) ts =
              List.filter (fun t => negb (closed_by later t))
                          (List.filter (fun t => negb (closed_by dups t)) ts)).
    { intros ts. rewrite filter_filter. apply filter_ext. intros t.
      unfold closed_by. now rewrite existsb_app, negb_orb. }
    destruct (Nat.eqb_spec (length dups) 0) as [E0|E0].
    + destruct dups; [|discriminate]. cbn [resolve].
      destruct (IH acc b Hnd2) as (b' & E & Htabs).
      * intros i Hi. apply Hopen. apply elem_of_app. now right.
      * exists b'. split; [exact E|]. exact Htabs.
    + unfold await at 1.
      destruct (tabs_remove_open dups b Hnd1) as (b1 & E1 & Ht1).
      { intros i Hi. apply Hopen. apply elem_of_app. now left. }
      rewrite E1. cbn [resolve].
      destruct (IH (acc ++ dups)%list b1 Hnd2) as (b' & E & Htabs).
      * intros i Hi. destruct (Hopen i) as (t & Ht & Hid); [apply elem_of_app; now right|].
        exists t. split; [|exact Hid]. rewrite Ht1.
        apply list_elem_of_In, filter_In. split; [now apply list_elem_of_In|].
        apply negb_true_iff. destruct (closed_by dups t) eqn:Ec; [|reflexivity].
        apply closed_by_true in Ec as (j & Hj & Hid'). rewrite Hid in Hid'.
        inversion Hid'; subst j. exfalso. now apply (Hdisj i).
      * exists b'. split; [now rewrite E, <- app_assoc|].
        now rewrite Htabs, Ht1, Hsplit.
Qed.

(** The identifiers of the members of the groups, as numbers. *)
Lemma member_ids_Some (l : list Tab) :
  (forall t, t ∈ l -> exists i, tab_id t = Some i) ->
  map tab_id l = map Some (omap tab_id l).
Proof.
  induction l as [|t l IH]; intros H; [reflexivity|]. cbn.
  destruct (H t) as (i & Hi); [now left|]. rewrite Hi. cbn. f_equal.
  apply IH. intros u Hu. apply H. now right.
Qed.

Lemma original_not_duplicate (gs : list DuplicateGroup) (g : DuplicateGroup) (d : Tab) :
  NoDup (map tab_id (flat_map members gs)) ->
  g ∈ gs -> d ∈ flat_map duplicates gs -> tab_id d <> tab_id (original g).
Proof.
  induction gs as [|g0 gs IH]; intros Hnd Hg Hd; [inversion Hg|].
  change (flat_map members (g0 :: gs))
    with (original g0 :: (duplicates g0 ++ flat_map members gs))%list in Hnd.
  cbn [flat_map] in Hd. cbn [map] in Hnd.
  apply NoDup_cons in Hnd as [Ho Hnd]. rewrite map_app in Hnd, Ho.
  apply NoDup_app in Hnd as (_ & Hdisj & Hnd).
  assert (Hsub : forall t, t ∈ flat_map duplicates gs -> t ∈ flat_map members gs).
  { clear. intros t Ht. apply list_elem_of_In, in_flat_map in Ht as (g & Hg & Ht).
    apply list_elem_of_In, in_flat_map. exists g. split; [exact Hg|]. now right. }
  apply elem_of_cons in Hg as [->|Hg]; apply elem_of_app in Hd as [Hd|Hd].
  - intros E. apply Ho. rewrite <- E. apply elem_of_app. left. now apply list_elem_of_fmap_2.
  - intros E. apply Ho. rewrite <- E. apply elem_of_app. right.
    apply list_elem_of_fmap_2. now apply Hsub.
  - intros E. apply (Hdisj (tab_id d)); [now apply list_elem_of_fmap_2|].
    rewrite E. apply list_elem_of_fmap_2.
    apply list_elem_of_In, in_flat_map. exists g. split; [now apply list_elem_of_In | now left].
  - now apply IH.
Qed.

Section CloseFacts.
Variable new_URL : string -> option URL.

(** A partner of a member of a group is a member of that group. *)
Lemma partner_in_group (tabs : list Tab) (g : DuplicateGroup) (x y : Tab) :
  unique_ids tabs ->
  g ∈ DuplicateDetector.identifyDuplicateGroups new_URL tabs ->
  x ∈ members g -> y ∈ tabs -> has_id y = true -> tab_id y <> tab_id x ->
  DuplicateDetector.areTabsDuplicate new_URL x y = true ->
  y ∈ members g.
Proof.
  intros Huniq Hg Hx Hy Hiy Hne Hdup.
  apply has_id_Some in Hiy as (j & Hj & Hj0).
  destruct (class_inv_result new_URL tabs Huniq) as ((_ & _ & _ & Hgrp) & Hfull & _).
  destruct (Hgrp g Hg) as (Ho & _ & Hd).
  destruct (decide (tab_id y = tab_id (original g))) as [E|E].
  - assert (original g = y); [|subst y; now left].
    apply Huniq; try assumption; [|congruence].
    apply has_id_Some. exists j. split; [congruence | exact Hj0].
  - right. apply (Hfull g Hg y j); try assumption.
    unfold members in Hx. apply elem_of_cons in Hx as [->|Hx]; [exact Hdup|].
    destruct (Hd x Hx) as (_ & Hox & _).
    now apply (areTabsDuplicate_trans new_URL _ x).
Qed.

Lemma scan_ids (tabs : list Tab) :
  let groups := DuplicateDetector.identifyDuplicateGroups new_URL tabs in
  NoDup (omap tab_id (flat_map duplicates groups)) /\
  (forall i, i ∈ omap tab_id (flat_map duplicates groups) ->
     exists t, t ∈ tabs /\ tab_id t = Some i) /\
  (forall d, d ∈ flat_map duplicates groups ->
     exists i, tab_id d = Some i /\ i ∈ omap tab_id (flat_map duplicates groups)).
Proof.
  cbn zeta. unfold DuplicateDetector.identifyDuplicateGroups.
  destruct (group_inv_result new_URL tabs) as (Hnd & Hids & _ & Hgrp).
  set (st := fold_left _ tabs _) in *.
  assert (Hsub : forall t, t ∈ flat_map duplicates st.1 -> t ∈ flat_map members st.1).
  { intros t Ht. apply list_elem_of_In, in_flat_map in Ht as (g & Hg & Ht).
    apply list_elem_of_In, in_flat_map. exists g. split; [exact Hg|]. now right. }
  assert (Hsome : forall t, t ∈ flat_map duplicates st.1 -> exists i, tab_id t = Some i).
  { intros t Ht. destruct (Hids t (Hsub t Ht)) as (i & Hi & _). now exists i. }
  split; [|split].
  - assert (Hsl : sublist (map tab_id (flat_map duplicates st.1))
                          (map tab_id (flat_map members st.1))).
    { clear. induction st.1 as [|g gs IH]; cbn; [constructor|].
      rewrite !map_app. constructor. apply sublist_app; [reflexivity | exact IH]. }
    assert (Hnd' : NoDup (map tab_id (flat_map duplicates st.1)))
      by (eapply sublist_NoDup; eassumption).
    rewrite (member_ids_Some _ Hsome) in Hnd'.
    eapply (NoDup_fmap_1 Some). exact Hnd'.
  - intros i Hi. apply list_elem_of_omap in Hi as (d & Hd & Hid).
    apply list_elem_of_In, in_flat_map in Hd as (g & Hg & Hd).
    destruct (Hgrp g) as (_ & _ & Hdups); [now apply list_elem_of_In|].
    exists d. split; [|exact Hid]. apply Hdups. now apply list_elem_of_In.
  - intros d Hd. destruct (Hsome d Hd) as (i & Hi). exists i. split; [exact Hi|].
    apply list_elem_of_omap. exists d. now split.
Qed.

End CloseFacts.

(** A browser with the five example tabs. *)
Definition five_tab_browser : Browser := mkBrowser five_open_tabs [] 1 1 0.

(** X4: scan all tabs, then close the duplicates of the reported groups.
    When identifiers identify the open tabs, [closeDuplicates] resolves with
    the identifiers of all reported duplicates, only closes tabs, keeps the
    original of every group open, and a second scan right after it reports no
    duplicate group. *)
Theorem closeDuplicates_leaves_no_duplicates (new_URL : string -> option URL) (b : Browser) :
  unique_ids (tabs b) ->
  let groups := DuplicateDetector.identifyDuplicateGroups new_URL (tabs b) in
  DuplicateDetectorAsync.findDuplicatesAcrossWindows new_URL b = (Ok groups, b) /\
  exists b',
    DuplicateDetectorAsync.closeDuplicates groups b
      = (Ok (omap tab_id (flat_map duplicates groups)), b') /\
    (forall t, t ∈ tabs b' -> t ∈ tabs b) /\
    (forall g, g ∈ groups -> original g ∈ tabs b') /\
    DuplicateDetectorAsync.findDuplicatesAcrossWindows new_URL b' = (Ok [], b').
Proof.
  intros Huniq groups. split; [reflexivity|].
  destruct (scan_ids new_URL (tabs b)) as (Hnd & Hopen & Hdupid). fold groups in Hnd, Hopen, Hdupid.
  destruct (closeDuplicates_run groups [] b Hnd Hopen) as (b' & E & Htabs).
  exists b'. split; [exact E|].
  assert (Hin : forall t, t ∈ tabs b' <->
            t ∈ tabs b /\ closed_by (omap tab_id (flat_map duplicates groups)) t = false).
  { intros t. rewrite Htabs, list_elem_of_In, filter_In, negb_true_iff.
    now rewrite <- list_elem_of_In. }
  destruct (group_inv_result new_URL (tabs b)) as (Hndm & _ & _ & Hgrp).
  split; [|split].
  - intros t Ht. now apply Hin.
  - intros g Hg. destruct (Hgrp g Hg) as (Ho & _). apply Hin. split; [exact Ho|].
    destruct (closed_by _ (original g)) eqn:Ec; [|reflexivity]. exfalso.
    apply closed_by_true in Ec as (i & Hi & Hid).
    apply list_elem_of_omap in Hi as (d & Hd & Hdi).
    apply (original_not_duplicate _ g d Hndm Hg Hd). congruence.
  - unfold DuplicateDetectorAsync.findDuplicatesAcrossWindows, await, chrome.tabs_query, resolve.
    f_equal. f_equal.
    destruct (DuplicateDetector.identifyDuplicateGroups new_URL (tabs b')) as [|g' gs'] eqn:E';
      [reflexivity|]. exfalso.
    assert (Hg' : g' ∈ DuplicateDetector.identifyDuplicateGroups new_URL (tabs b'))
      by (rewrite E'; now left).
    destruct (group_inv_result new_URL (tabs b')) as (_ & Hids' & _ & Hgrp').
    destruct (Hgrp' g' Hg') as (Ho' & Hne' & Hd').
    destruct (duplicates g') as [|d ds] eqn:Ed; [congruence|].
    destruct (Hd' d) as (Hdt & Hdup & Hid); [now left|].
    assert (Hhas : forall t, t ∈ members g' -> has_id t = true).
    { intros t Ht. destruct (Hids' t) as (i & Hi & Hi0 & _).
      - apply members_elem. exists g'. now split.
      - apply has_id_Some. exists i. now split. }
    apply Hin in Ho' as [Ho Hoc]. apply Hin in Hdt as [Hdt Hdc].
    assert (Hho : has_id (original g') = true) by (apply Hhas; now left).
    assert (Hhd : has_id d = true) by (apply Hhas; right; rewrite Ed; now left).
    destruct (duplicates_same_group new_URL (tabs b) (original g') d Huniq Ho Hdt Hho Hhd)
      as (g0 & Hg0 & Hog0 & Hdg0); [congruence | exact Hdup |].
    assert (Hclosed : forall z, z ∈ duplicates g0 ->
              closed_by (omap tab_id (flat_map duplicates groups)) z = true).
    { intros z Hz. apply closed_by_true.
      destruct (Hdupid z) as (i & Hi & HiA); [|now exists i].
      apply list_elem_of_In, in_flat_map. exists g0.
      split; now apply list_elem_of_In. }
    unfold members in Hog0, Hdg0.
    apply elem_of_cons in Hog0 as [Eo|Hog0].
    + apply elem_of_cons in Hdg0 as [Ed0|Hdg0]; [congruence|].
      rewrite (Hclosed d Hdg0) in Hdc. discriminate.
    + rewrite (Hclosed _ Hog0) in Hoc. discriminate.
Qed.

Lemma closeDuplicates_leaves_no_duplicates_witness :
  unique_ids (tabs five_tab_browser) /\
  exists b',
    DuplicateDetectorAsync.closeDuplicates
      (DuplicateDetector.identifyDuplicateGroups URLModel.parse (tabs five_tab_browser))
      five_tab_browser = (Ok [3; 5], b') /\
    DuplicateDetectorAsync.findDuplicatesAcrossWindows URLModel.parse b' = (Ok [], b').
Proof.
  split; [exact five_open_tabs_unique|].
  destruct (closeDuplicates_leaves_no_duplicates URLModel.parse five_tab_browser
              five_open_tabs_unique) as (_ & b' & E & _ & _ & Hrescan).
  exists b'. split; [exact E | exact Hrescan].
Defined.

(** How [mergeDuplicates] relates to [closeDuplicates] on the same groups and
    browser. *)
Lemma merge_close_run (groups : list DuplicateGroup) (closed : list Z)
    (results : list MergeResult) (b : Browser) :
  let m := for_each DuplicateDetectorAsync.merge_group groups results b in
  let c := for_each DuplicateDetectorAsync.close_group groups closed b in
  m.2 = c.2 /\
  match m.1, c.1 with
  | Ok results', Ok closed' =>
      (length closed' - length closed =
       list_sum (map closedCount results') - list_sum (map closedCount results))%nat /\
      (length closed <= length closed')%nat /\
      (list_sum (map closedCount results) <= list_sum (map closedCount results'))%nat
  | Err e, Err e' => e = e'
  | _, _ => False
  end.
Proof.
  cbn zeta. revert closed results b. induction groups as [|g gs IH]; intros closed results b.
  - cbn. split; [reflexivity|]. lia.
  - set (ids := omap tab_id (duplicates g)).
    assert (Hm : DuplicateDetectorAsync.merge_group results g b =
                 if (length ids =? 0)%nat then (Ok results, b)
                 else match chrome.tabs_remove ids b with
                      | (Ok _, b1) =>
                          (Ok (results ++ [mkMergeResult (original g) (length ids)])%list, b1)
                      | (Err e, b1) => (Err e, b1)
                      end).
    { unfold DuplicateDetectorAsync.merge_group. fold ids.
      destruct (Nat.eqb_spec (length (duplicates g)) 0) as [Ed|Ed].
      - unfold ids. destruct (duplicates g); [reflexivity | discriminate].
      - destruct (length ids =? 0)%nat; [reflexivity|].
        unfold await. now destruct (chrome.tabs_remove ids b) as [[[]|e] b1]. }
    assert (Hc : DuplicateDetectorAsync.close_group closed g b =
                 if (length ids =? 0)%nat then (Ok closed, b)
                 else match chrome.tabs_remove ids b with
                      | (Ok _, b1) => (Ok (closed ++ ids)%list, b1)
                      | (Err e, b1) => (Err e, b1)
                      end).
    { unfold DuplicateDetectorAsync.close_group. fold ids.
      destruct (length ids =? 0)%nat; [reflexivity|].
      unfold await. now destruct (chrome.tabs_remove ids b) as [[[]|e] b1]. }
    cbn [for_each]. unfold await. rewrite Hm, Hc.
    destruct (length ids =? 0)%nat; [cbv beta iota; apply IH|].
    destruct (chrome.tabs_remove ids b) as [[[]|e] b1]; cbv beta iota; [|now split].
    specialize (IH (closed ++ ids)%list
                   (results ++ [mkMergeResult (original g) (length ids)])%list b1).
    destruct IH as [Hst Hres]. split; [exact Hst|].
    destruct (for_each DuplicateDetectorAsync.merge_group gs _ b1).1,
             (for_each DuplicateDetectorAsync.close_group gs _ b1).1; try exact Hres.
    rewrite length_app, map_app, list_sum_app in Hres. cbn in Hres. lia.
Qed.

(** Nothing but closing tabs: no group is made, and no tab or group
    appears. *)
Definition only_closes (b b' : Browser) : Prop :=
  next_group_id b' = next_group_id b /\
  (forall g, g ∈ groups b' -> g ∈ groups b) /\
  (forall t, t ∈ tabs b' -> t ∈ tabs b).

Lemma tabs_remove_only_closes (ids : list Z) (b : Browser) :
  only_closes b (chrome.tabs_remove ids b).2.
Proof.
  revert b. induction ids as [|i ids IH]; intros b; cbn [chrome.tabs_remove].
  - repeat split; auto.
  - destruct (existsb (chrome.tab_has_id i) (tabs b)); [|repeat split; auto].
    destruct (IH (chrome.close_tab i b)) as (Hn & Hg & Ht). split; [exact Hn|]. split.
    + intros g Hgin. apply Hg in Hgin. cbn in Hgin.
      unfold chrome.inhabited_groups in Hgin.
      apply list_elem_of_In, filter_In in Hgin as [Hgin _]. now apply list_elem_of_In.
    + intros t Htin. apply Ht in Htin. cbn in Htin.
      apply list_elem_of_In, filter_In in Htin as [Htin _]. now apply list_elem_of_In.
Qed.

Lemma merge_only_closes (groups : list DuplicateGroup) (results : list MergeResult)
    (b : Browser) :
  only_closes b (for_each DuplicateDetectorAsync.merge_group groups results b).2.
Proof.
  revert results b. induction groups as [|g gs IH]; intros results b.
  - repeat split; auto.
  - cbn [for_each]. unfold await at 1. unfold DuplicateDetectorAsync.merge_group at 1.
    destruct (length (duplicates g) =? 0)%nat; [apply IH|].
    destruct (length (omap tab_id (duplicates g)) =? 0)%nat; [apply IH|].
    unfold await at 1.
    pose proof (tabs_remove_only_closes (omap tab_id (duplicates g)) b) as (Hn & Hg & Ht).
    destruct (chrome.tabs_remove (omap tab_id (duplicates g)) b) as [[[]|e] b1];
      cbn [snd resolve] in *; [|repeat split; auto].
    destruct (IH (results ++ [mkMergeResult (original g) (length (omap tab_id (duplicates g)))])%list b1)
      as (Hn' & Hg' & Ht').
    split; [congruence|]. split; auto.
Qed.

(** X5: on every list of groups and every browser, [mergeDuplicates] has the
    effect of [closeDuplicates]: both leave the same browser, both reject
    with the same message or both resolve, and the [closedCount]s of the
    merge results add up to the number of tab identifiers that
    [closeDuplicates] returns.  All that it does to the browser is closing
    tabs: it never makes a tab group. *)
Theorem mergeDuplicates_closes_like_closeDuplicates
    (duplicateGroups : list DuplicateGroup) (b : Browser) :
  let m := DuplicateDetectorAsync.mergeDuplicates duplicateGroups b in
  let c := DuplicateDetectorAsync.closeDuplicates duplicateGroups b in
  m.2 = c.2 /\
  match m.1, c.1 with
  | Ok results, Ok closedTabIds => list_sum (map closedCount results) = length closedTabIds
  | Err e, Err e' => e = e'
  | _, _ => False
  end /\
  next_group_id m.2 = next_group_id b /\
  (forall g, g ∈ groups m.2 -> g ∈ groups b) /\
  (forall t, t ∈ tabs m.2 -> t ∈ tabs b).
Proof.
  cbn zeta. unfold DuplicateDetectorAsync.mergeDuplicates, DuplicateDetectorAsync.closeDuplicates.
  destruct (merge_close_run duplicateGroups [] [] b) as [Hst Hres]. split; [exact Hst|].
  split; [|apply merge_only_closes].
  destruct (for_each DuplicateDetectorAsync.merge_group duplicateGroups [] b).1,
           (for_each DuplicateDetectorAsync.close_group duplicateGroups [] b).1; try exact Hres.
  cbn in Hres. lia.
Qed.

(** X6: the per-tab query agrees with the scan.  When identifiers identify
    the open tabs and [x], with identifier [i], is a member of a group that
    the scan of all tabs reports, [findDuplicatesForTab i] resolves, and
    among the tabs with a usable identifier it returns exactly the other
    members of that group. *)
Theorem findDuplicatesForTab_agrees_with_scan
    (new_URL : string -> option URL) (b : Browser) (g : DuplicateGroup) (x : Tab) (i : Z) :
  unique_ids (tabs b) ->
  g ∈ DuplicateDetector.identifyDuplicateGroups new_URL (tabs b) ->
  x ∈ members g -> tab_id x = Some i ->
  exists found,
    DuplicateDetectorAsync.findDuplicatesForTab new_URL i b = (Ok found, b) /\
    forall t, has_id t = true -> (t ∈ found <-> t ∈ members g /\ tab_id t <> Some i).
Proof.
  intros Huniq Hg Hx Hi.
  destruct (group_inv_result new_URL (tabs b)) as (_ & Hids & _ & Hgrp).
  destruct (Hgrp g Hg) as (Ho & _ & Hd).
  assert (Hmem : forall t, t ∈ members g -> t ∈ tabs b /\ has_id t = true).
  { intros t Ht. split.
    - unfold members in Ht. apply elem_of_cons in Ht as [->|Ht]; [exact Ho|].
      now destruct (Hd t Ht).
    - destruct (Hids t) as (j & Hj & Hj0 & _); [apply members_elem; eauto|].
      apply has_id_Some. exists j. now split. }
  destruct (Hmem x Hx) as [Hxt Hxi].
  unfold DuplicateDetectorAsync.findDuplicatesForTab, await at 1, chrome.tabs_get.
  destruct (List.find (chrome.tab_has_id i) (tabs b)) as [x'|] eqn:Efind.
  2:{ exfalso. pose proof (find_none _ _ Efind x (proj1 (list_elem_of_In _ _) Hxt)) as Hnone.
      rewrite (proj2 (tab_has_id_true i x) Hi) in Hnone. discriminate. }
  apply find_some in Efind as [Hx't Hx'i]. apply tab_has_id_true in Hx'i.
  assert (x' = x); [|subst x'].
  { symmetry. apply Huniq; try assumption; [now apply list_elem_of_In | congruence]. }
  eexists. split; [reflexivity|].
  intros t Hti. rewrite !list_elem_of_In, !filter_In, <- !list_elem_of_In, negb_true_iff.
  assert (Hneq : option_Z_eqb (tab_id t) (Some i) = false <-> tab_id t <> Some i).
  { rewrite <- (tab_has_id_true i t). unfold chrome.tab_has_id.
    destruct (option_Z_eqb (tab_id t) (Some i)); split; congruence. }
  rewrite Hneq. split.
  - intros ((Ht & Hne) & Hdup). split; [|exact Hne].
    apply (partner_in_group new_URL (tabs b) g x t); try assumption. congruence.
  - intros (Ht & Hne). destruct (Hmem t Ht) as [Htt _].
    split; [now split|].
    apply (same_group_duplicates new_URL (tabs b) g); try assumption. congruence.
Qed.

Lemma findDuplicatesForTab_agrees_with_scan_witness :
  exists found,
    DuplicateDetectorAsync.findDuplicatesForTab URLModel.parse 3 five_tab_browser
      = (Ok found, five_tab_browser) /\
    forall t, has_id t = true ->
      (t ∈ found <->
       t ∈ [open_tab 1 "https://example.com/a?x=1&y=2";
            open_tab 3 "https://EXAMPLE.com:443/a?y=2&x=1";
            open_tab 5 "https://example.com/a?x=1&y=2#section"] /\ tab_id t <> Some 3).
Proof.
  apply (findDuplicatesForTab_agrees_with_scan URLModel.parse five_tab_browser
           (mkDuplicateGroup (open_tab 1 "https://example.com/a?x=1&y=2")
              [open_tab 3 "https://EXAMPLE.com:443/a?y=2&x=1";
               open_tab 5 "https://example.com/a?x=1&y=2#section"])
           (open_tab 3 "https://EXAMPLE.com:443/a?y=2&x=1") 3).
  - exact five_open_tabs_unique.
  - vm_compute. left.
  - right. left.
  - reflexivity.
Defined.

(** ** The LLM service *)

(** *** What the parser lets through *)

(** A suggested group that can be acted on for a batch: it has a name, at
    least two tabs, only tabs of the batch, and no color. *)
Definition sound_group (tabBatch : list TabDetail) (g : LLMService.TabGroup) : Prop :=
  LLMService.name g <> "" /\
  (2 <= length (LLMService.tabIds g))%nat /\
  (forall id, id ∈ LLMService.tabIds g -> id ∈ map detail_id tabBatch) /\
  LLMService.color g = None.

Lemma trim_start_shape (s : string) :
  JS.trim_start s = "" \/ exists c r, JS.trim_start s = String c r /\ JS.is_space c = false.
Proof.
  induction s as [|c s IH]; [now left|]. cbn.
  destruct (JS.is_space c) eqn:E; [exact IH|]. right. now exists c, s.
Qed.

Lemma trim_shape (s : string) :
  JS.trim s = "" \/ exists c r, JS.trim s = String c r /\ JS.is_space c = false.
Proof.
  unfold JS.trim. destruct (trim_start_shape s) as [->|(c & r & -> & Hc)]; [now left|].
  right. exists c, (JS.trim_end r). cbn. now rewrite Hc.
Qed.

Lemma Z_mem_elem (x : Z) (l : list Z) : Z_mem x l = true -> x ∈ l.
Proof.
  unfold Z_mem. rewrite existsb_exists. intros (y & Hy & E).
  apply Z.eqb_eq in E. subst y. now apply list_elem_of_In.
Qed.

Lemma parse_piece_sound (tabBatch : list TabDetail) (groups : list LLMService.TabGroup)
    (piece : string) :
  Forall (sound_group tabBatch) groups ->
  Forall (sound_group tabBatch) (LLMService.parse_piece tabBatch groups piece).
Proof.
  intros Hgroups. unfold LLMService.parse_piece.
  destruct (trim_shape piece) as [->|(c & r & -> & Hc)]; [exact Hgroups|].
  cbn [JS.truthy negb]. change (JS.truthy (String c r)) with true. cbn [negb].
  assert (Hline : exists l, LLMService.first_line (String c r) = Some (String c l)).
  { unfold LLMService.first_line. cbn [JS.span].
    assert (Hnl : JS.is_newline c = false).
    { destruct c as [[] [] [] [] [] [] [] []]; try reflexivity; discriminate Hc. }
    rewrite Hnl. cbn. now eexists. }
  destruct Hline as (l & ->).
  assert (Hname : JS.trim (String c l) <> "").
  { unfold JS.trim. cbn. rewrite Hc. cbn. rewrite Hc. discriminate. }
  destruct (match LLMService.capture ["Tab IDs:"] (String c r) with
            | Some cap => Some cap
            | None => LLMService.capture ["Tabs:"; "Tab:"] (String c r)
            end) as [cap|]; [|exact Hgroups].
  cbv zeta.
  match goal with
  | |- context [(2 <=? length ?ids)%nat] => set (groupTabIds := ids)
  end.
  destruct (Nat.leb_spec 2 (length groupTabIds)) as [Hlen|Hlen]; [|exact Hgroups].
  apply Forall_app. split; [exact Hgroups|]. apply Forall_singleton.
  split; [exact Hname|]. split; [exact Hlen|]. split; [|reflexivity].
  cbn [LLMService.tabIds]. intros id Hid. unfold groupTabIds in Hid.
  destruct (LLMService.test_ordinal (JS.trim cap)).
  - apply list_elem_of_omap in Hid as (index & _ & Hidx).
    destruct (Z.leb 0 index && Z.ltb index (Z.of_nat (length tabBatch))); [|discriminate].
    destruct (nth_error tabBatch (Z.to_nat index)) as [d|] eqn:En; [|discriminate].
    inversion Hidx; subst id. apply list_elem_of_fmap_2.
    apply list_elem_of_In. eapply nth_error_In. exact En.
  - apply list_elem_of_In, filter_In in Hid as [_ Hid]. now apply Z_mem_elem.
Qed.

Lemma parse_pieces_sound (tabBatch : list TabDetail) (pieces : list string)
    (groups : list LLMService.TabGroup) :
  Forall (sound_group tabBatch) groups ->
  Forall (sound_group tabBatch) (fold_left (LLMService.parse_piece tabBatch) pieces groups).
Proof.
  revert groups. induction pieces as [|p pieces IH]; intros groups H; [exact H|].
  cbn [fold_left]. apply IH. now apply parse_piece_sound.
Qed.

Lemma parseGroupAnalysis_sound (analysisText : string) (tabBatch : list TabDetail) :
  Forall (sound_group tabBatch) (LLMService._parseGroupAnalysis analysisText tabBatch).
Proof.
  unfold LLMService._parseGroupAnalysis.
  destruct (LLMService.split_headings 0 true analysisText "") as [|intro pieces];
    [constructor|].
  apply parse_pieces_sound. constructor.
Qed.

(** X7: whatever the completion text is, every group that
    [_parseGroupAnalysis] returns has a non-empty name, at least two tab
    identifiers, only identifiers of tabs of the analysed batch, and no
    color; and a completion without any colon yields no group. *)
Theorem parseGroupAnalysis_lets_only_batch_tabs_through
    (analysisText : string) (tabBatch : list TabDetail) :
  Forall (fun g =>
            LLMService.name g <> "" /\
            (2 <= length (LLMService.tabIds g))%nat /\
            (forall id, id ∈ LLMService.tabIds g -> id ∈ map detail_id tabBatch) /\
            LLMService.color g = None)
         (LLMService._parseGroupAnalysis analysisText tabBatch) /\
  (no_colon analysisText = true -> LLMService._parseGroupAnalysis analysisText tabBatch = []).
Proof.
  split; [apply parseGroupAnalysis_sound|].
  intros Hnc. unfold LLMService._parseGroupAnalysis.
  pose proof (split_completion [] analysisText "" true Hnc eq_refl) as E.
  unfold completion in E. cbn [fold_right map] in E. rewrite append_nil_r in E.
  now rewrite E.
Qed.

Lemma parseGroupAnalysis_lets_only_batch_tabs_through_witness :
  LLMService._parseGroupAnalysis "I would rather keep these tabs apart." sample_batch = [].
Proof.
  apply (proj2 (parseGroupAnalysis_lets_only_batch_tabs_through
                  "I would rather keep these tabs apart." sample_batch)).
  reflexivity.
Defined.

(** *** Batches *)

Lemma batches_spec {X : Type} (size : nat) (l : list X) (fuel : nat) :
  (0 < size)%nat -> (length l <= fuel)%nat ->
  concat (LLMService.batches fuel size l) = l /\
  Forall (fun batch => (1 <= length batch <= size)%nat) (LLMService.batches fuel size l) /\
  (length (LLMService.batches fuel size l) * size < length l + size)%nat /\
  (length l <= length (LLMService.batches fuel size l) * size)%nat.
Proof.
  intros Hsize. revert l. induction fuel as [|fuel IH]; intros l Hl.
  - destruct l; [|cbn in Hl; lia]. cbn. repeat split; [constructor | lia | lia].
  - destruct l as [|x l]; [cbn; repeat split; [constructor | lia | lia]|].
    change (LLMService.batches (S fuel) size (x :: l))
      with (firstn size (x :: l) :: LLMService.batches fuel size (skipn size (x :: l))).
    assert (Hskip : (length (skipn size (x :: l)) <= fuel)%nat).
    { rewrite length_skipn. cbn in Hl |- *. lia. }
    destruct (IH _ Hskip) as (Hc & Hf & Hlt & Hge).
    cbn [concat]. rewrite Hc, firstn_skipn. split; [reflexivity|]. split.
    + constructor; [|exact Hf]. rewrite length_firstn. cbn [length].
      destruct (Nat.min_spec size (S (length l))) as [[? ->]|[? ->]]; lia.
    + rewrite length_skipn in Hlt, Hge. cbn [length] in *.
      destruct (length (LLMService.batches fuel size (skipn size (x :: l)))) as [|k]; [lia|].
      nia.
Qed.

(** X8: the batches of [suggestTabGroups], concatenated, are the list of
    tab details: no tab is left out, none is analysed twice, the order is
    kept.  Every batch has between one and ten tabs, and there are as many
    batches as the number of tabs divided by ten, rounded up. *)
Theorem suggestTabGroups_batches_cover {X : Type} (tabDetails : list X) :
  let tabBatches :=
    LLMService.batches (length tabDetails) LLMService.MAX_TABS_PER_BATCH tabDetails in
  concat tabBatches = tabDetails /\
  Forall (fun batch => (1 <= length batch <= 10)%nat) tabBatches /\
  length tabBatches = ((length tabDetails + 9) / 10)%nat.
Proof.
  cbn zeta.
  destruct (batches_spec LLMService.MAX_TABS_PER_BATCH tabDetails (length tabDetails))
    as (Hc & Hf & Hlt & Hge); [unfold LLMService.MAX_TABS_PER_BATCH; lia | lia |].
  split; [exact Hc|]. split; [exact Hf|].
  unfold LLMService.MAX_TABS_PER_BATCH in *.
  apply Nat.div_unique with (r := (length tabDetails + 9 -
     10 * length (LLMService.batches (length tabDetails) 10 tabDetails))%nat); lia.
Qed.

(** *** Configuration and dispatch *)

Section ServiceFacts.

Variable getSettings : Result LLMSettings.
Variable getTabContent : Z -> Result string.
Variable _callAzureOpenAI _callOpenAI _callAnthropic _callCustomLLM :
  string -> LLMSettings -> Result string.
Variable groupingPrompt : list TabDetail -> string.

Abbreviation isConfigured' := (LLMService.isConfigured getSettings).
Abbreviation _callLLM' :=
  (LLMService._callLLM getSettings _callAzureOpenAI _callOpenAI _callAnthropic _callCustomLLM).
Abbreviation tab_detail' := (LLMService.tab_detail getTabContent).
Abbreviation analyze_batch' :=
  (LLMService.analyze_batch getSettings
     _callAzureOpenAI _callOpenAI _callAnthropic _callCustomLLM groupingPrompt).

Lemma configured_dispatch (b : Browser) (prompt : string) :
  isConfigured' b = (Ok true, b) ->
  exists settings adapter,
    getSettings = Ok settings /\
    JS.truthy (llmApiKey settings) = true /\
    adapter ∈ [(_callAzureOpenAI, "azure"); (_callOpenAI, "openai");
               (_callAnthropic, "anthropic"); (_callCustomLLM, "custom")] /\
    llmProvider settings = snd adapter /\
    _callLLM' prompt b = (fst adapter prompt settings, b).
Proof.
  unfold LLMService.isConfigured, LLMService._callLLM, try_catch, await, of_result, resolve.
  destruct getSettings as [settings|e]; [|discriminate].
  intros H. exists settings.
  destruct (String.eqb_spec (llmProvider settings) "azure") as [E1|E1].
  { exists (_callAzureOpenAI, "azure"). injection H as Hk.
    apply andb_true_iff in Hk as [Hk _]. rewrite Hk.
    split; [reflexivity|]. split; [reflexivity|]. split; [now left|]. now split. }
  destruct (String.eqb_spec (llmProvider settings) "openai") as [E2|E2].
  { exists (_callOpenAI, "openai"). injection H as Hk. rewrite Hk.
    split; [reflexivity|]. split; [reflexivity|]. split; [right; now left|]. now split. }
  destruct (String.eqb_spec (llmProvider settings) "anthropic") as [E3|E3].
  { exists (_callAnthropic, "anthropic"). injection H as Hk. rewrite Hk.
    split; [reflexivity|]. split; [reflexivity|]. split; [do 2 right; now left|]. now split. }
  destruct (String.eqb_spec (llmProvider settings) "custom") as [E4|E4].
  { exists (_callCustomLLM, "custom"). injection H as Hk.
    apply andb_true_iff in Hk as [Hk _]. rewrite Hk.
    split; [reflexivity|]. split; [reflexivity|]. split; [do 3 right; now left|]. now split. }
  discriminate.
Qed.

(** The details that were read belong to requested, open tabs. *)
Lemma tab_detail_known (tabId : Z) (b : Browser) (d : TabDetail) :
  tab_detail' tabId b = (Ok (Some d), b) ->
  detail_id d = tabId /\ exists t, t ∈ tabs b /\ tab_id t = Some tabId.
Proof.
  unfold LLMService.tab_detail, try_catch, await.
  destruct (chrome.tabs_get tabId b) as [[tab|e] b1] eqn:Eget;
    apply tabs_get_reads in Eget as [-> Htab]; [|discriminate].
  destruct (Htab tab eq_refl) as [Hin Hid].
  unfold of_result, resolve.
  destruct (getTabContent tabId); intros H; inversion H; cbn; rewrite Hid;
    (split; [reflexivity | now exists tab]).
Qed.

Lemma tab_details_known (tabIds : list Z) (b : Browser) (ds : list (option TabDetail)) :
  await_all tab_detail' tabIds b = (Ok ds, b) ->
  forall d, d ∈ omap (fun d => d) ds ->
    detail_id d ∈ tabIds /\ exists t, t ∈ tabs b /\ tab_id t = Some (detail_id d).
Proof.
  revert ds. induction tabIds as [|i tabIds IH]; intros ds H d Hd.
  - inversion H; subst ds. inversion Hd.
  - cbn [await_all] in H. unfold await at 1 in H.
    destruct (tab_detail_total getTabContent i b) as [d0 E0]. rewrite E0 in H.
    unfold await at 1 in H.
    destruct (tab_details_total getTabContent tabIds b) as [ds' E']. rewrite E' in H.
    inversion H; subst ds. cbn [omap list_omap] in Hd.
    destruct d0 as [d0|].
    + apply elem_of_cons in Hd as [->|Hd].
      * destruct (tab_detail_known i b d0 E0) as [-> Hopen]. split; [now left | exact Hopen].
      * destruct (IH ds' E' d Hd) as [Hin Hopen]. split; [now right | exact Hopen].
    + destruct (IH ds' E' d Hd) as [Hin Hopen]. split; [now right | exact Hopen].
Qed.

Lemma analyze_batches_sound (all : list TabDetail) (batches : list (list TabDetail))
    (results groups : list LLMService.TabGroup) (b b' : Browser) :
  (forall batch, batch ∈ batches -> forall d, d ∈ batch -> d ∈ all) ->
  Forall (sound_group all) results ->
  for_each analyze_batch' batches results b = (Ok groups, b') ->
  Forall (sound_group all) groups.
Proof.
  revert results b. induction batches as [|batch batches IH]; intros results b Hsub Hres H.
  - inversion H; now subst.
  - cbn [for_each] in H. unfold await at 1 in H.
    destruct (analyze_batch_total getSettings _callAzureOpenAI _callOpenAI _callAnthropic
                _callCustomLLM groupingPrompt results batch b)
      as [(a & _ & E)|(e & _ & E)]; rewrite E in H.
    + refine (IH _ b _ _ H); [intros x Hx; apply Hsub; now right|].
      apply Forall_app. split; [exact Hres|].
      eapply Forall_impl; [apply parseGroupAnalysis_sound|].
      intros g (Hn & Hl & Hids & Hc). repeat split; try assumption.
      intros id Hid. apply Hids in Hid.
      apply list_elem_of_fmap in Hid as (d & -> & Hd).
      apply list_elem_of_fmap_2. apply (Hsub batch); [now left | exact Hd].
    + refine (IH _ b _ Hres H). intros x Hx. apply Hsub. now right.
Qed.

End ServiceFacts.

(** A configured service that answers every prompt with one completion. *)
Definition grouping_adapter (prompt : string) (settings : LLMSettings) : Result string :=
  Ok (completion sample_intro sample_sections).

Definition library_browser : Browser :=
  mkBrowser [mkTab (Some 11) 0 (Some 1) (Some "https://rocq-prover.org/") (Some "Rocq")
                   TAB_GROUP_ID_NONE;
             mkTab (Some 12) 1 (Some 1) (Some "https://rocq-prover.org/stdlib") (Some "Stdlib")
                   TAB_GROUP_ID_NONE;
             mkTab (Some 13) 2 (Some 1) (Some "https://example.com/recipes") (Some "Recipes")
                   TAB_GROUP_ID_NONE;
             mkTab (Some 14) 3 (Some 1) (Some "https://example.com/bread") (Some "Bread")
                   TAB_GROUP_ID_NONE]
            [] 1 1 0.

(** X9: when [isConfigured] answers true, the settings can be read, hold an
    API key, and name one of the four supported providers; [_callLLM] then is
    the call of that provider's adapter with the prompt and these settings:
    it does not fail with "Unsupported LLM provider", and it leaves the
    browser as it is. *)
Theorem configured_service_reaches_its_provider
    (getSettings : Result LLMSettings)
    (_callAzureOpenAI _callOpenAI _callAnthropic _callCustomLLM :
       string -> LLMSettings -> Result string)
    (b : Browser) (prompt : string) :
  LLMService.isConfigured getSettings b = (Ok true, b) ->
  exists settings adapter,
    getSettings = Ok settings /\
    JS.truthy (llmApiKey settings) = true /\
    adapter ∈ [(_callAzureOpenAI, "azure"); (_callOpenAI, "openai");
               (_callAnthropic, "anthropic"); (_callCustomLLM, "custom")] /\
    llmProvider settings = snd adapter /\
    LLMService._callLLM getSettings _callAzureOpenAI _callOpenAI _callAnthropic
      _callCustomLLM prompt b = (fst adapter prompt settings, b).
Proof. apply configured_dispatch. Qed.

Lemma configured_service_reaches_its_provider_witness :
  exists settings adapter,
    openai_settings = Ok settings /\
    JS.truthy (llmApiKey settings) = true /\
    adapter ∈ [(failing_adapter, "azure"); (grouping_adapter, "openai");
               (failing_adapter, "anthropic"); (failing_adapter, "custom")] /\
    llmProvider settings = snd adapter /\
    LLMService._callLLM openai_settings failing_adapter grouping_adapter failing_adapter
      failing_adapter "prompt" library_browser = (fst adapter "prompt" settings, library_browser).
Proof.
  apply (configured_service_reaches_its_provider openai_settings failing_adapter
           grouping_adapter failing_adapter failing_adapter library_browser "prompt").
  reflexivity.
Defined.

(** What [suggestTabGroups] resolves with. *)
Lemma suggestTabGroups_sound
    (getSettings : Result LLMSettings) (getTabContent : Z -> Result string)
    (_callAzureOpenAI _callOpenAI _callAnthropic _callCustomLLM :
       string -> LLMSettings -> Result string)
    (groupingPrompt : list TabDetail -> string)
    (tabIds : list Z) (b b' : Browser) (groups : list LLMService.TabGroup) :
  LLMService.suggestTabGroups getSettings getTabContent _callAzureOpenAI _callOpenAI
    _callAnthropic _callCustomLLM groupingPrompt tabIds b = (Ok groups, b') ->
  b' = b /\
  Forall (fun g =>
            LLMService.name g <> "" /\
            (2 <= length (LLMService.tabIds g))%nat /\
            (forall id, id ∈ LLMService.tabIds g ->
               id ∈ tabIds /\ exists t, t ∈ tabs b /\ tab_id t = Some id) /\
            LLMService.color g = None)
         groups.
Proof.
  intros H.
  assert (Hb : b' = b).
  { destruct (suggestTabGroups_result getSettings getTabContent _callAzureOpenAI _callOpenAI
                _callAnthropic _callCustomLLM groupingPrompt tabIds b)
      as [E|[E|(g & E & _)]]; rewrite E in H; now inversion H. }
  subst b'. split; [reflexivity|].
  unfold LLMService.suggestTabGroups, await at 1 in H.
  destruct (isConfigured_reads getSettings b) as [c Ec]. rewrite Ec in H.
  destruct c; cbn [negb] in H; [|discriminate].
  unfold await at 1 in H.
  destruct (tab_details_total getTabContent tabIds b) as [ds Eds]. rewrite Eds in H.
  set (tabDetails := omap (fun d => d) ds) in *.
  destruct (length tabDetails =? 0)%nat; [discriminate|].
  pose proof (tab_details_known getTabContent tabIds b ds Eds) as Hknown.
  fold tabDetails in Hknown.
  destruct (batches_spec LLMService.MAX_TABS_PER_BATCH tabDetails (length tabDetails))
    as (Hc & _); [unfold LLMService.MAX_TABS_PER_BATCH; lia | lia |].
  assert (Hsub : forall batch,
            batch ∈ LLMService.batches (length tabDetails) LLMService.MAX_TABS_PER_BATCH tabDetails ->
            forall d, d ∈ batch -> d ∈ tabDetails).
  { intros batch Hbatch d Hd. rewrite <- Hc. apply list_elem_of_In, in_concat.
    exists batch. split; now apply list_elem_of_In. }
  pose proof (analyze_batches_sound getSettings _callAzureOpenAI _callOpenAI _callAnthropic
                _callCustomLLM groupingPrompt tabDetails _ [] groups b b Hsub
                (Forall_nil_2 _) H) as Hsound.
  eapply Forall_impl; [exact Hsound|].
  intros g (Hn & Hl & Hids & Hcolor). split; [exact Hn|]. split; [exact Hl|].
  split; [|exact Hcolor].
  intros id Hid. apply Hids in Hid. apply list_elem_of_fmap in Hid as (d & -> & Hd).
  now apply Hknown.
Qed.

(** X10: when [suggestTabGroups] resolves, the browser is unchanged and
    every suggested group has a non-empty name, at least two tab
    identifiers, and only identifiers that were requested and that name an
    open tab, whatever the LLM answered. *)
Theorem suggestTabGroups_suggests_requested_tabs
    (getSettings : Result LLMSettings) (getTabContent : Z -> Result string)
    (_callAzureOpenAI _callOpenAI _callAnthropic _callCustomLLM :
       string -> LLMSettings -> Result string)
    (groupingPrompt : list TabDetail -> string)
    (tabIds : list Z) (b b' : Browser) (groups : list LLMService.TabGroup) :
  LLMService.suggestTabGroups getSettings getTabContent _callAzureOpenAI _callOpenAI
    _callAnthropic _callCustomLLM groupingPrompt tabIds b = (Ok groups, b') ->
  b' = b /\
  Forall (fun g =>
            LLMService.name g <> "" /\
            (2 <= length (LLMService.tabIds g))%nat /\
            forall id, id ∈ LLMService.tabIds g ->
              id ∈ tabIds /\ exists t, t ∈ tabs b /\ tab_id t = Some id)
         groups.
Proof.
  intros H.
  destruct (suggestTabGroups_sound _ _ _ _ _ _ _ _ _ _ _ H) as [-> Hsound].
  split; [reflexivity|].
  eapply Forall_impl; [exact Hsound|].
  intros g (Hn & Hl & Hids & _). split; [exact Hn|]. split; [exact Hl | exact Hids].
Qed.

Lemma suggestTabGroups_suggests_requested_tabs_witness :
  LLMService.suggestTabGroups openai_settings page_content failing_adapter grouping_adapter
    failing_adapter failing_adapter (fun _ => "prompt") [11; 12; 13; 14; 15] library_browser
    = (Ok [LLMService.mkTabGroup "Proof assistants" [11; 12; 11] None;
           LLMService.mkTabGroup "Cooking" [13; 14] None], library_browser) /\
  Forall (fun g =>
            LLMService.name g <> "" /\
            (2 <= length (LLMService.tabIds g))%nat /\
            forall id, id ∈ LLMService.tabIds g ->
              id ∈ [11; 12; 13; 14; 15] /\
              exists t, t ∈ tabs library_browser /\ tab_id t = Some id)
         [LLMService.mkTabGroup "Proof assistants" [11; 12; 11] None;
          LLMService.mkTabGroup "Cooking" [13; 14] None].
Proof.
  assert (E : LLMService.suggestTabGroups openai_settings page_content failing_adapter
                grouping_adapter failing_adapter failing_adapter (fun _ => "prompt")
                [11; 12; 13; 14; 15] library_browser
              = (Ok [LLMService.mkTabGroup "Proof assistants" [11; 12; 11] None;
                     LLMService.mkTabGroup "Cooking" [13; 14] None], library_browser))
    by (vm_compute; reflexivity).
  split; [exact E|].
  exact (proj2 (suggestTabGroups_suggests_requested_tabs _ _ _ _ _ _ _ _ _ _ _ E)).
Defined.

(** *** Summaries *)

(** X11: [summarizeTab] only reads the browser, and each of its rejections
    carries a message that starts with "Failed to summarize tab: ".  With a
    configured service and a tab whose content could be read: for fewer than
    50 characters of content it resolves with the "Unable to generate summary"
    text whatever the provider would answer; otherwise it resolves with the
    provider's answer, and a failure of the LLM call reaches the caller as a
    rejection with the prefixed message. *)
Theorem summarizeTab_reports_failures
    (getSettings : Result LLMSettings) (getTabContent : Z -> Result string)
    (_callAzureOpenAI _callOpenAI _callAnthropic _callCustomLLM :
       string -> LLMSettings -> Result string)
    (tabId : Z) (b : Browser) :
  let summarizeTab := LLMService.summarizeTab getSettings getTabContent
                        _callAzureOpenAI _callOpenAI _callAnthropic _callCustomLLM in
  let _callLLM := LLMService._callLLM getSettings _callAzureOpenAI _callOpenAI
                    _callAnthropic _callCustomLLM in
  (exists r, summarizeTab tabId b = (r, b) /\
     forall message, r = Err message ->
       exists e, message = "Failed to summarize tab: " ++ e) /\
  (forall tab content,
     LLMService.isConfigured getSettings b = (Ok true, b) ->
     chrome.tabs_get tabId b = (Ok tab, b) ->
     getTabContent tabId = Ok content ->
     ((String.length content < 50)%nat ->
      summarizeTab tabId b =
        (Ok ("Unable to generate summary for " ++ LLMService.double_quote ++
             LLMService.template (tab_title tab) ++ LLMService.double_quote ++
             ". Not enough content available."), b)) /\
     ((50 <= String.length content)%nat ->
      forall r, _callLLM (LLMService.summaryPrompt tab content) b = (r, b) ->
        summarizeTab tabId b =
          (match r with
           | Ok summary => Ok summary
           | Err e => Err ("Failed to summarize tab: " ++ e)
           end, b))).
Proof.
  cbn zeta. split.
  - unfold LLMService.summarizeTab, try_catch, await at 1.
    destruct (isConfigured_reads getSettings b) as [c ->].
    destruct c; cbn [negb]; [|unfold reject; eexists; split; [reflexivity|];
                              intros m Hm; inversion Hm; now eexists].
    unfold await at 1.
    destruct (chrome.tabs_get tabId b) as [[tab|e] b1] eqn:Eget;
      apply tabs_get_reads in Eget as [-> _].
    2:{ unfold reject. eexists. split; [reflexivity|]. intros m Hm. inversion Hm. now eexists. }
    unfold await at 1, of_result.
    destruct (getTabContent tabId) as [content|e].
    2:{ unfold reject. eexists. split; [reflexivity|]. intros m Hm. inversion Hm. now eexists. }
    destruct (negb (JS.truthy content) || (String.length content <? 50)%nat).
    + unfold resolve. eexists. split; [reflexivity|]. intros m Hm. discriminate.
    + destruct (_callLLM_reads getSettings _callAzureOpenAI _callOpenAI _callAnthropic
                  _callCustomLLM (LLMService.summaryPrompt tab content) b) as [[s|e] ->].
      * eexists. split; [reflexivity|]. intros m Hm. discriminate.
      * unfold reject. eexists. split; [reflexivity|]. intros m Hm. inversion Hm. now eexists.
  - intros tab content Hconf Hget Hcontent.
    assert (Hrun : LLMService.summarizeTab getSettings getTabContent _callAzureOpenAI
                     _callOpenAI _callAnthropic _callCustomLLM tabId b =
                   let (r, b') :=
                     (if negb (JS.truthy content) || (String.length content <? 50)%nat
                      then resolve ("Unable to generate summary for " ++
                                    LLMService.double_quote ++
                                    LLMService.template (tab_title tab) ++
                                    LLMService.double_quote ++
                                    ". Not enough content available.")
                      else LLMService._callLLM getSettings _callAzureOpenAI _callOpenAI
                             _callAnthropic _callCustomLLM
                             (LLMService.summaryPrompt tab content)) b in
                   match r with
                   | Ok a => (Ok a, b')
                   | Err e => (Err ("Failed to summarize tab: " ++ e), b')
                   end).
    { unfold LLMService.summarizeTab, try_catch, await at 1. rewrite Hconf. cbn [negb].
      unfold await at 1. rewrite Hget. unfold await at 1, of_result. rewrite Hcontent.
      reflexivity. }
    rewrite Hrun. split.
    + intros Hshort. apply Nat.ltb_lt in Hshort. rewrite Hshort, orb_true_r. reflexivity.
    + intros Hlong r Hcall.
      assert (Ht : JS.truthy content = true) by (destruct content; [cbn in Hlong; lia | reflexivity]).
      apply Nat.ltb_ge in Hlong. rewrite Hlong, Ht. cbn [negb orb].
      rewrite Hcall. now destruct r.
Qed.

Definition long_page_content (tabId : Z) : Result string :=
  Ok "Rocq is a formal proof management system. It provides a formal language to write definitions and proofs.".

Lemma summarizeTab_reports_failures_witness :
  LLMService.summarizeTab openai_settings long_page_content failing_adapter failing_adapter
    failing_adapter failing_adapter 11 library_browser
  = (Err "Failed to summarize tab: OpenAI API error (500): Internal Server Error",
     library_browser) /\
  LLMService.summarizeTab openai_settings page_content failing_adapter failing_adapter
    failing_adapter failing_adapter 11 library_browser
  = (Ok ("Unable to generate summary for " ++ LLMService.double_quote ++ "Rocq" ++
         LLMService.double_quote ++ ". Not enough content available."), library_browser).
Proof.
  split.
  - refine (proj2 (proj2 (summarizeTab_reports_failures openai_settings long_page_content
                     failing_adapter failing_adapter failing_adapter failing_adapter
                     11 library_browser) _ _ eq_refl eq_refl eq_refl) _
                  (Err "OpenAI API error (500): Internal Server Error") eq_refl).
    vm_compute. lia.
  - refine (proj1 (proj2 (summarizeTab_reports_failures openai_settings page_content
                     failing_adapter failing_adapter failing_adapter failing_adapter
                     11 library_browser) _ _ eq_refl eq_refl eq_refl) _).
    vm_compute. lia.
Defined.

(** ** The group manager *)

(** *** Time buckets *)

(** Two tabs that the time window keeps together: the difference of their
    identifiers, scaled, does not exceed the window. *)
Definition close_enough (timeWindowInMinutes : Q) (x y : Tab) : Prop :=
  Qle_bool (inject_Z (GroupManager.id_or_0 y - GroupManager.id_or_0 x) * (1 # 10))
           (timeWindowInMinutes * 60) = true.

(** Every tab of the list is close enough to the next one. *)
Fixpoint linked (timeWindowInMinutes : Q) (l : list Tab) : Prop :=
  match l with
  | x :: rest =>
      match rest with
      | y :: _ => close_enough timeWindowInMinutes x y /\ linked timeWindowInMinutes rest
      | [] => True
      end
  | [] => True
  end.

Lemma linked_snoc (T : Q) (l : list Tab) (d tab : Tab) :
  l <> [] -> linked T l -> close_enough T (List.last l d) tab -> linked T (l ++ [tab]).
Proof.
  induction l as [|x l IH]; intros Hne Hl Hc; [congruence|].
  destruct l as [|y l].
  - cbn in *. now split.
  - change ((x :: y :: l) ++ [tab])%list with (x :: ((y :: l) ++ [tab]))%list.
    destruct Hl as [Hxy Hl].
    change (linked T (x :: (y :: l) ++ [tab]))
      with (close_enough T x y /\ linked T ((y :: l) ++ [tab])).
    split; [exact Hxy|]. apply IH; [discriminate | exact Hl | exact Hc].
Qed.

Lemma linked_app_last (T : Q) (l : list Tab) (d tab : Tab) (rest : list Tab) :
  l <> [] -> linked T (l ++ tab :: rest) ->
  close_enough T (List.last l d) tab /\ linked T (l ++ [tab]) /\ linked T (tab :: rest).
Proof.
  induction l as [|x l IH]; intros Hne Hl; [congruence|].
  destruct l as [|y l].
  - cbn in Hl |- *. destruct Hl as [Hc Hr]. repeat split; assumption.
  - change ((x :: y :: l) ++ tab :: rest)%list with (x :: ((y :: l) ++ tab :: rest))%list in Hl.
    change (linked T (x :: (y :: l) ++ tab :: rest))
      with (close_enough T x y /\ linked T ((y :: l) ++ tab :: rest)) in Hl.
    destruct Hl as [Hxy Hl].
    destruct (IH ltac:(discriminate) Hl) as (Hc & Hl1 & Hl2).
    split; [exact Hc|]. split; [|exact Hl2].
    change ((x :: y :: l) ++ [tab])%list with (x :: ((y :: l) ++ [tab]))%list.
    change (linked T (x :: (y :: l) ++ [tab]))
      with (close_enough T x y /\ linked T ((y :: l) ++ [tab])).
    now split.
Qed.

(** What the loop over the sorted tabs maintains: the current bucket is not
    empty, the finished buckets have two or more tabs, every bucket is
    linked, and the buckets in order are taken from the tabs seen so far. *)
Definition time_inv (T : Q) (seen : list Tab) (st : list (list Tab) * list Tab) : Prop :=
  snd st <> [] /\
  Forall (fun bucket => (2 <= length bucket)%nat /\ linked T bucket) (fst st) /\
  linked T (snd st) /\
  (concat (fst st) ++ snd st)%list `sublist_of` seen.

Lemma time_step_inv (T : Q) (seen : list Tab) (st : list (list Tab) * list Tab) (tab : Tab) :
  time_inv T seen st -> time_inv T (seen ++ [tab])%list (GroupManager.time_step T st tab).
Proof.
  intros (Hne & Hdone & Hcur & Hsub). unfold GroupManager.time_step.
  destruct (Qle_bool _ _) eqn:Hclose.
  - split; [|split; [|split]]; cbn [fst snd].
    + destruct (snd st); discriminate.
    + exact Hdone.
    + now apply (linked_snoc T _ tab).
    + rewrite app_assoc. now apply sublist_app.
  - assert (Hsub' : forall done, concat done `sublist_of` seen ->
              (concat done ++ [tab])%list `sublist_of` (seen ++ [tab])%list)
      by (intros done Hd; now apply sublist_app).
    destruct (Nat.ltb_spec 1 (length (snd st))) as [Hlen|Hlen]; split; cbn [fst snd];
      try discriminate; (split; [|split; [exact I|]]).
    + apply Forall_app. split; [exact Hdone|]. apply Forall_singleton. split; [lia | exact Hcur].
    + apply Hsub'. rewrite concat_app. cbn. now rewrite app_nil_r.
    + exact Hdone.
    + apply Hsub'. etransitivity; [|exact Hsub]. apply sublist_inserts_r. reflexivity.
Qed.

Lemma time_steps_inv (T : Q) (others seen : list Tab) (st : list (list Tab) * list Tab) :
  time_inv T seen st ->
  time_inv T (seen ++ others)%list (fold_left (GroupManager.time_step T) others st).
Proof.
  revert seen st. induction others as [|tab others IH]; intros seen st Hinv.
  - now rewrite app_nil_r.
  - cbn [fold_left]. replace (seen ++ tab :: others)%list with ((seen ++ [tab]) ++ others)%list
      by now rewrite <- app_assoc.
    apply IH. now apply time_step_inv.
Qed.

Lemma time_steps_linked (T : Q) (others cur : list Tab) (done : list (list Tab)) :
  cur <> [] -> linked T (cur ++ others) ->
  fold_left (GroupManager.time_step T) others (done, cur) = (done, (cur ++ others)%list).
Proof.
  revert cur. induction others as [|tab others IH]; intros cur Hne Hl.
  - now rewrite app_nil_r.
  - cbn [fold_left]. destruct (linked_app_last T cur tab tab others Hne Hl) as (Hc & _ & _).
    unfold GroupManager.time_step at 2. cbn [fst snd].
    unfold close_enough in Hc. rewrite Hc.
    rewrite IH.
    + now rewrite <- app_assoc.
    + destruct cur; discriminate.
    + now rewrite <- app_assoc.
Qed.



(** *** Domain clusters *)

Lemma ids_of_push_None (d d' : string) (o : list (string * list Z)) :
  ids_of d (GroupManager.push_domain d' None o) = ids_of d o.
Proof.
  unfold ids_of. induction o as [|[k ids] o IH]; cbn.
  - now destruct (String.eqb d' d).
  - destruct (String.eqb_spec k d') as [->|Hk]; cbn; [reflexivity|].
    destruct (String.eqb k d); [reflexivity | exact IH].
Qed.

Lemma ids_of_entry (d : string) (i : Z) (o : list (string * list Z)) :
  NoDup (map fst o) ->
  (i ∈ ids_of d o <-> exists ids, (d, ids) ∈ o /\ i ∈ ids).
Proof.
  intros Hnd. split.
  - unfold ids_of. destruct (List.find _ o) as [[k ids]|] eqn:E; [|intros H; inversion H].
    apply find_some in E as [Hin Hk]. cbn in Hk. apply String.eqb_eq in Hk. subst k.
    intros Hi. exists ids. split; [now apply list_elem_of_In | exact Hi].
  - intros (ids & Hin & Hi). pose proof (entry_ids_of (d, ids) o Hnd Hin) as E.
    cbn in E. now rewrite <- E.
Qed.

Section ClusterFacts.
Variable new_URL : string -> option URL.

(** The condition under which the loop of [groupTabsByDomain] stores the
    identifier [i] of a tab under the domain [d]. *)
Definition clustered (d : string) (i : Z) (t : Tab) : Prop :=
  tab_id t = Some i /\
  tab_groupId t = TAB_GROUP_ID_NONE /\
  GroupManager.special_page (tab_url t) = false /\
  (exists u hostname_u, tab_url t = Some u /\ new_URL u = Some hostname_u /\
     d = GroupManager.strip_www (hostname hostname_u)) /\
  GroupManager.inherited_property d = false.

Lemma collect_domain_ids (t : Tab) (o : list (string * list Z)) (d : string) (i : Z) :
  i ∈ ids_of d (GroupManager.collect_domain new_URL o t) <->
  i ∈ ids_of d o \/ clustered d i t.
Proof.
  unfold GroupManager.collect_domain, clustered.
  destruct (Z.eqb_spec (tab_groupId t) TAB_GROUP_ID_NONE) as [Hg|Hg]; cbn [negb orb].
  2:{ split; [now left|]. intros [H | (_ & H & _)]; [exact H | contradiction]. }
  destruct (GroupManager.special_page (tab_url t)) eqn:Hsp.
  { split; [now left|]. intros [H | (_ & _ & H & _)]; [exact H | discriminate]. }
  destruct (tab_url t) as [u|] eqn:Hu; [|discriminate Hsp].
  unfold GroupManager.domain_of. destruct (new_URL u) as [url|] eqn:Hparse.
  2:{ split; [now left|]. intros [H | (_ & _ & _ & (u' & h & E & Hp & _) & _)]; [exact H|].
      inversion E; subst u'. congruence. }
  destruct (GroupManager.inherited_property (GroupManager.strip_www (hostname url))) eqn:Hin.
  { split; [now left|]. intros [H | (_ & _ & _ & (u' & h & E & Hp & ->) & Hinh)]; [exact H|].
    inversion E; subst u'. rewrite Hparse in Hp. inversion Hp; subst h. congruence. }
  destruct (tab_id t) as [j|] eqn:Hid.
  - rewrite ids_of_push. destruct (String.eqb_spec (GroupManager.strip_www (hostname url)) d) as [E|E].
    + rewrite elem_of_app, list_elem_of_singleton. split.
      * intros [H | ->]; [now left|]. right. split; [reflexivity|]. split; [exact Hg|].
        split; [reflexivity|]. split; [|now rewrite <- E]. now exists u, url.
      * intros [H | (Hj & _)]; [now left|]. right. now inversion Hj.
    + split; [now left|]. intros [H | (_ & _ & _ & (u' & h & Eu & Hp & ->) & _)]; [exact H|].
      inversion Eu; subst u'. rewrite Hparse in Hp. inversion Hp; subst h. congruence.
  - rewrite ids_of_push_None. split; [now left|].
    intros [H | (Hj & _)]; [exact H | discriminate].
Qed.

Lemma collect_domains_ids (ts : list Tab) (o : list (string * list Z)) (d : string) (i : Z) :
  i ∈ ids_of d (fold_left (GroupManager.collect_domain new_URL) ts o) <->
  i ∈ ids_of d o \/ exists t, t ∈ ts /\ clustered d i t.
Proof.
  revert o. induction ts as [|t ts IH]; intros o; cbn [fold_left].
  - split; [now left|]. intros [H | (t & Ht & _)]; [exact H | inversion Ht].
  - rewrite IH, collect_domain_ids. split.
    + intros [[H|H]|(t' & Ht' & H)]; [now left | right; exists t; split; [now left | exact H] |].
      right. exists t'. split; [now right | exact H].
    + intros [H | (t' & Ht' & H)]; [left; now left|].
      apply elem_of_cons in Ht' as [->|Ht']; [left; now right|].
      right. now exists t'.
Qed.

End ClusterFacts.

(** X13: the clusters that [groupTabsByDomain] builds from the fetched tabs.
    Each domain has one entry, and the identifier [i] is stored under the
    domain [d] exactly when one of the tabs has the identifier [i], is
    ungrouped, shows a page that is not internal or blank, has a URL that the
    URL constructor accepts with host name [d] once a leading [www.] is
    removed, and [d] is not the name of a property that every object inherits
    (for such a name the [push] fails and the tab is skipped). *)
Theorem groupTabsByDomain_clusters
    (new_URL : string -> option URL) (tabs : list Tab) (d : string) (i : Z) :
  let domainGroups := fold_left (GroupManager.collect_domain new_URL) tabs [] in
  NoDup (map fst domainGroups) /\
  ((exists ids, (d, ids) ∈ domainGroups /\ i ∈ ids) <->
   exists t, t ∈ tabs /\
     tab_id t = Some i /\
     tab_groupId t = TAB_GROUP_ID_NONE /\
     GroupManager.special_page (tab_url t) = false /\
     (exists u url, tab_url t = Some u /\ new_URL u = Some url /\
        d = GroupManager.strip_www (hostname url)) /\
     GroupManager.inherited_property d = false).
Proof.
  cbn zeta.
  assert (Hnd : NoDup (map fst (fold_left (GroupManager.collect_domain new_URL) tabs [])))
    by (apply collect_domain_keys; constructor).
  split; [exact Hnd|].
  rewrite <- (ids_of_entry d i _ Hnd), collect_domains_ids. split.
  - intros [H|H]; [inversion H | exact H].
  - intros H. now right.
Qed.

(** *** Grouping one tab by its domain *)

Lemma move_into_member (tabIds : list Z) (g w : Z) (ts : list Tab) (tab : Tab) (i : Z) :
  tab ∈ ts -> tab_id tab = Some i -> Z_mem i tabIds = true ->
  exists t, t ∈ chrome.move_into tabIds g w ts /\ tab_id t = Some i /\ tab_groupId t = g.
Proof.
  intros Hin Hid Hmem. eexists. split.
  - unfold chrome.move_into. apply list_elem_of_fmap. exists tab. split; [reflexivity | exact Hin].
  - rewrite Hid, Hmem. cbn. now split.
Qed.

(** X14: what [groupTabByDomain] can come to.  When it resolves with [null]
    the browser is exactly as before; when it resolves with a group
    identifier, the tab is in that group afterwards. *)
Theorem groupTabByDomain_outcome
    (new_URL : string -> option URL) (random_index : nat -> nat)
    (tabId : Z) (b b' : Browser) (result : option Z) :
  GroupManager.groupTabByDomain new_URL random_index tabId b = (Ok result, b') ->
  match result with
  | None => b' = b
  | Some groupId =>
      exists t, t ∈ tabs b' /\ tab_id t = Some tabId /\ tab_groupId t = groupId
  end.
Proof.
  unfold GroupManager.groupTabByDomain, await at 1.
  destruct (chrome.tabs_get tabId b) as [[tab|e] b0] eqn:Eget; [|discriminate].
  apply tabs_get_reads in Eget as [-> Htab]. destruct (Htab tab eq_refl) as [Htin Htid].
  destruct (negb _ || _); [intros H; inversion H; reflexivity|].
  destruct (GroupManager.domain_of new_URL _) as [domain|]; [|discriminate].
  unfold await at 1, GroupManager.getGroupsInWindow, chrome.tabGroups_query.
  match goal with
  | |- context [List.find ?p ?l] => destruct (List.find p l) as [group|] eqn:Efind
  end.
  - unfold await at 1, GroupManager.addTabsToGroup. cbn [length Nat.eqb].
    unfold await at 1.
    destruct (chrome.tabs_group [tabId] (Some (group_id group)) b) as [[g|e] b1] eqn:Eg;
      [|discriminate].
    intros H. inversion H; subst result b1. clear H.
    unfold chrome.tabs_group in Eg. cbn [length Nat.eqb] in Eg.
    destruct (negb _); [discriminate|].
    destruct (List.find _ (groups b)) as [grp|]; [|discriminate].
    inversion Eg; subst b'. cbn [tabs].
    apply (move_into_member _ _ _ _ tab); try assumption. cbn. now rewrite Z.eqb_refl.
  - unfold await at 1, chrome.tabs_query.
    match goal with
    | |- context [(0 <? length ?l)%nat] => destruct (0 <? length l)%nat
    end; [|intros H; inversion H; reflexivity].
    unfold await at 1, GroupManager.getRandomColor.
    unfold await at 1.
    match goal with
    | |- context [GroupManager.createGroup ?ids ?t ?c ?b0] =>
        destruct (GroupManager.createGroup ids t c b0) as [[g|e] b1] eqn:Ecreate
    end; [|discriminate].
    intros H. inversion H; subst result b1. clear H.
    apply createGroup_ok in Ecreate as (_ & Ht & _). rewrite Ht. cbn [tabs current_window].
    apply (move_into_member _ _ _ _ tab); try assumption. cbn. now rewrite Z.eqb_refl.
Qed.

Lemma groupTabByDomain_outcome_witness :
  exists t,
    t ∈ tabs (GroupManager.groupTabByDomain URLModel.parse (fun n => n) 13 library_browser).2 /\
    tab_id t = Some 13 /\ tab_groupId t = 1.
Proof.
  apply (groupTabByDomain_outcome URLModel.parse (fun n => n) 13 library_browser _ (Some 1)).
  vm_compute. reflexivity.
Defined.

(** *** Collapsing and expanding *)

(** A group with its [collapsed] flag set. *)
Definition with_collapsed (collapsed : bool) (g : TabGroup) : TabGroup :=
  mkTabGroup (group_id g) (group_windowId g) (group_title g) (group_color g) collapsed.

Lemma with_collapsed_same (g : TabGroup) : with_collapsed (group_collapsed g) g = g.
Proof. now destruct g. Qed.

Lemma NoDup_fmap_eq {X Y : Type} (f : X -> Y) (l : list X) (x y : X) :
  NoDup (map f l) -> x ∈ l -> y ∈ l -> f x = f y -> x = y.
Proof.
  induction l as [|z l IH]; intros Hnd Hx Hy E; [inversion Hx|].
  cbn in Hnd. apply NoDup_cons in Hnd as [Hz Hnd].
  apply elem_of_cons in Hx as [->|Hx]; apply elem_of_cons in Hy as [->|Hy].
  - reflexivity.
  - exfalso. apply Hz. rewrite E. now apply list_elem_of_fmap_2.
  - exfalso. apply Hz. rewrite <- E. now apply list_elem_of_fmap_2.
  - now apply IH.
Qed.

Lemma set_collapsed_run (collapsed : bool) (todo : list TabGroup) (acc : list Z) (b : Browser) :
  NoDup (map group_id (groups b)) -> NoDup (map group_id todo) ->
  (forall g, g ∈ todo -> g ∈ groups b) ->
  exists b',
    for_each (GroupManager.set_collapsed collapsed) todo acc b =
      (Ok (acc ++ map group_id
                    (List.filter (fun g => negb (Bool.eqb (group_collapsed g) collapsed)) todo))%list,
       b') /\
    tabs b' = tabs b /\ current_window b' = current_window b /\
    next_group_id b' = next_group_id b /\ random_draws b' = random_draws b /\
    groups b' = map (fun g => if Z_mem (group_id g) (map group_id todo)
                              then with_collapsed collapsed g else g) (groups b).
Proof.
  revert acc b. induction todo as [|g todo IH]; intros acc b Hnd Hndt Hin.
  - exists b. cbn. rewrite app_nil_r. repeat split. now rewrite map_id.
  - cbn [map] in Hndt. apply NoDup_cons in Hndt as [Hg Hndt].
    assert (Hgin : g ∈ groups b) by (apply Hin; now left).
    cbn [for_each]. unfold await at 1, GroupManager.set_collapsed at 1.
    cbn [List.filter]. destruct (Bool.eqb (group_collapsed g) collapsed) eqn:Ec; cbn [negb].
    + cbn [resolve]. destruct (IH acc b Hnd Hndt) as (b' & E & Ht & Hw & Hn & Hr & Hgs).
      { intros x Hx. apply Hin. now right. }
      exists b'. split; [exact E|]. repeat split; try assumption.
      rewrite Hgs. apply map_ext_in. intros x Hx. apply list_elem_of_In in Hx.
      cbn [map Z_mem existsb]. fold (Z_mem (group_id x) (map group_id todo)).
      destruct (Z.eqb_spec (group_id x) (group_id g)) as [E'|E']; [|reflexivity].
      assert (x = g) by (apply (NoDup_fmap_eq group_id (groups b)); assumption). subst x.
      apply Bool.eqb_prop in Ec. subst collapsed. cbn [orb].
      rewrite with_collapsed_same. now destruct (Z_mem _ _).
    + unfold await at 1, chrome.tabGroups_update_collapsed.
      destruct (List.find (fun x => Z.eqb (group_id x) (group_id g)) (groups b)) as [grp|] eqn:Ef.
      2:{ exfalso. apply list_elem_of_In in Hgin. apply (find_none _ _ Ef) in Hgin.
          cbn in Hgin. now rewrite Z.eqb_refl in Hgin. }
      cbn [resolve].
      set (b1 := mkBrowser _ _ _ _ _).
      destruct (IH (acc ++ [group_id g])%list b1) as (b' & E & Ht & Hw & Hn & Hr & Hgs).
      { unfold b1. cbn [groups]. rewrite map_map.
        erewrite map_ext; [exact Hnd|]. intros x. now destruct (Z.eqb _ _). }
      { exact Hndt. }
      { intros x Hx. unfold b1. cbn [groups]. apply list_elem_of_fmap.
        exists x. split; [|apply Hin; now right].
        destruct (Z.eqb_spec (group_id x) (group_id g)) as [E'|]; [|reflexivity].
        exfalso. apply Hg. rewrite <- E'. now apply list_elem_of_fmap_2. }
      exists b'. split; [rewrite E, <- app_assoc; reflexivity|].
      repeat split; try assumption.
      rewrite Hgs. unfold b1. cbn [groups]. rewrite map_map. apply map_ext. intros x.
      cbn [map Z_mem existsb]. fold (Z_mem (group_id x) (map group_id todo)).
      destruct (Z.eqb_spec (group_id x) (group_id g)) as [E'|E']; cbn [orb group_id with_collapsed].
      * fold (with_collapsed collapsed x).
        destruct (Z_mem (group_id x) (map group_id todo)); [now destruct x | reflexivity].
      * reflexivity.
Qed.

Lemma filter_NoDup_fmap {X Y : Type} (f : X -> Y) (p : X -> bool) (l : list X) :
  NoDup (map f l) -> NoDup (map f (List.filter p l)).
Proof.
  induction l as [|x l IH]; intros Hnd; [constructor|]. cbn in Hnd |- *.
  apply NoDup_cons in Hnd as [Hx Hnd]. destruct (p x); [|now apply IH].
  cbn. apply NoDup_cons. split; [|now apply IH].
  intros Hin. apply Hx. apply list_elem_of_fmap in Hin as (y & -> & Hy).
  apply list_elem_of_fmap_2. apply list_elem_of_In, filter_In in Hy as [Hy _].
  now apply list_elem_of_In.
Qed.

Lemma window_groups_run (collapsed : bool) (windowId : option Z) (b : Browser) :
  NoDup (map group_id (groups b)) ->
  let w := match windowId with Some w => w | None => current_window b end in
  exists b',
    (groups <- GroupManager.groups_of_window windowId ;;
     for_each (GroupManager.set_collapsed collapsed) groups []) b =
      (Ok (map group_id
             (List.filter (fun g => Z.eqb (group_windowId g) w &&
                                    negb (Bool.eqb (group_collapsed g) collapsed)) (groups b))),
       b') /\
    tabs b' = tabs b /\ current_window b' = current_window b /\
    next_group_id b' = next_group_id b /\ random_draws b' = random_draws b /\
    groups b' = map (fun g => if Z.eqb (group_windowId g) w
                              then with_collapsed collapsed g else g) (groups b).
Proof.
  intros Hnd w. unfold await, GroupManager.groups_of_window, chrome.tabGroups_query. fold w.
  set (todo := List.filter (fun g => Z.eqb (group_windowId g) w) (groups b)).
  destruct (set_collapsed_run collapsed todo [] b Hnd) as (b' & E & Ht & Hw & Hn & Hr & Hgs).
  { now apply filter_NoDup_fmap. }
  { intros g Hg. apply list_elem_of_In, filter_In in Hg as [Hg _]. now apply list_elem_of_In. }
  exists b'. split; [|split; [exact Ht|split; [exact Hw|split; [exact Hn|split; [exact Hr|]]]]].
  - rewrite E. cbn [app]. unfold todo. now rewrite filter_filter.
  - rewrite Hgs. apply map_ext_in. intros x Hx.
    destruct (Z.eqb (group_windowId x) w) eqn:Ew.
    + assert (Hm : Z_mem (group_id x) (map group_id todo) = true); [|now rewrite Hm].
      apply existsb_exists. exists (group_id x). split; [|apply Z.eqb_refl].
      apply in_map. apply filter_In. now split.
    + destruct (Z_mem (group_id x) (map group_id todo)) eqn:Hm; [|reflexivity].
      exfalso. apply Z_mem_elem in Hm. apply list_elem_of_fmap in Hm as (y & Ey & Hy).
      apply list_elem_of_In, filter_In in Hy as [Hy Hyw].
      assert (x = y).
      { apply (NoDup_fmap_eq group_id (groups b)); try assumption;
          now apply list_elem_of_In. }
      subst y. congruence.
Qed.

(** X15: collapsing and expanding the groups of a window, when group
    identifiers are distinct.  [collapseAllGroups] resolves with the
    identifiers of the groups of the window that were expanded, in order;
    afterwards every group of the window is collapsed and nothing else has
    changed, so that running it again updates no group.  [expandAllGroups]
    run next resolves with the identifiers of all groups of the window and
    leaves them all expanded. *)
Theorem collapseAllGroups_then_expandAllGroups (windowId : option Z) (b : Browser) :
  NoDup (map group_id (groups b)) ->
  let w := match windowId with Some w => w | None => current_window b end in
  let in_window := fun g => Z.eqb (group_windowId g) w in
  exists b1 b2,
    GroupManager.collapseAllGroups windowId b =
      (Ok (map group_id
             (List.filter (fun g => in_window g && negb (group_collapsed g)) (groups b))), b1) /\
    tabs b1 = tabs b /\
    groups b1 = map (fun g => if in_window g then with_collapsed true g else g) (groups b) /\
    GroupManager.collapseAllGroups windowId b1 = (Ok [], b1) /\
    GroupManager.expandAllGroups windowId b1 =
      (Ok (map group_id (List.filter in_window (groups b))), b2) /\
    tabs b2 = tabs b /\
    groups b2 = map (fun g => if in_window g then with_collapsed false g else g) (groups b).
Proof.
  intros Hnd w in_window.
  destruct (window_groups_run true windowId b Hnd) as (b1 & E1 & Ht1 & Hw1 & _ & _ & Hg1).
  fold w in E1, Hg1.
  assert (Hnd1 : NoDup (map group_id (groups b1))).
  { rewrite Hg1, map_map. erewrite map_ext; [exact Hnd|]. intros x. now destruct (Z.eqb _ _). }
  assert (Hw : match windowId with Some w => w | None => current_window b1 end = w).
  { unfold w. destruct windowId; [reflexivity | exact Hw1]. }
  destruct (window_groups_run true windowId b1 Hnd1)
    as (b1' & E1' & Ht1' & Hw1' & Hn1' & Hr1' & Hg1').
  destruct (window_groups_run false windowId b1 Hnd1) as (b2 & E2 & Ht2 & Hw2 & _ & _ & Hg2).
  rewrite Hw in E1', Hg1', E2, Hg2.
  exists b1, b2. unfold GroupManager.collapseAllGroups, GroupManager.expandAllGroups.
  split; [|split; [exact Ht1|split; [exact Hg1|split; [|split; [|split]]]]].
  - rewrite E1. do 3 f_equal. apply filter_ext. intros g. unfold in_window.
    now destruct (group_collapsed g), (Z.eqb _ _).
  - rewrite E1'. f_equal.
    + f_equal. rewrite Hg1. clear. induction (groups b) as [|g gs IH]; [reflexivity|].
      cbn [map List.filter].
      destruct (Z.eqb (group_windowId g) w) eqn:Ew; cbn; rewrite Ew; cbn; exact IH.
    + assert (Hsame : groups b1' = groups b1).
      { rewrite Hg1', Hg1, map_map. apply map_ext. intros g.
        destruct (Z.eqb (group_windowId g) w) eqn:Ew; cbn; rewrite Ew; reflexivity. }
      destruct b1, b1'. cbn in Ht1', Hw1', Hn1', Hr1', Hsame. congruence.
  - rewrite E2. do 2 f_equal. rewrite Hg1. clear.
    induction (groups b) as [|g gs IH]; [reflexivity|]. cbn [map List.filter]. unfold in_window.
    destruct (Z.eqb (group_windowId g) w) eqn:Ew; cbn; rewrite Ew; cbn; [f_equal|]; exact IH.
  - congruence.
  - rewrite Hg2, Hg1, map_map. apply map_ext. intros g. unfold in_window.
    destruct (Z.eqb (group_windowId g) w) eqn:Ew; cbn; rewrite Ew; reflexivity.
Qed.

Definition grouped_browser : Browser :=
  mkBrowser [mkTab (Some 1) 0 (Some 1) (Some "https://example.com/a") (Some "A") 7;
             mkTab (Some 2) 1 (Some 1) (Some "https://example.com/b") (Some "B") 7;
             mkTab (Some 3) 2 (Some 1) (Some "https://example.org/c") (Some "C") 8;
             mkTab (Some 4) 0 (Some 2) (Some "https://example.net/d") (Some "D") 9;
             mkTab (Some 5) 1 (Some 2) (Some "https://example.net/e") (Some "E")
                   TAB_GROUP_ID_NONE]
            [mkTabGroup 7 1 (Some "example.com") blue false;
             mkTabGroup 8 1 (Some "example.org") red true;
             mkTabGroup 9 2 (Some "example.net") green false]
            1 10 0.

Lemma collapseAllGroups_then_expandAllGroups_witness :
  exists b1 b2,
    GroupManager.collapseAllGroups None grouped_browser = (Ok [7], b1) /\
    GroupManager.collapseAllGroups None b1 = (Ok [], b1) /\
    GroupManager.expandAllGroups None b1 = (Ok [7; 8], b2) /\
    map group_collapsed (groups b2) = [false; false; false].
Proof.
  destruct (collapseAllGroups_then_expandAllGroups None grouped_browser)
    as (b1 & b2 & E1 & _ & _ & E1' & E2 & _ & Hg2).
  - repeat constructor; cbn; rewrite ?elem_of_cons, elem_of_nil; intuition discriminate.
  - exists b1, b2. split; [exact E1|]. split; [exact E1'|]. split; [exact E2|].
    rewrite Hg2. reflexivity.
Defined.

(** *** Closing a group *)

Lemma NoDup_omap_eq {X Y : Type} (f : X -> option Y) (l : list X) (x y : X) (i : Y) :
  NoDup (omap f l) -> x ∈ l -> y ∈ l -> f x = Some i -> f y = Some i -> x = y.
Proof.
  induction l as [|z l IH]; intros Hnd Hx Hy Ex Ey; [inversion Hx|].
  cbn [omap list_omap] in Hnd.
  assert (Htail : forall u, u ∈ l -> f u = Some i -> i ∈ omap f l).
  { intros u Hu Eu. apply list_elem_of_omap. now exists u. }
  apply elem_of_cons in Hx as [->|Hx]; apply elem_of_cons in Hy as [->|Hy].
  - reflexivity.
  - exfalso. rewrite Ex in Hnd. apply NoDup_cons in Hnd as [Hz _]. apply Hz. now apply (Htail y).
  - exfalso. rewrite Ey in Hnd. apply NoDup_cons in Hnd as [Hz _]. apply Hz. now apply (Htail x).
  - apply IH; try assumption. destruct (f z); [now apply NoDup_cons in Hnd as [_ ?] | exact Hnd].
Qed.

Lemma omap_filter_sublist {X Y : Type} (f : X -> option Y) (p : X -> bool) (l : list X) :
  omap f (List.filter p l) `sublist_of` omap f l.
Proof.
  induction l as [|x l IH]; [constructor|]. cbn [List.filter omap list_omap].
  destruct (p x); cbn [omap list_omap]; destruct (f x); try exact IH.
  - now constructor.
  - now apply sublist_cons.
Qed.

Lemma inhabited_groups_shrink (ts ts' : list Tab) (gs : list TabGroup) :
  (forall t, t ∈ ts' -> t ∈ ts) ->
  chrome.inhabited_groups ts' (chrome.inhabited_groups ts gs) = chrome.inhabited_groups ts' gs.
Proof.
  intros Hsub. unfold chrome.inhabited_groups. rewrite filter_filter.
  apply filter_ext. intros g.
  destruct (existsb _ ts') eqn:E'; [|now rewrite andb_false_r].
  rewrite andb_true_r. apply existsb_exists in E' as (t & Ht & Hg).
  apply existsb_exists. exists t. split; [|exact Hg].
  apply list_elem_of_In, Hsub. now apply list_elem_of_In.
Qed.

(** Closing distinct open tabs, at least one: exactly the other tabs stay,
    and the groups that stay are those that still have a tab. *)
Lemma tabs_remove_effect (ids : list Z) (b : Browser) :
  NoDup ids -> ids <> [] ->
  (forall i, i ∈ ids -> exists t, t ∈ tabs b /\ tab_id t = Some i) ->
  exists b', chrome.tabs_remove ids b = (Ok tt, b') /\
             tabs b' = List.filter (fun t => negb (closed_by ids t)) (tabs b) /\
             groups b' = chrome.inhabited_groups (tabs b') (groups b) /\
             current_window b' = current_window b /\
             next_group_id b' = next_group_id b /\
             random_draws b' = random_draws b.
Proof.
  revert b. induction ids as [|i ids IH]; intros b Hnd Hne Hopen; [congruence|].
  apply NoDup_cons in Hnd as [Hi Hnd]. cbn [chrome.tabs_remove].
  rewrite (proj2 (open_tab_exists i (tabs b))) by (apply Hopen; now left).
  assert (Hone : List.filter (fun t => negb (closed_by [i] t)) (tabs b) =
                 tabs (chrome.close_tab i b)).
  { cbn [chrome.close_tab tabs]. apply filter_ext. intros t. unfold closed_by. cbn [existsb].
    now rewrite orb_false_r. }
  destruct ids as [|j ids].
  - exists (chrome.close_tab i b). split; [reflexivity|]. split; [now rewrite Hone|].
    now repeat split.
  - destruct (IH (chrome.close_tab i b) Hnd ltac:(discriminate))
      as (b' & E & Ht & Hg & Hw & Hn & Hr).
    + intros k Hk. destruct (Hopen k) as (t & Hin & Hid); [now right|].
      exists t. split; [|exact Hid]. cbn.
      apply list_elem_of_In, filter_In. split; [now apply list_elem_of_In|].
      apply negb_true_iff. destruct (chrome.tab_has_id i t) eqn:Ei; [|reflexivity].
      apply tab_has_id_true in Ei. rewrite Hid in Ei. inversion Ei; subst k. contradiction.
    + exists b'. split; [exact E|]. repeat split; try assumption.
      * rewrite Ht. cbn [chrome.close_tab tabs]. rewrite filter_filter.
        apply filter_ext. intros t. unfold closed_by. cbn [existsb].
        symmetry. apply negb_orb.
      * rewrite Hg. cbn [chrome.close_tab groups]. apply inhabited_groups_shrink.
        intros t Hin. rewrite Ht in Hin. apply list_elem_of_In, filter_In in Hin as [Hin _].
        now apply list_elem_of_In.
Qed.

(** X16: [closeGroup] on a browser whose tabs have distinct identifiers.  It
    resolves; afterwards the open tabs are the former ones except the tabs of
    the group that have an identifier, in the same order; no group is made;
    and when the group had tabs, all with an identifier, no group with this
    identifier is left. *)
Theorem closeGroup_closes_the_group (groupId : Z) (b : Browser) :
  NoDup (omap tab_id (tabs b)) ->
  exists b',
    GroupManager.closeGroup groupId b = (Ok tt, b') /\
    tabs b' = List.filter (fun t => negb (Z.eqb (tab_groupId t) groupId) ||
                                    negb (bool_decide (is_Some (tab_id t)))) (tabs b) /\
    (forall g, g ∈ groups b' -> g ∈ groups b) /\
    next_group_id b' = next_group_id b /\
    ((exists t, t ∈ tabs b /\ tab_groupId t = groupId) ->
     (forall t, t ∈ tabs b -> tab_groupId t = groupId -> is_Some (tab_id t)) ->
     forall g, g ∈ groups b' -> group_id g <> groupId).
Proof.
  intros Hnd. unfold GroupManager.closeGroup, await, GroupManager.getTabsInGroup,
    chrome.tabs_query_group.
  set (inside := List.filter (fun t => Z.eqb (tab_groupId t) groupId) (tabs b)).
  set (ids := omap tab_id inside).
  assert (Hids : forall i, i ∈ ids <->
            exists t, t ∈ tabs b /\ tab_groupId t = groupId /\ tab_id t = Some i).
  { intros i. unfold ids. rewrite list_elem_of_omap. split.
    - intros (t & Ht & Hid). apply list_elem_of_In, filter_In in Ht as [Ht Hg].
      exists t. split; [now apply list_elem_of_In|]. split; [now apply Z.eqb_eq | exact Hid].
    - intros (t & Ht & Hg & Hid). exists t. split; [|exact Hid].
      apply list_elem_of_In, filter_In. split; [now apply list_elem_of_In | now apply Z.eqb_eq]. }
  assert (Hclosed : forall t, t ∈ tabs b ->
            negb (closed_by ids t) =
            negb (Z.eqb (tab_groupId t) groupId) || negb (bool_decide (is_Some (tab_id t)))).
  { intros t Ht. destruct (closed_by ids t) eqn:Ec.
    - apply closed_by_true in Ec as (i & Hi & Hid). apply Hids in Hi as (t' & Ht' & Hg' & Hid').
      assert (t' = t) by (apply (NoDup_omap_eq tab_id (tabs b) t' t i); assumption). subst t'.
      rewrite (proj2 (Z.eqb_eq _ _) Hg'), Hid. reflexivity.
    - destruct (Z.eqb_spec (tab_groupId t) groupId) as [Hg|Hg]; [|reflexivity].
      destruct (tab_id t) as [i|] eqn:Hid; [|reflexivity]. exfalso.
      assert (closed_by ids t = true); [|congruence].
      apply closed_by_true. exists i. split; [|exact Hid]. apply Hids. now exists t. }
  destruct (Nat.ltb_spec 0 (length ids)) as [Hlen|Hlen].
  - destruct (tabs_remove_effect ids b) as (b' & E & Ht & Hg & _ & Hn & _).
    + eapply sublist_NoDup; [exact Hnd | apply omap_filter_sublist].
    + destruct ids; [cbn in Hlen; lia | discriminate].
    + intros i Hi. apply Hids in Hi as (t & Hin & _ & Hid). now exists t.
    + exists b'. split; [exact E|]. split; [|split; [|split; [exact Hn|]]].
      * rewrite Ht. apply filter_ext_in. intros t Hin. apply Hclosed. now apply list_elem_of_In.
      * intros g Hgin. rewrite Hg in Hgin.
        apply list_elem_of_In, filter_In in Hgin as [Hgin _]. now apply list_elem_of_In.
      * intros _ Hall g Hgin Heq. rewrite Hg in Hgin.
        apply list_elem_of_In, filter_In in Hgin as [_ Hex].
        apply existsb_exists in Hex as (t & Hin & Hgt). apply Z.eqb_eq in Hgt.
        rewrite Ht in Hin. apply filter_In in Hin as [Hin Hc].
        apply list_elem_of_In in Hin. rewrite (Hclosed t Hin) in Hc.
        assert (Hgt' : tab_groupId t = groupId) by congruence.
        destruct (Hall t Hin Hgt') as [i Hid].
        rewrite (proj2 (Z.eqb_eq _ _) Hgt'), Hid in Hc. discriminate.
  - assert (Hnil : ids = []) by (destruct ids; [reflexivity | cbn in Hlen; lia]).
    exists b. split; [reflexivity|]. split; [|split; [auto|split; [reflexivity|]]].
    + symmetry. rewrite <- (filter_ext_in _ _ (tabs b)
                              (fun t Hin => Hclosed t (proj2 (list_elem_of_In _ _) Hin))).
      rewrite Hnil. clear. induction (tabs b) as [|t ts IH]; [reflexivity|]. cbn. now f_equal.
    + intros (t & Hin & Hgt) Hall. exfalso.
      destruct (Hall t Hin Hgt) as [i Hid].
      assert (Hi : i ∈ ids) by (apply Hids; now exists t).
      rewrite Hnil in Hi. inversion Hi.
Qed.

Lemma closeGroup_closes_the_group_witness :
  exists b',
    GroupManager.closeGroup 7 grouped_browser = (Ok tt, b') /\
    omap tab_id (tabs b') = [3; 4; 5] /\
    forall g, g ∈ groups b' -> group_id g <> 7.
Proof.
  destruct (closeGroup_closes_the_group 7 grouped_browser)
    as (b' & E & Ht & _ & _ & Hgone).
  - repeat constructor; cbn; rewrite ?elem_of_cons, elem_of_nil; intuition discriminate.
  - exists b'. split; [exact E|]. split; [rewrite Ht; reflexivity|].
    apply Hgone.
    + eexists. split; [left|]; reflexivity.
    + intros t Hin _. unfold grouped_browser in Hin. cbn [tabs] in Hin.
      repeat (apply elem_of_cons in Hin as [-> | Hin]); try (now apply elem_of_nil in Hin);
        now eexists.
Defined.

(** ** The storage manager *)

(** The settings in effect: what is stored over the defaults. *)
Definition effective_settings (s : Storage) : JSObject :=
  if storage_fails s then StorageManager.defaultSettings
  else match sync_settings s with
       | Some stored => stored ∪ StorageManager.defaultSettings
       | None => StorageManager.defaultSettings
       end.

Lemma getSettings_reads (s : Storage) :
  StorageManager.getSettings s = (Ok (effective_settings s), s).
Proof.
  unfold StorageManager.getSettings, stored_try, stored_await,
    chrome_storage.sync_get_settings, chrome_storage.call, effective_settings.
  destruct (storage_fails s); [reflexivity|]. now destruct (sync_settings s).
Qed.

Lemma union_lookup (a b : JSObject) (k : string) :
  (a ∪ b) !! k = match a !! k with Some v => Some v | None => b !! k end.
Proof.
  rewrite lookup_union. destruct (a !! k), (b !! k); reflexivity.
Qed.

(** X17: settings are read over the defaults and saved over what is in
    effect.  [getSettings] never rejects and never writes, and its result
    defines every default setting.  With a working storage, [saveSettings]
    followed by [getSettings] gives, for each key, the saved value when the
    key was given and the former value in effect otherwise; saving the same
    settings once more changes nothing. *)
Theorem saveSettings_then_getSettings (settings : JSObject) (s : Storage) :
  let before := effective_settings s in
  StorageManager.getSettings s = (Ok before, s) /\
  (forall k, is_Some (StorageManager.defaultSettings !! k) -> is_Some (before !! k)) /\
  (storage_fails s = false ->
   exists s' after,
     StorageManager.saveSettings settings s = (Ok tt, s') /\
     StorageManager.getSettings s' = (Ok after, s') /\
     (forall k, after !! k = match settings !! k with
                             | Some v => Some v
                             | None => before !! k
                             end) /\
     StorageManager.saveSettings settings s' = (Ok tt, s')).
Proof.
  cbn zeta. split; [apply getSettings_reads|]. split.
  - intros k [v Hv]. unfold effective_settings.
    destruct (storage_fails s); [now exists v|].
    destruct (sync_settings s) as [stored|]; [|now exists v].
    rewrite union_lookup, Hv. destruct (stored !! k); now eexists.
  - intros Hworks.
    assert (Hdef : forall k, (effective_settings s ∪ StorageManager.defaultSettings) !! k =
                             effective_settings s !! k).
    { intros k. rewrite union_lookup. destruct (effective_settings s !! k) eqn:E; [reflexivity|].
      unfold effective_settings in E. rewrite Hworks in E.
      destruct (sync_settings s) as [stored|]; [|exact E].
      rewrite union_lookup in E. now destruct (stored !! k). }
    set (s' := mkStorage (Some (settings ∪ effective_settings s)) (local_sessions s)
                         (local_actionLogs s) (storage_fails s)).
    assert (Heff : effective_settings s' = settings ∪ effective_settings s).
    { unfold effective_settings at 1. cbn [storage_fails sync_settings s']. rewrite Hworks.
      apply map_eq. intros k. rewrite !union_lookup.
      destruct (settings !! k); [reflexivity|]. rewrite <- union_lookup. apply Hdef. }
    exists s', (effective_settings s').
    split; [|split; [apply getSettings_reads|split]].
    + unfold StorageManager.saveSettings, stored_await. rewrite getSettings_reads.
      unfold chrome_storage.sync_set_settings, chrome_storage.call. unfold s'.
      destruct (storage_fails s); [discriminate | reflexivity].
    + intros k. now rewrite Heff, union_lookup.
    + unfold StorageManager.saveSettings, stored_await. rewrite getSettings_reads.
      unfold chrome_storage.sync_set_settings, chrome_storage.call.
      rewrite Heff.
      replace (settings ∪ (settings ∪ effective_settings s)) with (settings ∪ effective_settings s).
      2:{ apply map_eq. intros k. rewrite !union_lookup. now destruct (settings !! k). }
      unfold s'. cbn [storage_fails sync_settings local_sessions local_actionLogs].
      destruct (storage_fails s); [discriminate | reflexivity].
Qed.

Definition fresh_storage : Storage := mkStorage None None None false.

Lemma saveSettings_then_getSettings_witness :
  exists s' after,
    StorageManager.saveSettings {["llmProvider" := VString "openai"]} fresh_storage
      = (Ok tt, s') /\
    StorageManager.getSettings s' = (Ok after, s') /\
    after !! "llmProvider" = Some (VString "openai") /\
    after !! "theme" = Some (VString "system").
Proof.
  destruct (proj2 (proj2 (saveSettings_then_getSettings
                            {["llmProvider" := VString "openai"]} fresh_storage)) eq_refl)
    as (s' & after & E & Eget & Hafter & _).
  exists s', after. split; [exact E|]. split; [exact Eget|].
  split; rewrite Hafter; reflexivity.
Defined.

(** *** Sessions *)

Definition sessions_of (s : Storage) : list TabSession :=
  match local_sessions s with
  | Some l => l
  | None => []
  end.

(** X18: saving and deleting sessions with a working storage.
    [saveTabSession] appends the new session to the saved ones and resolves
    with its identifier; [deleteTabSession] resolves with [true] and removes
    every session with the given identifier, keeping the others in order.
    When no saved session has the identifier of the new one, deleting it
    right after saving it gives back the former list. *)
Theorem deleteTabSession_undoes_saveTabSession
    (now_millis now_locale now_iso name : string) (sessionData : Value) (s : Storage) :
  storage_fails s = false ->
  let session := mkTabSession now_millis
                   (if JS.truthy name then name else "Session " ++ now_locale)
                   now_iso sessionData in
  exists s1 s2,
    StorageManager.saveTabSession now_millis now_locale now_iso name sessionData s
      = (Ok now_millis, s1) /\
    StorageManager.getSavedTabSessions s1 = (Ok (sessions_of s ++ [session])%list, s1) /\
    StorageManager.deleteTabSession now_millis s1 = (Ok true, s2) /\
    StorageManager.getSavedTabSessions s2 =
      (Ok (List.filter (fun x => negb (String.eqb (session_id x) now_millis)) (sessions_of s)),
       s2) /\
    ((forall x, x ∈ sessions_of s -> session_id x <> now_millis) ->
     StorageManager.getSavedTabSessions s2 = (Ok (sessions_of s), s2)).
Proof.
  intros Hworks session.
  destruct s as [settings sessions logs fails]. cbn in Hworks. subst fails.
  unfold sessions_of. cbn [local_sessions].
  set (old := match sessions with Some l => l | None => [] end).
  set (kept := List.filter (fun x => negb (String.eqb (session_id x) now_millis)) old).
  exists (mkStorage settings (Some (old ++ [session])%list) logs false),
         (mkStorage settings (Some kept) logs false).
  split; [|split; [reflexivity|split; [|split; [reflexivity|]]]].
  - unfold StorageManager.saveTabSession, stored_await, chrome_storage.local_get_sessions,
      chrome_storage.local_set_sessions, chrome_storage.call. reflexivity.
  - unfold StorageManager.deleteTabSession, stored_try, stored_await,
      chrome_storage.local_get_sessions, chrome_storage.local_set_sessions, chrome_storage.call.
    cbn. unfold stored_resolve. rewrite List.filter_app. cbn [List.filter session_id session].
    rewrite String.eqb_refl. cbn [negb]. now rewrite app_nil_r.
  - intros Hfresh. unfold StorageManager.getSavedTabSessions, stored_try, stored_await,
      chrome_storage.local_get_sessions, chrome_storage.call, stored_resolve. cbn.
    do 2 f_equal. unfold kept.
    clear -Hfresh. induction old as [|x l IH]; [reflexivity|]. cbn.
    destruct (String.eqb_spec (session_id x) now_millis) as [E|E].
    + exfalso. apply (Hfresh x); [now left | exact E].
    + cbn. f_equal. apply IH. intros y Hy. apply Hfresh. now right.
Qed.

Lemma deleteTabSession_undoes_saveTabSession_witness :
  exists s1 s2,
    StorageManager.saveTabSession "1700000000000" "11/14/2023, 10:13:20 PM"
      "2023-11-14T22:13:20.000Z" "" VUndefined fresh_storage = (Ok "1700000000000", s1) /\
    StorageManager.deleteTabSession "1700000000000" s1 = (Ok true, s2) /\
    StorageManager.getSavedTabSessions s2 = (Ok [], s2).
Proof.
  destruct (deleteTabSession_undoes_saveTabSession "1700000000000" "11/14/2023, 10:13:20 PM"
              "2023-11-14T22:13:20.000Z" "" VUndefined fresh_storage eq_refl)
    as (s1 & s2 & E1 & _ & E2 & _ & E3).
  exists s1, s2. split; [exact E1|]. split; [exact E2|].
  apply E3. intros x Hx. inversion Hx.
Defined.

(** *** The action log *)



(** ** Notifications *)

Lemma length_substring (n : nat) (s : string) :
  String.length (String.substring 0 n s) = Nat.min n (String.length s).
Proof.
  revert s. induction n as [|n IH]; intros s.
  - now destruct s.
  - destruct s as [|c s]; [reflexivity|]. cbn. now rewrite IH.
Qed.

Lemma prefix_substring (n : nat) (s : string) :
  String.prefix (String.substring 0 n s) s = true.
Proof.
  revert s. induction n as [|n IH]; intros s.
  - now destruct s.
  - destruct s as [|c s]; [reflexivity|]. cbn.
    destruct (ascii_dec c c) as [_|Hc]; [apply IH | contradiction].
Qed.

(** X20: the message of the summary notification is never longer than 200
    characters.  A summary of up to 200 characters is shown as it is; of a
    longer one the first 197 characters are shown, followed by three dots. *)
Theorem summaryMessage_bounded (summary : string) :
  (String.length (Background.summaryMessage summary) <= 200)%nat /\
  ((String.length summary <= 200)%nat -> Background.summaryMessage summary = summary) /\
  ((200 < String.length summary)%nat ->
   exists head, Background.summaryMessage summary = head ++ "..." /\
                String.length head = 197%nat /\ String.prefix head summary = true).
Proof.
  unfold Background.summaryMessage.
  destruct (Nat.ltb_spec 200 (String.length summary)) as [Hlong|Hshort].
  - split; [|split; [lia|]].
    + rewrite length_append, length_substring. cbn [String.length].
      destruct (Nat.min_spec 197 (String.length summary)) as [[? ->]|[? ->]]; lia.
    + intros _. exists (String.substring 0 197 summary). split; [reflexivity|].
      split; [|apply prefix_substring]. rewrite length_substring.
      destruct (Nat.min_spec 197 (String.length summary)) as [[? ->]|[? ->]]; lia.
  - split; [exact Hshort|]. split; [reflexivity | lia].
Qed.

Lemma summaryMessage_bounded_witness :
  Background.summaryMessage "Three bullet points." = "Three bullet points.".
Proof.
  apply (proj1 (proj2 (summaryMessage_bounded "Three bullet points."))). cbn. lia.
Defined.

(** ** Canonical URLs *)

(** The port that a URL shows: none when the port is the default of the
    protocol. *)
Definition shown_port (u : URL) : string :=
  if (String.eqb (protocol u) "http:" && String.eqb (port u) "80") ||
     (String.eqb (protocol u) "https:" && String.eqb (port u) "443")
  then "" else port u.

(** The query of the canonical form. *)
Definition canonical_query (u : URL) : string :=
  if JS.truthy (search u)
  then "?" ++ URLSearchParams.toString
                (JS.sort JS.pair_toString (URLSearchParams.parse (search u)))
  else "".

Lemma normalizeParsed_parts (u : URL) :
  DuplicateDetector.normalizeParsed u =
  protocol u ++ "//" ++ JS.toLowerCase (hostname u) ++
  (if JS.truthy (shown_port u) then ":" ++ shown_port u else "") ++
  pathname u ++ canonical_query u.
Proof.
  unfold DuplicateDetector.normalizeParsed, shown_port, canonical_query.
  destruct (String.eqb (protocol u) "http:" && String.eqb (port u) "80");
    destruct (String.eqb (protocol u) "https:" && String.eqb (port u) "443");
    cbn [negb andb orb]; rewrite ?andb_false_r, ?andb_true_r;
    destruct (JS.truthy (port u)); destruct (JS.truthy (search u));
    cbn [JS.truthy negb String.eqb];
    rewrite ?append_assoc, ?append_nil_r, ?append_nil_l; reflexivity.
Qed.


Definition swapped_url : URL :=
  mkURL "https:" "example.com" "" "/a" "?y=2&x=1".

Definition plain_url : URL :=
  mkURL "https:" "example.com" "" "/a" "?x=1&y=2".


(** ** Scanning one window *)

Lemma scan_member (new_URL : string -> option URL) (tabs : list Tab)
    (g : DuplicateGroup) (m : Tab) :
  g ∈ DuplicateDetector.identifyDuplicateGroups new_URL tabs -> m ∈ members g ->
  m ∈ tabs /\ has_id m = true.
Proof.
  intros Hg Hm.
  destruct (group_inv_result new_URL tabs) as (_ & Hids & _ & Hgrp).
  split.
  - destruct (Hgrp g Hg) as (Ho & _ & Hd). unfold members in Hm.
    apply elem_of_cons in Hm as [-> | Hm]; [exact Ho | now apply Hd].
  - apply has_id_Some. destruct (Hids m) as (i & Hi & Hi0 & _); [|now exists i].
    apply members_elem. now exists g.
Qed.

Lemma window_tabs_elem (w : Z) (ts : list Tab) (t : Tab) :
  t ∈ List.filter (fun t => option_Z_eqb (tab_windowId t) (Some w)) ts <->
  t ∈ ts /\ tab_windowId t = Some w.
Proof.
  rewrite list_elem_of_In, filter_In, <- list_elem_of_In.
  unfold option_Z_eqb. destruct (tab_windowId t) as [x|].
  - rewrite Z.eqb_eq. split; intros [H1 H2]; (split; [exact H1|]); congruence.
  - split; intros [H1 H2]; discriminate.
Qed.

(** X22: the scan of one window against the scan of all windows, when
    identifiers identify the open tabs.  [findDuplicatesInWindow] resolves and
    leaves the browser as it is; its groups hold only tabs of that window;
    and two tabs with different identifiers are in one of its groups exactly
    when both are in that window and one group of the scan of all tabs holds
    both. *)
Theorem findDuplicatesInWindow_refines_scan
    (new_URL : string -> option URL) (windowId : Z) (b : Browser) :
  unique_ids (tabs b) ->
  exists found,
    DuplicateDetectorAsync.findDuplicatesInWindow new_URL windowId b = (Ok found, b) /\
    (forall g m, g ∈ found -> m ∈ members g ->
       m ∈ tabs b /\ tab_windowId m = Some windowId) /\
    (forall x y, tab_id x <> tab_id y ->
       ((exists g, g ∈ found /\ x ∈ members g /\ y ∈ members g) <->
        (tab_windowId x = Some windowId /\ tab_windowId y = Some windowId /\
         exists G, G ∈ DuplicateDetector.identifyDuplicateGroups new_URL (tabs b) /\
                   x ∈ members G /\ y ∈ members G))).
Proof.
  intros Huniq.
  set (wt := List.filter (fun t => option_Z_eqb (tab_windowId t) (Some windowId)) (tabs b)).
  exists (DuplicateDetector.identifyDuplicateGroups new_URL wt).
  assert (Huw : unique_ids wt).
  { intros x y Hx Hy Hix E. apply window_tabs_elem in Hx as [Hx _], Hy as [Hy _].
    now apply Huniq. }
  split; [reflexivity|]. split.
  - intros g m Hg Hm. destruct (scan_member new_URL wt g m Hg Hm) as [Hin _].
    now apply window_tabs_elem in Hin.
  - intros x y Hne. split.
    + intros (g & Hg & Hx & Hy).
      destruct (scan_member new_URL wt g x Hg Hx) as [Hxw Hix].
      destruct (scan_member new_URL wt g y Hg Hy) as [Hyw Hiy].
      pose proof (same_group_duplicates new_URL wt g x y Hg Hx Hy Hne) as Hdup.
      apply window_tabs_elem in Hxw as [Hxb Hxw], Hyw as [Hyb Hyw].
      split; [exact Hxw|]. split; [exact Hyw|].
      now apply duplicates_same_group.
    + intros (Hxw & Hyw & G & HG & Hx & Hy).
      destruct (scan_member new_URL (tabs b) G x HG Hx) as [Hxb Hix].
      destruct (scan_member new_URL (tabs b) G y HG Hy) as [Hyb Hiy].
      pose proof (same_group_duplicates new_URL (tabs b) G x y HG Hx Hy Hne) as Hdup.
      apply duplicates_same_group; try assumption; apply window_tabs_elem; now split.
Qed.

Definition window_tab (windowId id : Z) (url : string) : Tab :=
  mkTab (Some id) id (Some windowId) (Some url) (Some url) TAB_GROUP_ID_NONE.

Definition two_window_tabs : list Tab :=
  [window_tab 1 1 "https://example.com/";
   window_tab 2 2 "https://example.com/";
   window_tab 1 3 "https://example.com/#top";
   window_tab 2 4 "https://example.com/?"].

Definition two_window_browser : Browser := mkBrowser two_window_tabs [] 1 1 0.

Lemma two_window_tabs_unique : unique_ids two_window_tabs.
Proof.
  intros a b Ha Hb _ E. unfold two_window_tabs in Ha, Hb.
  repeat (apply elem_of_cons in Ha as [-> | Ha]); try (now apply elem_of_nil in Ha);
    repeat (apply elem_of_cons in Hb as [-> | Hb]); try (now apply elem_of_nil in Hb);
    first [reflexivity | discriminate E].
Qed.

Lemma findDuplicatesInWindow_refines_scan_witness :
  exists found,
    DuplicateDetectorAsync.findDuplicatesInWindow URLModel.parse 1 two_window_browser
      = (Ok found, two_window_browser) /\
    (forall g m, g ∈ found -> m ∈ members g ->
       m ∈ tabs two_window_browser /\ tab_windowId m = Some 1) /\
    (forall x y, tab_id x <> tab_id y ->
       ((exists g, g ∈ found /\ x ∈ members g /\ y ∈ members g) <->
        (tab_windowId x = Some 1 /\ tab_windowId y = Some 1 /\
         exists G, G ∈ DuplicateDetector.identifyDuplicateGroups URLModel.parse
                         (tabs two_window_browser) /\
                   x ∈ members G /\ y ∈ members G))).
Proof.
  apply (findDuplicatesInWindow_refines_scan URLModel.parse 1 two_window_browser).
  exact two_window_tabs_unique.
Defined.

(** ** Grouping the duplicates *)

(** [group.original.url || ''] *)
Definition original_url (g : DuplicateGroup) : string :=
  match tab_url (original g) with Some u => u | None => "" end.

(** The identifiers of the tabs of the groups. *)
Definition member_ids (gs : list DuplicateGroup) : list Z :=
  omap tab_id (flat_map members gs).

(** [k] group identifiers from [n] on. *)
Definition fresh_ids (n : Z) (k : nat) : list Z :=
  map (fun j => n + Z.of_nat j) (seq 0 k).

(** A group that [groupDuplicates] does not skip. *)
Definition groupable (g : DuplicateGroup) : Prop :=
  has_id (original g) = true /\ duplicates g <> [] /\
  forall d, d ∈ duplicates g -> exists i, tab_id d = Some i.

Lemma fresh_ids_S (n : Z) (k : nat) : fresh_ids n (S k) = n :: fresh_ids (n + 1) k.
Proof.
  unfold fresh_ids. cbn [seq map]. f_equal; [lia|].
  rewrite <- seq_shift, map_map. apply map_ext. intros j. lia.
Qed.

Lemma move_into_ids (tabIds : list Z) (g w : Z) (ts : list Tab) :
  map tab_id (chrome.move_into tabIds g w ts) = map tab_id ts.
Proof.
  unfold chrome.move_into. rewrite map_map. apply map_ext. intros t.
  destruct (tab_id t) as [i|] eqn:E; [|exact E]. now destruct (Z_mem i tabIds).
Qed.

Lemma move_into_urls (tabIds : list Z) (g w : Z) (ts : list Tab) :
  map tab_url (chrome.move_into tabIds g w ts) = map tab_url ts.
Proof.
  unfold chrome.move_into. rewrite map_map. apply map_ext. intros t.
  destruct (tab_id t) as [i|]; [|reflexivity]. now destruct (Z_mem i tabIds).
Qed.

Lemma move_into_other (tabIds : list Z) (g w : Z) (ts : list Tab) (t : Tab) :
  t ∈ ts -> (forall i, tab_id t = Some i -> i ∉ tabIds) ->
  t ∈ chrome.move_into tabIds g w ts.
Proof.
  intros Hin Hout. unfold chrome.move_into. apply list_elem_of_fmap. exists t.
  split; [|exact Hin]. destruct (tab_id t) as [i|]; [|reflexivity].
  destruct (Z_mem i tabIds) eqn:E; [|reflexivity].
  apply Z_mem_elem in E. now destruct (Hout i eq_refl).
Qed.

Lemma elem_Z_mem (x : Z) (l : list Z) : x ∈ l -> Z_mem x l = true.
Proof.
  intros H. unfold Z_mem. apply existsb_exists. exists x.
  split; [now apply list_elem_of_In | apply Z.eqb_refl].
Qed.

Lemma open_id (ts : list Tab) (i : Z) :
  Some i ∈ map tab_id ts <-> exists t, t ∈ ts /\ tab_id t = Some i.
Proof.
  rewrite list_elem_of_fmap. split; intros (t & H1 & H2); exists t; now split.
Qed.

Lemma omap_ids_length (l : list Tab) :
  (forall d, d ∈ l -> exists i, tab_id d = Some i) -> length (omap tab_id l) = length l.
Proof.
  intros H. rewrite <- (length_map Some), <- member_ids_Some by exact H. apply length_map.
Qed.

Section GroupingFacts.
Variable new_URL : string -> option URL.

Abbreviation group_group := (DuplicateDetectorAsync.group_group new_URL).

(** The update that [groupDuplicates] makes to the group [n]. *)
Definition highlight (domain : string) (n : Z) (x : TabGroup) : TabGroup :=
  if Z.eqb (group_id x) n
  then chrome.apply_update (mkUpdateProperties (Some domain) (Some red)) x else x.

Lemma group_group_run (createdGroupIds : list Z) (g : DuplicateGroup) (b : Browser) :
  groupable g ->
  (forall i, i ∈ member_ids [g] -> Some i ∈ map tab_id (tabs b)) ->
  match new_URL (original_url g) with
  | None => group_group createdGroupIds g b = (Err "Invalid URL", b)
  | Some url =>
      let n := next_group_id b in
      let ts := chrome.move_into (member_ids [g]) n (current_window b) (tabs b) in
      group_group createdGroupIds g b =
        (Ok (createdGroupIds ++ [n])%list,
         mkBrowser ts
           (map (highlight (GroupManager.strip_www (hostname url)) n)
                (chrome.inhabited_groups ts
                   (groups b ++ [mkTabGroup n (current_window b) None grey false])))
           (current_window b) (n + 1) (random_draws b))
  end.
Proof.
  intros (Ho & Hne & Hd) Hopen.
  apply has_id_Some in Ho as (o & Ho & Ho0).
  assert (Eids : member_ids [g] = o :: omap tab_id (duplicates g)).
  { unfold member_ids, members. cbn [flat_map]. rewrite app_nil_r. cbn [omap list_omap].
    now rewrite Ho. }
  unfold DuplicateDetectorAsync.group_group, original_url. rewrite Ho, <- Eids.
  destruct (duplicates g) as [|d0 ds] eqn:Ed; [congruence|]. rewrite <- Ed in *.
  assert (Elen : (length (duplicates g) =? 0)%nat = false) by (rewrite Ed; reflexivity).
  rewrite Elen. apply Z.eqb_neq in Ho0. rewrite Ho0. cbn [orb].
  assert (Elen2 : (length (member_ids [g]) <=? 1)%nat = false).
  { rewrite Eids. cbn [length]. rewrite omap_ids_length by exact Hd. rewrite Ed. reflexivity. }
  rewrite Elen2.
  destruct (new_URL _) as [url|]; [|reflexivity].
  cbv zeta. unfold await at 1. unfold chrome.tabs_group.
  assert (E0 : (length (member_ids [g]) =? 0)%nat = false) by (now rewrite Eids).
  rewrite E0.
  assert (Eall : forallb (fun i => existsb (chrome.tab_has_id i) (tabs b)) (member_ids [g]) = true).
  { apply forallb_forall. intros i Hi. apply list_elem_of_In, Hopen, open_id in Hi as (t & Ht & Hid).
    apply existsb_exists. exists t. split; [now apply list_elem_of_In|].
    unfold chrome.tab_has_id, option_Z_eqb. rewrite Hid. apply Z.eqb_refl. }
  rewrite Eall. cbn [negb].
  set (n := next_group_id b).
  set (ts := chrome.move_into (member_ids [g]) n (current_window b) (tabs b)).
  unfold await at 1. unfold chrome.tabGroups_update. cbn [groups tabs current_window next_group_id random_draws].
  destruct (List.find _ _) as [grp|] eqn:Efind; [reflexivity|]. exfalso.
  pose proof (find_none _ _ Efind (mkTabGroup n (current_window b) None grey false)) as Hnone.
  cbn [group_id] in Hnone. rewrite Z.eqb_refl in Hnone.
  enough (In (mkTabGroup n (current_window b) None grey false)
             (chrome.inhabited_groups ts
                (groups b ++ [mkTabGroup n (current_window b) None grey false]))) as Hin
      by (specialize (Hnone Hin); discriminate).
  unfold chrome.inhabited_groups. apply filter_In. split; [apply in_or_app; right; now left|].
  cbn [group_id].
  destruct (proj1 (open_id (tabs b) o)) as (t & Ht & Hid).
  { apply Hopen. rewrite Eids. now left. }
  destruct (move_into_member (member_ids [g]) n (current_window b) (tabs b) t o Ht Hid)
    as (t' & Ht' & _ & Hg').
  { apply elem_Z_mem. rewrite Eids. now left. }
  apply existsb_exists. exists t'. split; [now apply list_elem_of_In|]. now apply Z.eqb_eq.
Qed.

Lemma member_ids_cons (g : DuplicateGroup) (gs : list DuplicateGroup) :
  member_ids (g :: gs) = (member_ids [g] ++ member_ids gs)%list.
Proof.
  unfold member_ids. cbn [flat_map]. now rewrite app_nil_r, omap_app.
Qed.

Lemma original_member (g : DuplicateGroup) :
  groupable g -> exists o, tab_id (original g) = Some o /\ o ∈ member_ids [g].
Proof.
  intros (Ho & _). apply has_id_Some in Ho as (o & Ho & _). exists o. split; [exact Ho|].
  unfold member_ids, members. cbn [flat_map]. rewrite app_nil_r. cbn [omap list_omap].
  rewrite Ho. now left.
Qed.

Lemma groupDuplicates_run (gs : list DuplicateGroup) :
  forall (createdGroupIds : list Z) (b : Browser),
  Forall groupable gs ->
  (forall i, i ∈ member_ids gs -> Some i ∈ map tab_id (tabs b)) ->
  NoDup (member_ids gs) ->
  exists r b',
    for_each group_group gs createdGroupIds b = (r, b') /\
    map tab_id (tabs b') = map tab_id (tabs b) /\
    map tab_url (tabs b') = map tab_url (tabs b) /\
    (forall t, t ∈ tabs b -> (forall i, tab_id t = Some i -> i ∉ member_ids gs) -> t ∈ tabs b') /\
    (forall x, x ∈ groups b -> group_id x < next_group_id b ->
       (exists t, t ∈ tabs b /\ tab_groupId t = group_id x /\
                  forall i, tab_id t = Some i -> i ∉ member_ids gs) ->
       x ∈ groups b') /\
    match r with
    | Ok created =>
        created = (createdGroupIds ++ fresh_ids (next_group_id b) (length gs))%list /\
        forall k g, gs !! k = Some g ->
          (forall i, i ∈ member_ids [g] ->
             exists t, t ∈ tabs b' /\ tab_id t = Some i /\
                       tab_groupId t = next_group_id b + Z.of_nat k) /\
          exists url x, new_URL (original_url g) = Some url /\ x ∈ groups b' /\
             group_id x = next_group_id b + Z.of_nat k /\
             group_title x = Some (GroupManager.strip_www (hostname url)) /\
             group_color x = red
    | Err e => e = "Invalid URL" /\ exists g, g ∈ gs /\ new_URL (original_url g) = None
    end.
Proof.
  induction gs as [|g gs IH]; intros acc b Hok Hopen Hnd.
  - exists (Ok acc), b. split; [reflexivity|]. repeat (split; [tauto || reflexivity|]).
    split; [cbn; now rewrite app_nil_r|]. intros k g Hk. discriminate Hk.
  - apply Forall_cons in Hok as [Hg Hok]. rewrite member_ids_cons in Hnd, Hopen.
    apply NoDup_app in Hnd as (Hnd1 & Hdisj & Hnd2).
    assert (Hopen1 : forall i, i ∈ member_ids [g] -> Some i ∈ map tab_id (tabs b)).
    { intros i Hi. apply Hopen, elem_of_app. now left. }
    pose proof (group_group_run acc g b Hg Hopen1) as Hstep.
    cbn [for_each]. unfold await at 1.
    destruct (new_URL (original_url g)) as [url|] eqn:Eurl.
    + cbv zeta in Hstep. rewrite Hstep. clear Hstep.
      set (n := next_group_id b) in *.
      set (ts := chrome.move_into (member_ids [g]) n (current_window b) (tabs b)) in *.
      set (fresh := mkTabGroup n (current_window b) None grey false) in *.
      set (domain := GroupManager.strip_www (hostname url)) in *.
      set (b1 := mkBrowser ts _ _ _ _).
      assert (Hmoved : forall i, i ∈ member_ids [g] ->
                exists t, t ∈ ts /\ tab_id t = Some i /\ tab_groupId t = n).
      { intros i Hi. destruct (proj1 (open_id (tabs b) i) (Hopen1 i Hi)) as (t & Ht & Hid).
        apply (move_into_member _ _ _ _ t i Ht Hid). now apply elem_Z_mem. }
      destruct (original_member g Hg) as (o & Ho & Hoin).
      destruct (Hmoved o Hoin) as (t1 & Ht1 & Hid1 & Hg1).
      assert (Hfresh : highlight domain n fresh ∈ groups b1).
      { cbn [b1 groups]. apply list_elem_of_fmap. exists fresh. split; [reflexivity|].
        apply list_elem_of_In, filter_In. split; [apply in_or_app; right; now left|].
        apply existsb_exists. exists t1. split; [now apply list_elem_of_In|].
        now apply Z.eqb_eq. }
      destruct (IH (acc ++ [n])%list b1 Hok) as (r & b' & Erun & Hids & Hurls & Hframe & Hgframe & Hr).
      { intros i Hi. cbn [b1 tabs]. unfold ts. rewrite move_into_ids.
        apply Hopen, elem_of_app. now right. }
      { exact Hnd2. }
      exists r, b'. split; [exact Erun|].
      split; [rewrite Hids; apply move_into_ids|].
      split; [rewrite Hurls; apply move_into_urls|].
      assert (Hkeep : forall t, t ∈ tabs b ->
                (forall i, tab_id t = Some i -> i ∉ member_ids (g :: gs)) ->
                t ∈ ts /\ forall i, tab_id t = Some i -> i ∉ member_ids gs).
      { intros t Ht Hout. split.
        - apply move_into_other; [exact Ht|]. intros i Hi Hin.
          apply (Hout i Hi). rewrite member_ids_cons. apply elem_of_app. now left.
        - intros i Hi Hin. apply (Hout i Hi). rewrite member_ids_cons. apply elem_of_app.
          now right. }
      split; [intros t Ht Hout; destruct (Hkeep t Ht Hout); now apply Hframe|].
      split.
      { intros x Hx Hlt (t & Ht & Hgt & Hout). destruct (Hkeep t Ht Hout) as [Hts Hout'].
        apply Hgframe.
        - cbn [b1 groups]. apply list_elem_of_fmap. exists x. split.
          + unfold highlight. destruct (Z.eqb_spec (group_id x) n); [lia | reflexivity].
          + apply list_elem_of_In, filter_In. split.
            * apply in_or_app. left. now apply list_elem_of_In.
            * apply existsb_exists. exists t. split; [now apply list_elem_of_In|].
              now apply Z.eqb_eq.
        - cbn [b1 next_group_id]. lia.
        - exists t. now split. }
      destruct r as [created|e].
      * destruct Hr as [Hc Hk]. split.
        { rewrite Hc. cbn [b1 next_group_id length]. rewrite fresh_ids_S, <- app_assoc.
          reflexivity. }
        intros k g' Hlook. destruct k as [|k].
        -- injection Hlook as <-. rewrite Z.add_0_r. split.
           ++ intros i Hi. destruct (Hmoved i Hi) as (t & Ht & Hid & Hgt).
              exists t. split; [|now split]. apply Hframe; [exact Ht|].
              intros j Hj Hin. rewrite Hid in Hj. injection Hj as <-. now apply (Hdisj i).
           ++ exists url, (highlight domain n fresh). split; [exact Eurl|]. split.
              ** apply Hgframe; [exact Hfresh | |].
                 { unfold highlight, fresh. cbn [group_id]. rewrite Z.eqb_refl. cbn. lia. }
                 exists t1. split; [exact Ht1|]. split.
                 { unfold highlight, fresh. cbn [group_id]. rewrite Z.eqb_refl. now cbn. }
                 intros j Hj Hin. rewrite Hid1 in Hj. injection Hj as <-. now apply (Hdisj o).
              ** unfold highlight, fresh. cbn [group_id]. rewrite Z.eqb_refl. now cbn.
        -- cbn in Hlook. specialize (Hk k g' Hlook). cbn [b1 next_group_id] in Hk.
           replace (n + Z.of_nat (S k)) with (n + 1 + Z.of_nat k) by lia. exact Hk.
      * destruct Hr as [He (g' & Hg' & Hnone)]. split; [exact He|].
        exists g'. split; [now right | exact Hnone].
    + rewrite Hstep. exists (Err "Invalid URL"), b.
      split; [reflexivity|]. split; [reflexivity|]. split; [reflexivity|].
      split; [tauto|]. split; [tauto|]. split; [reflexivity|].
      exists g. split; [now left | exact Eurl].
Qed.

End GroupingFacts.

Lemma scan_groupable (new_URL : string -> option URL) (tabs : list Tab) :
  let found := DuplicateDetector.identifyDuplicateGroups new_URL tabs in
  Forall groupable found /\
  (forall i, i ∈ member_ids found -> Some i ∈ map tab_id tabs) /\
  NoDup (member_ids found).
Proof.
  cbn zeta.
  assert (Hmem : forall g m, g ∈ DuplicateDetector.identifyDuplicateGroups new_URL tabs ->
            m ∈ members g -> m ∈ tabs /\ exists i, tab_id m = Some i).
  { intros g m Hg Hm. destruct (scan_member new_URL tabs g m Hg Hm) as [Hin Hid].
    split; [exact Hin|]. apply has_id_Some in Hid as (i & Hi & _). now exists i. }
  split; [|split].
  - apply Forall_forall. intros g Hg. split; [|split].
    + apply (scan_member new_URL tabs g); [exact Hg | now left].
    + destruct (group_inv_result new_URL tabs) as (_ & _ & _ & Hgrp).
      now destruct (Hgrp g Hg) as (_ & Hne & _).
    + intros d Hd. apply (Hmem g d Hg). now right.
  - intros i Hi. apply list_elem_of_omap in Hi as (m & Hm & Hid).
    apply members_elem in Hm as (g & Hg & Hm). apply open_id. exists m.
    split; [|exact Hid]. now apply (Hmem g m Hg).
  - destruct (group_inv_result new_URL tabs) as (Hnd & _).
    unfold member_ids, DuplicateDetector.identifyDuplicateGroups.
    rewrite member_ids_Some in Hnd; [now apply (NoDup_fmap_1 Some)|].
    intros m Hm. apply members_elem in Hm as (g & Hg & Hm). now apply (Hmem g m Hg).
Qed.

(** X23: [groupDuplicates] on the groups that the scan of the open tabs
    reports.  It closes, opens and navigates no tab.  When the URL
    constructor accepts the URL of every original, it resolves with one new
    group identifier per duplicate group, in order; afterwards the original
    and the duplicates of each duplicate group are in the tab group made for
    it, and that tab group is red and has the host name of the original,
    without a leading [www.], as its title.  When the URL of some original is
    not accepted, it rejects with the error of the URL constructor. *)
Theorem groupDuplicates_groups_the_scan (new_URL : string -> option URL) (b : Browser) :
  let found := DuplicateDetector.identifyDuplicateGroups new_URL (tabs b) in
  exists r b',
    DuplicateDetectorAsync.groupDuplicates new_URL found b = (r, b') /\
    map tab_id (tabs b') = map tab_id (tabs b) /\
    map tab_url (tabs b') = map tab_url (tabs b) /\
    ((forall g, g ∈ found -> new_URL (original_url g) <> None) ->
     r = Ok (fresh_ids (next_group_id b) (length found)) /\
     forall k g, found !! k = Some g ->
       (forall m, m ∈ members g ->
          exists t, t ∈ tabs b' /\ tab_id t = tab_id m /\
                    tab_groupId t = next_group_id b + Z.of_nat k) /\
       exists url x, new_URL (original_url g) = Some url /\ x ∈ groups b' /\
          group_id x = next_group_id b + Z.of_nat k /\
          group_title x = Some (GroupManager.strip_www (hostname url)) /\
          group_color x = red) /\
    ((exists g, g ∈ found /\ new_URL (original_url g) = None) -> r = Err "Invalid URL").
Proof.
  intros found.
  destruct (scan_groupable new_URL (tabs b)) as (Hok & Hopen & Hnd). fold found in Hok, Hopen, Hnd.
  destruct (groupDuplicates_run new_URL found [] b Hok Hopen Hnd)
    as (r & b' & Erun & Hids & Hurls & _ & _ & Hr).
  exists r, b'. split; [exact Erun|]. split; [exact Hids|]. split; [exact Hurls|].
  destruct r as [created|e].
  - destruct Hr as [-> Hk]. split.
    + intros _. split; [reflexivity|]. intros k g Hlook.
      destruct (Hk k g Hlook) as [Hm Hx]. split; [|exact Hx].
      intros m Hmem.
      assert (Hg : g ∈ found) by (eapply list_elem_of_lookup_2; exact Hlook).
      destruct (scan_member new_URL (tabs b) g m Hg Hmem) as [_ Hid].
      apply has_id_Some in Hid as (i & Hi & _). rewrite Hi. apply Hm.
      apply list_elem_of_omap. exists m. split; [|exact Hi].
      cbn [flat_map]. rewrite app_nil_r. exact Hmem.
    + intros (g & Hg & Hnone). destruct (list_elem_of_lookup_1 _ _ Hg) as (k & Hlook).
      destruct (Hk k g Hlook) as [_ (url & _ & Hurl & _)]. congruence.
  - destruct Hr as [-> (g & Hg & Hnone)]. split; [|reflexivity].
    intros Hall. now destruct (Hall g Hg).
Qed.

(** Two tabs on a page whose address the URL constructor does not accept. *)
Definition unparsable_browser : Browser :=
  mkBrowser [open_tab 1 "not a url"; open_tab 2 "not a url"] [] 1 1 0.

Lemma groupDuplicates_groups_the_scan_witness :
  (exists b',
     DuplicateDetectorAsync.groupDuplicates URLModel.parse
       (DuplicateDetector.identifyDuplicateGroups URLModel.parse (tabs five_tab_browser))
       five_tab_browser = (Ok [1], b')) /\
  (exists b',
     DuplicateDetectorAsync.groupDuplicates URLModel.parse
       (DuplicateDetector.identifyDuplicateGroups URLModel.parse (tabs unparsable_browser))
       unparsable_browser = (Err "Invalid URL", b')).
Proof.
  split.
  - destruct (groupDuplicates_groups_the_scan URLModel.parse five_tab_browser)
      as (r & b' & Erun & _ & _ & Hok & _).
    exists b'. rewrite Erun. f_equal.
    destruct Hok as [-> _]; [|reflexivity].
    intros g Hg. vm_compute in Hg. apply elem_of_cons in Hg as [-> | Hg].
    + vm_compute. discriminate.
    + now apply elem_of_nil in Hg.
  - destruct (groupDuplicates_groups_the_scan URLModel.parse unparsable_browser)
      as (r & b' & Erun & _ & _ & _ & Hfail).
    exists b'. rewrite Erun. f_equal. apply Hfail.
    exists (mkDuplicateGroup (open_tab 1 "not a url") [open_tab 2 "not a url"]).
    split; [vm_compute; left | vm_compute; reflexivity].
Defined.

(** ** Grouping by topic *)

Lemma createGroup_open (tabIds : list Z) (title : option string) (color : Color) (b : Browser) :
  tabIds <> [] ->
  (forall i, i ∈ tabIds -> Some i ∈ map tab_id (tabs b)) ->
  exists b1,
    GroupManager.createGroup tabIds title (Some color) b = (Ok (next_group_id b), b1) /\
    tabs b1 = chrome.move_into tabIds (next_group_id b) (current_window b) (tabs b) /\
    next_group_id b1 = next_group_id b + 1 /\
    current_window b1 = current_window b.
Proof.
  intros Hne Hopen. unfold GroupManager.createGroup.
  destruct tabIds as [|i0 rest] eqn:E; [congruence|]. rewrite <- E in *.
  assert (E0 : (length tabIds =? 0)%nat = false) by (now rewrite E).
  rewrite E0. unfold await at 1. unfold chrome.tabs_group. rewrite E0.
  assert (Eall : forallb (fun i => existsb (chrome.tab_has_id i) (tabs b)) tabIds = true).
  { apply forallb_forall. intros i Hi. apply list_elem_of_In, Hopen, open_id in Hi as (t & Ht & Hid).
    apply existsb_exists. exists t. split; [now apply list_elem_of_In|].
    unfold chrome.tab_has_id, option_Z_eqb. rewrite Hid. apply Z.eqb_refl. }
  rewrite Eall. cbn [negb].
  set (n := next_group_id b).
  set (ts := chrome.move_into tabIds n (current_window b) (tabs b)).
  set (fresh := mkTabGroup n (current_window b) None grey false).
  assert (Hfound : exists grp,
            List.find (fun x => Z.eqb (group_id x) n)
                      (chrome.inhabited_groups ts (groups b ++ [fresh])) = Some grp).
  { destruct (List.find _ _) as [grp|] eqn:Efind; [now exists grp|]. exfalso.
    pose proof (find_none _ _ Efind fresh) as Hnone.
    cbn [fresh group_id] in Hnone. rewrite Z.eqb_refl in Hnone.
    enough (In fresh (chrome.inhabited_groups ts (groups b ++ [fresh]))) as Hin
        by (specialize (Hnone Hin); discriminate).
    unfold chrome.inhabited_groups. apply filter_In. split; [apply in_or_app; right; now left|].
    cbn [fresh group_id].
    destruct (proj1 (open_id (tabs b) i0)) as (t & Ht & Hid).
    { apply Hopen. rewrite E. now left. }
    destruct (move_into_member tabIds n (current_window b) (tabs b) t i0 Ht Hid)
      as (t' & Ht' & _ & Hg').
    { apply elem_Z_mem. rewrite E. now left. }
    apply existsb_exists. exists t'. split; [now apply list_elem_of_In|]. now apply Z.eqb_eq. }
  destruct Hfound as (grp & Efind).
  destruct (match title with Some t => if JS.truthy t then Some t else None | None => None end);
    unfold await at 1; unfold chrome.tabGroups_update;
    cbn [groups tabs current_window next_group_id random_draws]; rewrite Efind;
    eexists; (split; [reflexivity|]); cbn; now repeat split.
Qed.

Lemma create_topic_group_run (random_index : nat -> nat)
    (created : list (Z * string * nat)) (group : LLMService.TabGroup) (b : Browser) :
  (2 <= length (LLMService.tabIds group))%nat ->
  (forall i, i ∈ LLMService.tabIds group -> Some i ∈ map tab_id (tabs b)) ->
  exists b1,
    GroupManager.create_topic_group random_index created group b =
      (Ok (created ++ [(next_group_id b, LLMService.name group,
                        length (LLMService.tabIds group))])%list, b1) /\
    tabs b1 = chrome.move_into (LLMService.tabIds group) (next_group_id b) (current_window b)
                (tabs b) /\
    next_group_id b1 = next_group_id b + 1 /\
    current_window b1 = current_window b.
Proof.
  intros Hlen Hopen. unfold GroupManager.create_topic_group.
  destruct (Nat.ltb_spec 1 (length (LLMService.tabIds group))) as [_|]; [|lia].
  assert (Hne : LLMService.tabIds group <> []).
  { intros E. rewrite E in Hlen. cbn in Hlen. lia. }
  unfold await at 1.
  destruct (LLMService.color group) as [c|].
  - unfold resolve at 1. unfold await at 1.
    destruct (createGroup_open (LLMService.tabIds group) (Some (LLMService.name group)) c b
                Hne Hopen) as (b1 & -> & H1 & H2 & H3).
    exists b1. now repeat split.
  - unfold GroupManager.getRandomColor.
    set (c := nth _ GroupManager.colors grey).
    set (b0 := mkBrowser _ _ _ _ _).
    unfold await at 1.
    destruct (createGroup_open (LLMService.tabIds group) (Some (LLMService.name group)) c b0
                Hne Hopen) as (b1 & -> & H1 & H2 & H3).
    exists b1. now repeat split.
Qed.

Lemma create_topic_groups_run (random_index : nat -> nat)
    (suggestions : list LLMService.TabGroup) :
  forall (created : list (Z * string * nat)) (b : Browser),
  Forall (fun g => (2 <= length (LLMService.tabIds g))%nat /\
                   forall i, i ∈ LLMService.tabIds g -> Some i ∈ map tab_id (tabs b))
         suggestions ->
  exists new b',
    for_each (GroupManager.create_topic_group random_index) suggestions created b
      = (Ok (created ++ new)%list, b') /\
    map (fun e => e.1.1) new = fresh_ids (next_group_id b) (length suggestions) /\
    map (fun e => (e.1.2, e.2)) new =
      map (fun g => (LLMService.name g, length (LLMService.tabIds g))) suggestions /\
    map tab_id (tabs b') = map tab_id (tabs b) /\
    (forall t, t ∈ tabs b ->
       (forall i, tab_id t = Some i -> forall g, g ∈ suggestions -> i ∉ LLMService.tabIds g) ->
       t ∈ tabs b') /\
    forall k g, suggestions !! k = Some g ->
      forall i, i ∈ LLMService.tabIds g ->
        (forall g', g' ∈ drop (S k) suggestions -> i ∉ LLMService.tabIds g') ->
        exists t, t ∈ tabs b' /\ tab_id t = Some i /\
                  tab_groupId t = next_group_id b + Z.of_nat k.
Proof.
  induction suggestions as [|g gs IH]; intros acc b Hok.
  - exists [], b. split; [cbn; now rewrite app_nil_r|].
    repeat (split; [tauto || reflexivity|]). intros k g Hk. discriminate Hk.
  - apply Forall_cons in Hok as [[Hlen Hopen] Hok].
    destruct (create_topic_group_run random_index acc g b Hlen Hopen)
      as (b1 & Estep & Ht1 & Hn1 & Hw1).
    assert (Hids1 : map tab_id (tabs b1) = map tab_id (tabs b))
      by (rewrite Ht1; apply move_into_ids).
    destruct (IH (acc ++ [(next_group_id b, LLMService.name g,
                           length (LLMService.tabIds g))])%list b1)
      as (new & b' & Erun & Hnew1 & Hnew2 & Hids & Hframe & Hk).
    { eapply Forall_impl; [exact Hok|]. intros g' [H1 H2]. split; [exact H1|].
      intros i Hi. rewrite Hids1. now apply H2. }
    exists ((next_group_id b, LLMService.name g, length (LLMService.tabIds g)) :: new), b'.
    split.
    { cbn [for_each]. unfold await at 1. rewrite Estep, Erun. now rewrite <- app_assoc. }
    split; [cbn [map length fst snd]; rewrite fresh_ids_S, Hnew1, Hn1; reflexivity|].
    split; [cbn [map fst snd]; now rewrite Hnew2|].
    split; [now rewrite Hids, Hids1|].
    split.
    { intros t Ht Hout. apply Hframe.
      - rewrite Ht1. apply move_into_other; [exact Ht|].
        intros i Hi. apply (Hout i Hi). now left.
      - intros i Hi g' Hg'. apply (Hout i Hi). now right. }
    intros k g' Hlook i Hi Hlater. destruct k as [|k].
    + injection Hlook as <-. rewrite Z.add_0_r. cbn [drop] in Hlater.
      destruct (proj1 (open_id (tabs b) i) (Hopen i Hi)) as (t & Ht & Hid).
      destruct (move_into_member (LLMService.tabIds g) (next_group_id b) (current_window b)
                  (tabs b) t i Ht Hid (elem_Z_mem _ _ Hi)) as (t' & Ht' & Hid' & Hg').
      exists t'. split; [|now split]. apply Hframe; [now rewrite Ht1|].
      intros j Hj g' Hg'in. rewrite Hid' in Hj. injection Hj as <-. now apply Hlater.
    + cbn in Hlook. cbn [drop] in Hlater.
      destruct (Hk k g' Hlook i Hi Hlater) as (t & Ht & Hid & Hgt).
      exists t. split; [exact Ht|]. split; [exact Hid|]. rewrite Hgt, Hn1. lia.
Qed.

(** X24: [groupTabsByTopic] on top of [suggestTabGroups].  Whenever the
    suggestion resolves, the grouping resolves too: every suggested group is
    created, none of the calls to the browser fails.  The result lists one
    entry per suggestion, in order, with a new group identifier, the
    suggested name and the number of suggested tab identifiers.  No tab is
    closed or opened; and a tab of a suggestion that no later suggestion
    names is in the tab group made for that suggestion afterwards. *)
Theorem groupTabsByTopic_creates_what_is_suggested
    (random_index : nat -> nat)
    (getSettings : Result LLMSettings) (getTabContent : Z -> Result string)
    (_callAzureOpenAI _callOpenAI _callAnthropic _callCustomLLM :
       string -> LLMSettings -> Result string)
    (groupingPrompt : list TabDetail -> string)
    (tabIds : list Z) (b b0 : Browser) (suggestions : list LLMService.TabGroup) :
  let suggestTabGroups :=
    LLMService.suggestTabGroups getSettings getTabContent _callAzureOpenAI _callOpenAI
      _callAnthropic _callCustomLLM groupingPrompt in
  suggestTabGroups tabIds b = (Ok suggestions, b0) ->
  exists created b',
    GroupManager.groupTabsByTopic random_index suggestTabGroups tabIds b = (Ok created, b') /\
    map (fun e => e.1.1) created = fresh_ids (next_group_id b) (length suggestions) /\
    map (fun e => (e.1.2, e.2)) created =
      map (fun g => (LLMService.name g, length (LLMService.tabIds g))) suggestions /\
    map tab_id (tabs b') = map tab_id (tabs b) /\
    forall k g, suggestions !! k = Some g ->
      forall i, i ∈ LLMService.tabIds g ->
        (forall g', g' ∈ drop (S k) suggestions -> i ∉ LLMService.tabIds g') ->
        exists t, t ∈ tabs b' /\ tab_id t = Some i /\
                  tab_groupId t = next_group_id b + Z.of_nat k.
Proof.
  intros suggestTabGroups H.
  destruct (suggestTabGroups_sound _ _ _ _ _ _ _ _ _ _ _ H) as [-> Hsound].
  destruct (create_topic_groups_run random_index suggestions [] b)
    as (new & b' & Erun & Hnew1 & Hnew2 & Hids & _ & Hk).
  { eapply Forall_impl; [exact Hsound|]. intros g (_ & Hlen & Hopen & _).
    split; [exact Hlen|]. intros i Hi. apply open_id. now apply Hopen. }
  exists new, b'. split.
  { unfold GroupManager.groupTabsByTopic, await. rewrite H. exact Erun. }
  now repeat split.
Qed.

Lemma groupTabsByTopic_creates_what_is_suggested_witness :
  exists created b',
    GroupManager.groupTabsByTopic (fun _ => 0%nat)
      (LLMService.suggestTabGroups openai_settings page_content failing_adapter
         grouping_adapter failing_adapter failing_adapter (fun _ => "prompt"))
      [11; 12; 13; 14; 15] library_browser = (Ok created, b') /\
    map (fun e => e.1.1) created = [1; 2] /\
    map (fun e => (e.1.2, e.2)) created = [("Proof assistants", 3%nat); ("Cooking", 2%nat)].
Proof.
  destruct (groupTabsByTopic_creates_what_is_suggested (fun _ => 0%nat)
              openai_settings page_content failing_adapter grouping_adapter failing_adapter
              failing_adapter (fun _ => "prompt") [11; 12; 13; 14; 15] library_browser
              library_browser
              [LLMService.mkTabGroup "Proof assistants" [11; 12; 11] None;
               LLMService.mkTabGroup "Cooking" [13; 14] None])
    as (created & b' & Erun & H1 & H2 & _).
  - vm_compute. reflexivity.
  - exists created, b'. split; [exact Erun|]. split; [exact H1 | exact H2].
Defined.
